(** * Stagehand MCP server: request dispatch, session lifecycle, tools and
      the static artifact server.

    A shallow embedding of
      - src/stagehand/src/server.ts          (stagehandConfig, ensureStagehand,
                                               the CallTool request handler),
      - src/stagehand/src/tools.ts           (TOOLS, handleToolCall),
      - src/stagehand/src/httpStaticServer.ts (startStaticHttpServer),
    followed by the properties established about them.

    JavaScript strings are sequences of UTF-16 code units; they are embedded
    as [list N].  Asynchronous code is embedded in a state-and-exception
    monad: every [await] of the automation library is a call whose outcome
    (a value or a thrown value) is supplied by a [World] record and recorded
    in the event trace of the state. *)

From Stdlib Require Import String Ascii.
From Stdlib Require Import List NArith ZArith Bool Lia.
From Stdlib Require Import DecimalString.
Import ListNotations.

Set Implicit Arguments.
Set Warnings "-register-all".

(* ================================================================= *)
(** ** JavaScript strings *)

Module Js.

Definition jsstring := list N.

Definition ch (a : ascii) : N := N_of_ascii a.

(** An ASCII literal of the source as a sequence of code units. *)
Definition lit (s : string) : jsstring := map N_of_ascii (list_ascii_of_string s).

(** The line feed, written [\n] in the source. *)
Definition nl : jsstring := [10%N].

(** The double quote, written [\"] or ["] inside templates of the source. *)
Definition dq : jsstring := [34%N].

Fixpoint eqb (a b : jsstring) : bool :=
  match a, b with
  | [], [] => true
  | x :: a', y :: b' => N.eqb x y && eqb a' b'
  | _, _ => false
  end.

(** [s.startsWith(p)] *)
Fixpoint startsWith (s p : jsstring) : bool :=
  match p, s with
  | [], _ => true
  | y :: p', x :: s' => N.eqb x y && startsWith s' p'
  | _ :: _, [] => false
  end.

(** [s.includes(needle)] *)
Fixpoint includes (s needle : jsstring) : bool :=
  startsWith s needle ||
  match s with
  | [] => false
  | _ :: t => includes t needle
  end.

(** [s.split(sep)] for a separator of one code unit. *)
Fixpoint split (sep : N) (s : jsstring) : list jsstring :=
  match s with
  | [] => [[]]
  | c :: t =>
      if N.eqb c sep then [] :: split sep t
      else match split sep t with
           | [] => [[c]]
           | l :: ls => (c :: l) :: ls
           end
  end.

(** [xs.join(sep)] *)
Fixpoint join (sep : jsstring) (xs : list jsstring) : jsstring :=
  match xs with
  | [] => []
  | [x] => x
  | x :: rest => x ++ sep ++ join sep rest
  end.

(** The code units ECMAScript calls WhiteSpace or LineTerminator: the set
    stripped by [trim] and matched by [\s]. *)
Definition is_space (c : N) : bool :=
  ((9 <=? c) && (c <=? 13) || (c =? 32) || (c =? 160) || (c =? 5760)
   || (8192 <=? c) && (c <=? 8202) || (c =? 8232) || (c =? 8233)
   || (c =? 8239) || (c =? 8287) || (c =? 12288) || (c =? 65279))%N.

Fixpoint trimStart (s : jsstring) : jsstring :=
  match s with
  | [] => []
  | c :: t => if is_space c then trimStart t else s
  end.

Definition trimEnd (s : jsstring) : jsstring := rev (trimStart (rev s)).

(** [s.trim()] *)
Definition trim (s : jsstring) : jsstring := trimEnd (trimStart s).

Definition is_upper (c : N) : bool := ((65 <=? c) && (c <=? 90))%N.
Definition is_lower (c : N) : bool := ((97 <=? c) && (c <=? 122))%N.
Definition is_digit (c : N) : bool := ((48 <=? c) && (c <=? 57))%N.
Definition is_alpha (c : N) : bool := is_upper c || is_lower c.

(** [s.replace(pat, by)] for a string pattern: the first occurrence only. *)
Fixpoint replaceFirst (s pat by_ : jsstring) : jsstring :=
  if startsWith s pat then by_ ++ skipn (length pat) s
  else match s with
       | [] => []
       | c :: t => c :: replaceFirst t pat by_
       end.

(** [s.replace(/c/g, d)] for a pattern of one code unit. *)
Definition replaceAllChar (c d : N) (s : jsstring) : jsstring :=
  map (fun x => if N.eqb x c then d else x) s.

(** [String(n)] for a non-negative integer. *)
Definition decimal (n : N) : jsstring := lit (NilZero.string_of_uint (N.to_uint n)).

(** [s.length] *)
Definition jslength (s : jsstring) : N := N.of_nat (length s).

Definition hexval (c : N) : option N :=
  if is_digit c then Some (c - 48)%N
  else if ((97 <=? c) && (c <=? 102))%N then Some (c - 87)%N
  else if ((65 <=? c) && (c <=? 70))%N then Some (c - 55)%N
  else None.

Definition is_hex (c : N) : bool :=
  match hexval c with Some _ => true | None => false end.

Definition hexdigit_lower (d : N) : N := if (d <? 10)%N then (48 + d)%N else (87 + d)%N.
Definition hexdigit_upper (d : N) : N := if (d <? 10)%N then (48 + d)%N else (55 + d)%N.

(** Truthiness of a possibly undefined string: defined and non-empty. *)
Definition truthy (o : option jsstring) : bool :=
  match o with
  | Some (_ :: _) => true
  | _ => false
  end.

(** A possibly undefined string inside a template literal. *)
Definition tpl (o : option jsstring) : jsstring :=
  match o with
  | Some s => s
  | None => lit "undefined"
  end.

End Js.
Import Js.

(* ================================================================= *)
(** ** Regular expressions of the source

    The regular expressions used by [handleToolCall] have no flags, no
    groups that are referred to and no back-references; they are embedded
    as terms of [re] and run by Brzozowski derivatives.  [lang] is their
    meaning as sets of strings. *)

Module Regex.

Inductive re : Type :=
| Void : re
| Eps : re
| Cls (p : N -> bool) : re
| Cat (a b : re) : re
| Alt (a b : re) : re
| Star (a : re) : re.

Definition Chr (a : ascii) : re := Cls (N.eqb (ch a)).
Definition Plus (r : re) : re := Cat r (Star r).
Definition AnyStar : re := Star (Cls (fun _ => true)).

Fixpoint nullable (r : re) : bool :=
  match r with
  | Void => false
  | Eps => true
  | Cls _ => false
  | Cat a b => nullable a && nullable b
  | Alt a b => nullable a || nullable b
  | Star _ => true
  end.

Fixpoint deriv (c : N) (r : re) : re :=
  match r with
  | Void => Void
  | Eps => Void
  | Cls p => if p c then Eps else Void
  | Cat a b =>
      if nullable a then Alt (Cat (deriv c a) b) (deriv c b)
      else Cat (deriv c a) b
  | Alt a b => Alt (deriv c a) (deriv c b)
  | Star a => Cat (deriv c a) (Star a)
  end.

Fixpoint matches (r : re) (s : jsstring) : bool :=
  match s with
  | [] => nullable r
  | c :: t => matches (deriv c r) t
  end.

(** [s.match(/^r/)] is not null: some prefix of [s] is in [r]. *)
Definition matchesPrefix (r : re) (s : jsstring) : bool := matches (Cat r AnyStar) s.

(** [s.match(/^r$/)] is not null (no [m] flag): [s] itself is in [r]. *)
Definition matchesWhole (r : re) (s : jsstring) : bool := matches r s.

Inductive lang : re -> jsstring -> Prop :=
| L_eps : lang Eps []
| L_cls : forall p c, p c = true -> lang (Cls p) [c]
| L_cat : forall a b s t, lang a s -> lang b t -> lang (Cat a b) (s ++ t)
| L_alt_l : forall a b s, lang a s -> lang (Alt a b) s
| L_alt_r : forall a b s, lang b s -> lang (Alt a b) s
| L_star_nil : forall a, lang (Star a) []
| L_star_cons : forall a s t, lang a s -> lang (Star a) t -> lang (Star a) (s ++ t).

End Regex.

(* ================================================================= *)
(** ** JSON values and [JSON.stringify] *)

Module Json.

(** A finite number.  The program computes with none of the numbers it
    prints, so that a number is known here by the text that
    [Number::toString] gives for it ([30000], [0.5], [1e+21]), which is what
    [JSON.stringify] and a template literal print. *)
Inductive number : Type :=
| Num (text : jsstring).

Definition numberText (n : number) : jsstring :=
  match n with
  | Num text => text
  end.

(** The values that [JSON.stringify] prints; a number that is not finite
    is printed as [null]. *)
Inductive json : Type :=
| JNull : json
| JBool (b : bool) : json
| JNum (n : number) : json
| JStr (s : jsstring) : json
| JArr (items : list json) : json
| JObj (fields : list (jsstring * json)) : json.

Definition hex4 (c : N) : jsstring :=
  [hexdigit_lower ((c / 4096) mod 16); hexdigit_lower ((c / 256) mod 16);
   hexdigit_lower ((c / 16) mod 16); hexdigit_lower (c mod 16)]%N.

Definition unicodeEscape (c : N) : jsstring := lit "\u" ++ hex4 c.

Definition is_high_surrogate (c : N) : bool := ((55296 <=? c) && (c <=? 56319))%N.
Definition is_low_surrogate (c : N) : bool := ((56320 <=? c) && (c <=? 57343))%N.

(** QuoteJSONString without the enclosing quotes. *)
Fixpoint quoteBody (s : jsstring) : jsstring :=
  match s with
  | [] => []
  | c :: t =>
      if (c =? 8)%N then lit "\b" ++ quoteBody t
      else if (c =? 9)%N then lit "\t" ++ quoteBody t
      else if (c =? 10)%N then lit "\n" ++ quoteBody t
      else if (c =? 12)%N then lit "\f" ++ quoteBody t
      else if (c =? 13)%N then lit "\r" ++ quoteBody t
      else if (c =? 34)%N then lit "\" ++ dq ++ quoteBody t
      else if (c =? 92)%N then lit "\\" ++ quoteBody t
      else if (c <? 32)%N then unicodeEscape c ++ quoteBody t
      else if is_high_surrogate c then
        match t with
        | lo :: t' =>
            if is_low_surrogate lo then c :: lo :: quoteBody t'
            else unicodeEscape c ++ quoteBody t
        | [] => unicodeEscape c
        end
      else if is_low_surrogate c then unicodeEscape c ++ quoteBody t
      else c :: quoteBody t
  end.

Definition quote (s : jsstring) : jsstring := dq ++ quoteBody s ++ dq.

(** SerializeJSONProperty with the current [indent] and the [gap]. *)
Fixpoint serialize (gap indent : jsstring) (j : json) {struct j} : jsstring :=
  match j with
  | JNull => lit "null"
  | JBool true => lit "true"
  | JBool false => lit "false"
  | JNum n => numberText n
  | JStr s => quote s
  | JArr items =>
      let stepback := indent in
      let indent' := indent ++ gap in
      match items with
      | [] => lit "[]"
      | _ :: _ =>
          let parts := map (serialize gap indent') items in
          match gap with
          | [] => lit "[" ++ join (lit ",") parts ++ lit "]"
          | _ :: _ =>
              lit "[" ++ nl ++ indent' ++ join (lit "," ++ nl ++ indent') parts
              ++ nl ++ stepback ++ lit "]"
          end
      end
  | JObj fields =>
      let stepback := indent in
      let indent' := indent ++ gap in
      match fields with
      | [] => lit "{}"
      | _ :: _ =>
          let member (kv : jsstring * json) :=
            quote (fst kv) ++ lit ":"
            ++ match gap with [] => [] | _ :: _ => lit " " end
            ++ serialize gap indent' (snd kv) in
          let parts := map member fields in
          match gap with
          | [] => lit "{" ++ join (lit ",") parts ++ lit "}"
          | _ :: _ =>
              lit "{" ++ nl ++ indent' ++ join (lit "," ++ nl ++ indent') parts
              ++ nl ++ stepback ++ lit "}"
          end
      end
  end.

(** [JSON.stringify(value, null, space)]; [space] is clamped to 10. *)
Definition stringify (j : json) (space : nat) : jsstring :=
  serialize (repeat 32%N (Nat.min space 10)) [] j.

(** An object literal from which the properties whose value is [undefined]
    are left out, as [JSON.stringify] does. *)
Definition object (fields : list (jsstring * option json)) : json :=
  JObj (flat_map (fun kv => match snd kv with
                            | Some v => [(fst kv, v)]
                            | None => []
                            end) fields).

End Json.
Import Json.

(* ================================================================= *)
(** ** [path.normalize] and [path.join] of Node.js (POSIX) *)

Module Path.

(** The segments that remain after [.], empty segments and [..] are
    resolved; [acc] is the stack of segments kept so far, last one first. *)
Fixpoint normalizeSegments (allowAboveRoot : bool) (acc segs : list jsstring)
  : list jsstring :=
  match segs with
  | [] => rev acc
  | seg :: rest =>
      if Js.eqb seg [] || Js.eqb seg (lit ".") then
        normalizeSegments allowAboveRoot acc rest
      else if Js.eqb seg (lit "..") then
        match acc with
        | top :: acc' =>
            if Js.eqb top (lit "..") then
              normalizeSegments allowAboveRoot (seg :: acc) rest
            else normalizeSegments allowAboveRoot acc' rest
        | [] =>
            if allowAboveRoot then normalizeSegments allowAboveRoot [seg] rest
            else normalizeSegments allowAboveRoot [] rest
        end
      else normalizeSegments allowAboveRoot (seg :: acc) rest
  end.

Definition normalize (path : jsstring) : jsstring :=
  match path with
  | [] => lit "."
  | c :: _ =>
      let isAbsolute := N.eqb c (ch "/") in
      let trailingSeparator := N.eqb (last path 0%N) (ch "/") in
      let p := join (lit "/")
                 (normalizeSegments (negb isAbsolute) [] (split (ch "/") path)) in
      match p with
      | [] => if isAbsolute then lit "/"
              else if trailingSeparator then lit "./" else lit "."
      | _ :: _ =>
          let p' := if trailingSeparator then p ++ lit "/" else p in
          if isAbsolute then lit "/" ++ p' else p'
      end
  end.

(** [path.join(a, b)] *)
Definition join (a b : jsstring) : jsstring :=
  match a, b with
  | [], [] => lit "."
  | [], _ :: _ => normalize b
  | _ :: _, [] => normalize a
  | _ :: _, _ :: _ => normalize (a ++ lit "/" ++ b)
  end.

End Path.

(* ================================================================= *)
(** ** The environment of the server and its mutable state *)

Module Runtime.

(** The values [null] and [undefined]. *)
Inductive nullish : Type :=
| JsNull
| JsUndefined.

(** A value thrown by JavaScript code:
    - an [Error] object, with its message;
    - [null] or [undefined];
    - any other value, kept as its [String(...)] conversion and as what a
      template literal makes of its property [message], [None] when the
      property is undefined, as it is on a string or a number. *)
Inductive thrown : Type :=
| ErrorObj (message : jsstring)
| Nullish (v : nullish)
| NonError (repr : jsstring) (message : option jsstring).

(** [error instanceof Error ? error.message : String(error)] *)
Definition errorMsg (error : thrown) : jsstring :=
  match error with
  | ErrorObj m => m
  | Nullish JsNull => lit "null"
  | Nullish JsUndefined => lit "undefined"
  | NonError r _ => r
  end.

(** What a call into a library, or the evaluation of an expression, does:
    it returns or it throws. *)
Inductive outcome (A : Type) : Type :=
| Returns (a : A)
| Throws (e : thrown).
Arguments Returns {A} a.
Arguments Throws {A} e.

(** [(error as Error).message], for a template literal.  The cast does
    nothing at run time: on [null] and on [undefined] the read of the
    property throws a TypeError, whose message is the one of the engine,
    [typeErrorMessage]; on any other value it gives the property, which may
    be undefined. *)
Definition messageOf (typeErrorMessage : nullish -> jsstring) (error : thrown)
  : outcome (option jsstring) :=
  match error with
  | ErrorObj m => Returns (Some m)
  | Nullish v => Throws (ErrorObj (typeErrorMessage v))
  | NonError _ m => Returns m
  end.

(** A [Stagehand] object is known by its identity: the number of objects
    constructed before it. *)
Definition handle := nat.

(** The part of the DOM that the function evaluated in the page by
    [stagehand_get_html] reads. *)
Record Element : Type := mkElement {
  tagName : jsstring;
  id : jsstring;
  className : jsstring;
  outerHTML : jsstring
}.

(** [result.singleNodeValue]: an element, or a node that is no element. *)
Inductive XNode : Type :=
| ElementNode (e : Element)
| OtherNode.

Record Document : Type := mkDocument {
  title : jsstring;
  location_href : jsstring;
  documentElement_outerHTML : jsstring;
  (** [document.querySelectorAll("*")], in document order *)
  allElements : list Element;
  (** [document.evaluate(sel, document, null, FIRST_ORDERED_NODE_TYPE, null)] *)
  evaluateXPath : jsstring -> outcome (option XNode);
  (** [document.querySelector(sel)] *)
  querySelector : jsstring -> outcome (option Element);
  (** [s.toLowerCase()] in the page: the case mapping of Unicode, as the
      engine of the browser has it *)
  toLowerCase : jsstring -> jsstring
}.

(** [process.env] *)
Record ProcessEnv : Type := mkProcessEnv {
  BROWSERBASE_API_KEY : option jsstring;
  BROWSERBASE_PROJECT_ID : option jsstring;
  CONTEXT_ID : option jsstring;
  LOCAL_CDP_URL : option jsstring;
  OPENROUTER_API_KEY : option jsstring;
  OPENAI_MODEL_ID : option jsstring;
  OPENAI_API_KEY : option jsstring;
  STAGEHAND_HTTP_PORT : option jsstring
}.

Inductive ContentItem : Type :=
| Text (text : jsstring)
| Image (data mimeType : jsstring).

Record CallToolResult : Type := mkResult {
  content : list ContentItem;
  isError : bool
}.

Inductive LogLevel : Type := info | error | debug.

(** Everything outside the repository that one request can observe: the
    automation library, the file system, the clock, the random source and
    the modules of the repository that format log lines. *)
Record World : Type := mkWorld {
  (** [await stagehand.init()] *)
  stagehand_init : handle -> outcome unit;
  (** [await stagehand.page.evaluate(() => document.title)] *)
  page_probe : handle -> outcome unit;
  (** [await stagehand.page.goto(url)] *)
  page_goto : handle -> option jsstring -> outcome unit;
  (** [stagehand.browserbaseSessionID] *)
  sessionID : handle -> option jsstring;
  (** [await stagehand.page.act({action, variables})] *)
  page_act : handle -> option jsstring -> option json -> outcome unit;
  (** [await stagehand.page.evaluate(() => document.body.innerText)] *)
  page_innerText : handle -> outcome jsstring;
  (** [await stagehand.page.observe({instruction, returnAction: false})] *)
  page_observe : handle -> option jsstring -> outcome json;
  (** the document in which [page.evaluate] runs a function *)
  page_document : handle -> outcome Document;
  (** [(await stagehand.page.screenshot({fullPage: false})).toString("base64")] *)
  page_screenshot : handle -> outcome jsstring;
  (** [serverInstance.notification(...)], when there is a server instance *)
  server_notification : option (outcome unit);
  (** [path.resolve(__dirname, "../tmp")] *)
  TMP_DIR : jsstring;
  (** [fs.mkdir(TMP_DIR, {recursive: true})] *)
  fs_mkdir : outcome unit;
  (** [fs.writeFile(path, data, "utf8")] *)
  fs_writeFile : jsstring -> jsstring -> outcome unit;
  (** [Date.now()] *)
  date_now : N;
  (** [new Date().toISOString()] *)
  date_iso : jsstring;
  (** [randomBytes(6).toString("hex")] *)
  random_hex : jsstring;
  processEnv : ProcessEnv;
  (** the own enumerable properties of the [AISdkClient] object *)
  llmClient_json : json;
  (** the line that [log] of logging.js makes of a message *)
  formatLog : jsstring -> LogLevel -> jsstring;
  (** the messages of [logRequest] and [logResponse] of logging.js *)
  requestLogMessage : jsstring -> jsstring;
  responseLogMessage : jsstring -> jsstring;
  (** [JSON.parse(sanitizeMessage(result))], utils.js *)
  sanitizeRoundTrip : CallToolResult -> outcome CallToolResult;
  (** the message of the TypeError that the engine of the server throws
      when the property [message] of [null] or of [undefined] is read *)
  typeErrorMessage : nullish -> jsstring
}.

(** The calls into the automation library and the file system, as they
    happen. *)
Inductive event : Type :=
| EvNew (h : handle)
| EvInit (h : handle)
| EvProbe (h : handle)
| EvGoto (h : handle)
| EvAct (h : handle)
| EvInnerText (h : handle)
| EvObserve (h : handle)
| EvEvaluate (h : handle)
| EvScreenshot (h : handle)
| EvNotify
| EvMkdir
| EvWriteFile (path : jsstring).

(** The module-level variables of the server. *)
Record State : Type := mkState {
  (** [let stagehand: Stagehand | undefined] of server.ts *)
  stagehand : option handle;
  (** the number of [Stagehand] objects constructed so far *)
  constructed : nat;
  (** [operationLogs] of logging.js *)
  operationLogs : list jsstring;
  (** [screenshots] of resources.js: a [Map] in insertion order *)
  screenshots : list (jsstring * jsstring);
  (** the files written below [TMP_DIR] *)
  artifacts : list (jsstring * jsstring);
  events : list event
}.

Definition initialState : State :=
  mkState None 0 [] [] [] [].

Definition with_stagehand (o : option handle) (s : State) : State :=
  mkState o (constructed s) (operationLogs s) (screenshots s) (artifacts s) (events s).
Definition with_constructed (n : nat) (s : State) : State :=
  mkState (stagehand s) n (operationLogs s) (screenshots s) (artifacts s) (events s).
Definition with_operationLogs (l : list jsstring) (s : State) : State :=
  mkState (stagehand s) (constructed s) l (screenshots s) (artifacts s) (events s).
Definition with_screenshots (m : list (jsstring * jsstring)) (s : State) : State :=
  mkState (stagehand s) (constructed s) (operationLogs s) m (artifacts s) (events s).
Definition with_artifacts (m : list (jsstring * jsstring)) (s : State) : State :=
  mkState (stagehand s) (constructed s) (operationLogs s) (screenshots s) m (events s).
Definition with_events (l : list event) (s : State) : State :=
  mkState (stagehand s) (constructed s) (operationLogs s) (screenshots s) (artifacts s) l.

(** [map.set(k, v)] on a [Map] kept in insertion order. *)
Fixpoint mapSet (k v : jsstring) (m : list (jsstring * jsstring))
  : list (jsstring * jsstring) :=
  match m with
  | [] => [(k, v)]
  | (k', v') :: rest =>
      if Js.eqb k' k then (k', v) :: rest else (k', v') :: mapSet k v rest
  end.

(** *** The monad of the asynchronous code: state and exceptions *)

Inductive res (A : Type) : Type :=
| Ok (a : A)
| Err (e : thrown).
Arguments Ok {A} a.
Arguments Err {A} e.

Definition M (A : Type) : Type := State -> res A * State.

Definition ret {A} (a : A) : M A := fun s => (Ok a, s).

Definition bind {A B} (m : M A) (k : A -> M B) : M B :=
  fun s => match m s with
           | (Ok a, s') => k a s'
           | (Err e, s') => (Err e, s')
           end.

Definition throw {A} (e : thrown) : M A := fun s => (Err e, s).

(** [try { m } catch (error) { handler(error) }] *)
Definition try_catch {A} (m : M A) (handler : thrown -> M A) : M A :=
  fun s => match m s with
           | (Ok a, s') => (Ok a, s')
           | (Err e, s') => handler e s'
           end.

Definition gets {A} (f : State -> A) : M A := fun s => (Ok (f s), s).
Definition modify (f : State -> State) : M unit := fun s => (Ok tt, f s).

(** A call that leaves the repository: it is recorded, and it returns or
    throws as the world says. *)
Definition call {A} (ev : event) (o : outcome A) : M A :=
  fun s =>
    let s' := with_events (events s ++ [ev]) s in
    match o with
    | Returns a => (Ok a, s')
    | Throws e => (Err e, s')
    end.

End Runtime.
Import Runtime.

Declare Scope monad_scope.
Delimit Scope monad_scope with monad.
Notation "x <- m ;; k" := (bind m (fun x => k))
  (at level 61, m at next level, right associativity) : monad_scope.
Notation "m ;; k" := (bind m (fun _ => k))
  (at level 61, right associativity) : monad_scope.
Open Scope monad_scope.

(* ================================================================= *)
(** ** logging.js *)

Module Logging.

(** Modelled from the spec: logging.js is not among the sources.  The
    operation log is "an ordered, append-only sequence of log lines ...
    appended to by the session/automation layer during that call": [log]
    appends the formatted message to [operationLogs]. *)
Definition log (W : World) (message : jsstring) (level : LogLevel) : M unit :=
  modify (fun s => with_operationLogs (operationLogs s ++ [formatLog W message level]) s).

(** Modelled from the spec: logging.js is not among the sources.
    [logRequest] logs one line. *)
Definition logRequest (W : World) (type : jsstring) : M unit :=
  log W (requestLogMessage W type) debug.

(** Modelled from the spec: logging.js is not among the sources.
    [logResponse] logs one line, as [logRequest] does. *)
Definition logResponse (W : World) (type : jsstring) : M unit :=
  log W (responseLogMessage W type) debug.

End Logging.
Import Logging.

(* ================================================================= *)
(** ** tools.ts *)

Module Tools.

(** A tool of the registry: its name and, of its input schema, the names of
    the properties and of the required ones. *)
Record Tool : Type := mkTool {
  name : jsstring;
  properties : list jsstring;
  required : list jsstring
}.

Definition TOOLS : list Tool :=
  [ mkTool (lit "stagehand_navigate") [lit "url"] [lit "url"];
    mkTool (lit "stagehand_act") [lit "action"; lit "variables"] [lit "action"];
    mkTool (lit "stagehand_extract") [] [];
    mkTool (lit "stagehand_observe") [lit "instruction"] [lit "instruction"];
    mkTool (lit "stagehand_get_html") [lit "selector"] [];
    mkTool (lit "screenshot") [] [] ].

(** The arguments of a call that [handleToolCall] reads: each is a string
    (an object for [variables]) or undefined. *)
Record ToolArgs : Type := mkArgs {
  url : option jsstring;
  action : option jsstring;
  variables : option json;
  instruction : option jsstring;
  selector : option jsstring
}.

(** [request.params.arguments ?? {}] when there are no arguments *)
Definition noArgs : ToolArgs := mkArgs None None None None None.

(** [`Operation logs:\n${operationLogs.join("\n")}`] *)
Definition operationLogsText (s : State) : jsstring :=
  lit "Operation logs:" ++ nl ++ Js.join nl (operationLogs s).

(** The error envelope that most branches of [handleToolCall] build in
    their [catch]. *)
Definition failure (what : jsstring) (err : thrown) : M CallToolResult :=
  logs <- gets operationLogsText ;;
  ret (mkResult [Text (what ++ errorMsg err); Text logs] true).

(** *** stagehand_extract: the clean-up of the page text *)

Import Regex.

Definition classNameChar (c : N) : bool :=
  is_alpha c || is_digit c || N.eqb c (ch "_") || N.eqb c (ch "-").

Definition propertyChar (c : N) : bool := is_alpha c || N.eqb c (ch "-").

Definition valueChar (c : N) : bool :=
  is_alpha c || is_digit c || N.eqb c (ch "%") || is_space c
  || N.eqb c (ch "(") || N.eqb c (ch ")") || N.eqb c (ch ".")
  || N.eqb c (ch ",") || N.eqb c (ch "-").

(** [/^\.[a-zA-Z0-9_-]+\s*{/] without its anchor *)
Definition cssClassRule : re :=
  Cat (Chr ".") (Cat (Plus (Cls classNameChar)) (Cat (Star (Cls is_space)) (Chr "{"))).

(** [/^[a-zA-Z-]+:[a-zA-Z0-9%\s\(\)\.,-]+;$/] without its anchors *)
Definition cssDeclaration : re :=
  Cat (Plus (Cls propertyChar)) (Cat (Chr ":") (Cat (Plus (Cls valueChar)) (Chr ";"))).

(** The callback of [filter]. *)
Definition keepLine (line : jsstring) : bool :=
  match line with
  | [] => false
  | _ :: _ =>
      if (includes line (lit "{") && includes line (lit "}"))
         || includes line (lit "@keyframes")
         || matchesPrefix cssClassRule line
         || matchesWhole cssDeclaration line
      then false
      else true
  end.

(** [String.fromCharCode(parseInt(hex, 16))] for four hexadecimal digits *)
Definition fromHex4 (a b c d : N) : option N :=
  match hexval a, hexval b, hexval c, hexval d with
  | Some x, Some y, Some z, Some w => Some (((x * 16 + y) * 16 + z) * 16 + w)%N
  | _, _, _, _ => None
  end.

(** [line.replace(/\\u([0-9a-fA-F]{4})/g, (_, hex) => ...)]: the matches are
    taken from left to right and do not overlap. *)
Fixpoint decodeUnicodeEscapes (line : jsstring) : jsstring :=
  match line with
  | [] => []
  | c :: t =>
      match t with
      | u :: h1 :: h2 :: h3 :: h4 :: rest =>
          if N.eqb c (ch "\") && N.eqb u (ch "u") then
            match fromHex4 h1 h2 h3 h4 with
            | Some code => code :: decodeUnicodeEscapes rest
            | None => c :: decodeUnicodeEscapes t
            end
          else c :: decodeUnicodeEscapes t
      | _ => c :: decodeUnicodeEscapes t
      end
  end.

(** The value of [content] in the [stagehand_extract] branch. *)
Definition extractContent (bodyText : jsstring) : list jsstring :=
  map decodeUnicodeEscapes (filter keepLine (map trim (split 10%N bodyText))).

(** *** stagehand_get_html: the function evaluated in the page *)

(** [/[.#\[\s>+~]/] *)
Definition selectorSeparator (c : N) : bool :=
  N.eqb c (ch ".") || N.eqb c (ch "#") || N.eqb c (ch "[") || is_space c
  || N.eqb c (ch ">") || N.eqb c (ch "+") || N.eqb c (ch "~").

(** [selector.split(/[.#\[\s>+~]/)[0]] *)
Fixpoint leadingToken (sel : jsstring) : jsstring :=
  match sel with
  | [] => []
  | c :: t => if selectorSeparator c then [] else c :: leadingToken t
  end.

Definition renderSimilar (doc : Document) (el : Element) : jsstring :=
  lit "&lt;" ++ toLowerCase doc (tagName el)
  ++ match id el with
     | [] => []
     | _ :: _ => lit " id=" ++ dq ++ id el ++ dq
     end
  ++ match className el with
     | [] => []
     | _ :: _ => lit " class=" ++ dq ++ className el ++ dq
     end
  ++ lit "&gt;".

(** The elements listed as similar: at most five. *)
Definition similarElements (doc : Document) (sel : jsstring) : list Element :=
  firstn 5
    (filter (fun el => Js.eqb (toLowerCase doc (tagName el))
                         (toLowerCase doc (leadingToken sel)))
       (allElements doc)).

(** [xs.join(", ") || "None found"] *)
Definition similarText (doc : Document) (sel : jsstring) : jsstring :=
  match Js.join (lit ", ") (map (renderSimilar doc) (similarElements doc sel)) with
  | [] => lit "None found"
  | (_ :: _) as s => s
  end.

Definition unlines (ls : list jsstring) : jsstring := Js.join nl ls.

Definition xpathNotFound (doc : Document) (sel : jsstring) : jsstring :=
  unlines
    [ lit "<!DOCTYPE html>";
      lit "<html>";
      lit "<head><title>XPath Element Not Found</title></head>";
      lit "<body>";
      lit "<h1>XPath Element Not Found</h1>";
      lit "<p>The XPath selector did not match any elements on the page.</p>";
      lit "<h2>Details:</h2>";
      lit "<ul>";
      lit "  <li><strong>XPath Selector:</strong> " ++ sel ++ lit "</li>";
      lit "  <li><strong>Document Title:</strong> " ++ title doc ++ lit "</li>";
      lit "  <li><strong>Document URL:</strong> " ++ location_href doc ++ lit "</li>";
      lit "  <li><strong>Page Content Length:</strong> "
        ++ decimal (jslength (documentElement_outerHTML doc)) ++ lit " characters</li>";
      lit "</ul>";
      lit "<h2>Suggestions:</h2>";
      lit "<ul>";
      lit "  <li>Check if the XPath selector is correct</li>";
      lit "  <li>Verify that the element exists on the page</li>";
      lit "  <li>Try using browser developer tools to test the XPath selector</li>";
      lit "  <li>Consider using a CSS selector instead if possible</li>";
      lit "</ul>";
      lit "</body>";
      lit "</html>" ].

Definition cssNotFound (doc : Document) (sel : jsstring) : jsstring :=
  unlines
    [ lit "<!DOCTYPE html>";
      lit "<html>";
      lit "<head><title>CSS Element Not Found</title></head>";
      lit "<body>";
      lit "<h1>CSS Element Not Found</h1>";
      lit "<p>The CSS selector did not match any elements on the page.</p>";
      lit "<h2>Details:</h2>";
      lit "<ul>";
      lit "  <li><strong>CSS Selector:</strong> " ++ sel ++ lit "</li>";
      lit "  <li><strong>Document Title:</strong> " ++ title doc ++ lit "</li>";
      lit "  <li><strong>Document URL:</strong> " ++ location_href doc ++ lit "</li>";
      lit "  <li><strong>Page Content Length:</strong> "
        ++ decimal (jslength (documentElement_outerHTML doc)) ++ lit " characters</li>";
      lit "  <li><strong>Similar Elements:</strong> " ++ similarText doc sel ++ lit "</li>";
      lit "</ul>";
      lit "<h2>Suggestions:</h2>";
      lit "<ul>";
      lit "  <li>Check if the CSS selector syntax is correct</li>";
      lit "  <li>Verify that the element exists on the page</li>";
      lit "  <li>Try using browser developer tools to test the CSS selector</li>";
      lit "  <li>Consider using a simpler selector (e.g., by ID or a unique class)</li>";
      lit "  <li>Check if the element is dynamically added to the page</li>";
      lit "</ul>";
      lit "</body>";
      lit "</html>" ].

Definition selectorError (err : thrown) : jsstring :=
  lit "Selector error: " ++ errorMsg err
  ++ lit ". For XPath, use '//' or '/' prefix. For CSS, use standard selectors.".

(** The syntactic test that sends a selector to XPath. *)
Definition isXPathSelector (sel : jsstring) : bool :=
  startsWith sel (lit "/") || startsWith sel (lit "./") || startsWith sel (lit "//").

(** The function passed to [page.evaluate], applied to [args.selector || null]. *)
Definition getHtmlInPage (doc : Document) (selector : option jsstring) : jsstring :=
  match selector with
  | Some ((_ :: _) as sel) =>
      if isXPathSelector sel then
        match evaluateXPath doc sel with
        | Throws err => selectorError err
        | Returns (Some (ElementNode element)) => outerHTML element
        | Returns _ => xpathNotFound doc sel
        end
      else
        match querySelector doc sel with
        | Throws err => selectorError err
        | Returns (Some element) => outerHTML element
        | Returns None => cssNotFound doc sel
        end
  | _ => documentElement_outerHTML doc
  end.

(** [page.evaluate(fn, arg)]: [fn] runs on the document of the page. *)
Definition evaluateInPage {A} (o : outcome Document) (fn : Document -> A) : outcome A :=
  match o with
  | Returns doc => Returns (fn doc)
  | Throws e => Throws e
  end.

(** [process.env.STAGEHAND_HTTP_PORT || 8080] inside a template *)
Definition httpPort (W : World) : jsstring :=
  if truthy (STAGEHAND_HTTP_PORT (processEnv W))
  then tpl (STAGEHAND_HTTP_PORT (processEnv W))
  else lit "8080".

Definition htmlFilename (W : World) : jsstring :=
  lit "stagehand-html-" ++ decimal (date_now W) ++ lit "-" ++ random_hex W ++ lit ".html".

Definition htmlUrl (W : World) : jsstring :=
  lit "http://localhost:" ++ httpPort W ++ lit "/tmp/" ++ htmlFilename W.

(** *** handleToolCall *)

Definition handleToolCall (W : World) (name : jsstring) (args : ToolArgs) (stagehand : handle)
  : M CallToolResult :=
  if Js.eqb name (lit "stagehand_navigate") then
    try_catch
      (call (EvGoto stagehand) (page_goto W stagehand (url args)) ;;
       ret (mkResult
              [ Text (lit "Navigated to: " ++ tpl (url args));
                Text (lit "View the live session here: https://browserbase.com/sessions/"
                      ++ tpl (sessionID W stagehand)) ]
              false))
      (failure (lit "Failed to navigate: "))
  else if Js.eqb name (lit "stagehand_act") then
    try_catch
      (call (EvAct stagehand) (page_act W stagehand (action args) (variables args)) ;;
       ret (mkResult [ Text (lit "Action performed: " ++ tpl (action args)) ] false))
      (failure (lit "Failed to perform action: "))
  else if Js.eqb name (lit "stagehand_extract") then
    try_catch
      (bodyText <- call (EvInnerText stagehand) (page_innerText W stagehand) ;;
       let content := extractContent bodyText in
       ret (mkResult
              [ Text (lit "Extracted content:" ++ nl ++ Js.join nl content) ]
              false))
      (fun err =>
         match messageOf (typeErrorMessage W) err with
         | Returns message =>
             ret (mkResult
                    [ Text (lit "Failed to extract content: " ++ tpl message) ]
                    true)
         | Throws typeError => throw typeError
         end)
  else if Js.eqb name (lit "stagehand_observe") then
    try_catch
      (observations <- call (EvObserve stagehand)
                         (page_observe W stagehand (instruction args)) ;;
       ret (mkResult
              [ Text (lit "Observations: " ++ stringify observations 0) ]
              false))
      (failure (lit "Failed to observe: "))
  else if Js.eqb name (lit "stagehand_get_html") then
    try_catch
      (html <- call (EvEvaluate stagehand)
                 (evaluateInPage (page_document W stagehand)
                    (fun doc => getHtmlInPage doc
                                  (if truthy (selector args) then selector args else None))) ;;
       call EvMkdir (fs_mkdir W) ;;
       let filename := htmlFilename W in
       let filePath := Path.join (TMP_DIR W) filename in
       call (EvWriteFile filePath) (fs_writeFile W filePath html) ;;
       modify (fun s => with_artifacts (artifacts s ++ [(filePath, html)]) s) ;;
       ret (mkResult [ Text (lit "HTML saved to: " ++ htmlUrl W) ] false))
      (failure (lit "Failed to get HTML: "))
  else if Js.eqb name (lit "screenshot") then
    try_catch
      (screenshotBase64 <- call (EvScreenshot stagehand) (page_screenshot W stagehand) ;;
       let name := lit "screenshot-" ++ replaceAllChar (ch ":") (ch "-") (date_iso W) in
       modify (fun s => with_screenshots (mapSet name screenshotBase64 (screenshots s)) s) ;;
       match server_notification W with
       | Some o => call EvNotify o
       | None => ret tt
       end ;;
       ret (mkResult
              [ Text (lit "Screenshot taken with name: " ++ name);
                Image screenshotBase64 (lit "image/png") ]
              false))
      (failure (lit "Failed to take screenshot: "))
  else
    logs <- gets operationLogsText ;;
    ret (mkResult [ Text (lit "Unknown tool: " ++ name); Text logs ] true).

End Tools.

(* ================================================================= *)
(** ** server.ts *)

Module Server.

Import Tools.

Inductive Environment : Type := BROWSERBASE | LOCAL.

Record SessionCreateParams : Type := mkSessionCreateParams {
  scp_projectId : jsstring;
  (** [browserSettings.context.id]; [browserSettings] is undefined without it *)
  scp_contextId : option jsstring
}.

Record LocalBrowserLaunchOptions : Type := mkLaunchOptions {
  cdpUrl : option jsstring
}.

(** What the spread of [openRouterModelConfig] or of [openAiModelConfig]
    adds to the configuration. *)
Inductive ModelConfig : Type :=
| OpenRouter (llmClient : json)
| OpenAi (modelName : jsstring) (modelClientApiKey : option jsstring).

(** [ConstructorParams] of the automation library, without [logger]. *)
Record ConstructorParams : Type := mkConfig {
  env : Environment;
  apiKey : option jsstring;
  projectId : option jsstring;
  domSettleTimeoutMs : number;
  browserbaseSessionCreateParams : option SessionCreateParams;
  localBrowserLaunchOptions : option LocalBrowserLaunchOptions;
  enableCaching : bool;
  browserbaseSessionID : option jsstring;
  useAPI : bool;
  model : ModelConfig
}.

(** [export let stagehandConfig], after the [if] that adds the model. *)
Definition stagehandConfig (W : World) : ConstructorParams :=
  let e := processEnv W in
  let hosted := truthy (BROWSERBASE_API_KEY e) && truthy (BROWSERBASE_PROJECT_ID e) in
  mkConfig
    (if hosted then BROWSERBASE else LOCAL)
    (BROWSERBASE_API_KEY e)
    (BROWSERBASE_PROJECT_ID e)
    (Num (lit "30000"))
    (if hosted then
       Some (mkSessionCreateParams
               (tpl (BROWSERBASE_PROJECT_ID e))
               (if truthy (CONTEXT_ID e) then CONTEXT_ID e else None))
     else None)
    (if truthy (LOCAL_CDP_URL e) then Some (mkLaunchOptions (LOCAL_CDP_URL e)) else None)
    true
    None
    false
    (if truthy (OPENROUTER_API_KEY e) then OpenRouter (llmClient_json W)
     else OpenAi (if truthy (OPENAI_MODEL_ID e) then tpl (OPENAI_MODEL_ID e)
                  else lit "gpt-4o-mini")
                 (OPENAI_API_KEY e)).

Definition environmentName (e : Environment) : jsstring :=
  match e with
  | BROWSERBASE => lit "BROWSERBASE"
  | LOCAL => lit "LOCAL"
  end.

Definition sessionCreateParamsJson (p : SessionCreateParams) : json :=
  object
    [ (lit "projectId", Some (JStr (scp_projectId p)));
      (lit "browserSettings",
       option_map (fun c => JObj [ (lit "context",
                                    JObj [ (lit "id", JStr c);
                                           (lit "persist", JBool true) ]) ])
         (scp_contextId p)) ].

(** The configuration as [JSON.stringify] sees it: the properties in the
    order of the object literal and of the spread, the undefined ones and
    the function [logger] left out. *)
Definition configJson (c : ConstructorParams) : json :=
  object
    ([ (lit "env", Some (JStr (environmentName (env c))));
       (lit "apiKey", option_map JStr (apiKey c));
       (lit "projectId", option_map JStr (projectId c));
       (lit "domSettleTimeoutMs", Some (JNum (domSettleTimeoutMs c)));
       (lit "browserbaseSessionCreateParams",
        option_map sessionCreateParamsJson (browserbaseSessionCreateParams c));
       (lit "localBrowserLaunchOptions",
        option_map (fun o => object [ (lit "cdpUrl", option_map JStr (cdpUrl o)) ])
          (localBrowserLaunchOptions c));
       (lit "enableCaching", Some (JBool (enableCaching c)));
       (lit "browserbaseSessionID", option_map JStr (browserbaseSessionID c));
       (lit "useAPI", Some (JBool (useAPI c))) ]
     ++ match model c with
        | OpenRouter client => [ (lit "llmClient", Some client) ]
        | OpenAi name key =>
            [ (lit "modelName", Some (JStr name));
              (lit "modelClientOptions",
               Some (object [ (lit "apiKey", option_map JStr key) ])) ]
        end).

(** [stagehandConfig.env === "LOCAL" && !stagehandConfig.localBrowserLaunchOptions?.cdpUrl] *)
Definition localWithoutCdpUrl (c : ConstructorParams) : bool :=
  match env c with
  | LOCAL =>
      negb (truthy (match localBrowserLaunchOptions c with
                    | Some o => cdpUrl o
                    | None => None
                    end))
  | BROWSERBASE => false
  end.

Definition cdpUrlMissingMessage : jsstring :=
  lit "Using a local browser without providing a CDP URL is not supported. Please provide a CDP URL using the LOCAL_CDP_URL environment variable."
  ++ nl ++ nl ++ lit "To launch your browser in " ++ dq ++ lit "debug" ++ dq
  ++ lit ", see our documentation." ++ nl ++ nl
  ++ lit "https://docs.stagehand.dev/examples/customize_browser#use-your-personal-browser".

(** The messages that tell an invalidated session. *)
Definition sessionInvalidated (err : thrown) : bool :=
  match err with
  | ErrorObj message =>
      includes message (lit "Target page, context or browser has been closed")
      || includes message (lit "Session expired")
      || includes message (lit "context destroyed")
  | Nullish _ | NonError _ _ => false
  end.

(** [stagehand = new Stagehand(stagehandConfig); await stagehand.init();
    return stagehand;] *)
Definition createAndInit (W : World) : M handle :=
  h <- gets constructed ;;
  modify (fun s => with_events (events s ++ [EvNew h])
                     (with_constructed (S h) (with_stagehand (Some h) s))) ;;
  call (EvInit h) (stagehand_init W h) ;;
  current <- gets stagehand ;;
  match current with
  | Some h' => ret h'
  | None => ret h
  end.

Definition ensureStagehand (W : World) (config : ConstructorParams) : M handle :=
  if localWithoutCdpUrl config then throw (ErrorObj cdpUrlMissingMessage)
  else
    try_catch
      (current <- gets stagehand ;;
       match current with
       | None => createAndInit W
       | Some h =>
           try_catch
             (call (EvProbe h) (page_probe W h) ;;
              ret h)
             (fun err =>
                if sessionInvalidated err then
                  log W (lit "Browser session expired, reinitializing Stagehand...") info ;;
                  createAndInit W
                else throw err)
       end)
      (fun err =>
         log W (lit "Failed to initialize/reinitialize Stagehand: " ++ errorMsg err) error ;;
         throw err).

(** [request.params] of a CallTool request. *)
Record CallToolParams : Type := mkParams {
  params_name : option jsstring;
  params_arguments : option ToolArgs
}.

(** What the handler of CallTool requests returns: a result envelope, or
    the object [{ error: { code, message } }]. *)
Inductive HandlerResult : Type :=
| Envelope (r : CallToolResult)
| ErrorObject (code : Z) (message : jsstring).

(** [TOOLS.find((t) => t.name === name)] is defined *)
Definition inRegistry (n : jsstring) : bool :=
  existsb (fun t => Js.eqb (name t) n) TOOLS.

Definition initFailureEnvelope (config : ConstructorParams) (err : thrown) : M CallToolResult :=
  logs <- gets operationLogsText ;;
  ret (mkResult
         [ Text (lit "Failed to initialize Stagehand: " ++ errorMsg err ++ lit "."
                 ++ nl ++ nl ++ lit "Config: " ++ stringify (configJson config) 2);
           Text logs ]
         true).

(** The body of the handler, inside its outer [try]. *)
Definition callToolBody (W : World) (config : ConstructorParams) (params : CallToolParams)
  : M HandlerResult :=
  logRequest W (lit "CallTool") ;;
  modify (with_operationLogs []) ;;
  (if negb (truthy (params_name params)) || negb (inRegistry (tpl (params_name params)))
   then throw (ErrorObj (lit "Invalid tool name: " ++ tpl (params_name params)))
   else ret tt) ;;
  ensured <- try_catch
               (h <- ensureStagehand W config ;;
                modify (with_stagehand (Some h)) ;;
                ret (inl h))
               (fun err => r <- initFailureEnvelope config err ;; ret (inr r)) ;;
  match ensured with
  | inr r => ret (Envelope r)
  | inl h =>
      result <- handleToolCall W (tpl (params_name params))
                  (match params_arguments params with
                   | Some a => a
                   | None => noArgs
                   end) h ;;
      sanitizedResult <- (fun s => match sanitizeRoundTrip W result with
                                   | Returns r => (Ok r, s)
                                   | Throws e => (Err e, s)
                                   end) ;;
      logResponse W (lit "CallTool") ;;
      ret (Envelope sanitizedResult)
  end.

(** The handler registered for [CallToolRequestSchema]: the dispatcher. *)
Definition callTool (W : World) (config : ConstructorParams) (params : CallToolParams)
  (s : State) : HandlerResult * State :=
  match callToolBody W config params s with
  | (Ok r, s') => (r, s')
  | (Err err, s') =>
      (ErrorObject (-32603)%Z (lit "Internal error: " ++ errorMsg err), s')
  end.

End Server.

(* ================================================================= *)
(** ** httpStaticServer.ts *)

Module HttpStatic.

(** [fs.readdir] and [fs.readFile] as the request listener sees them. *)
Record FileSystem : Type := mkFileSystem {
  readdir : jsstring -> outcome (list jsstring);
  readFile : jsstring -> outcome jsstring
}.

Record Response : Type := mkResponse {
  status : N;
  contentType : option jsstring;
  body : jsstring
}.

(** The file system reads that one request starts. *)
Inductive FsRead : Type :=
| ReadDir (path : jsstring)
| ReadFile (path : jsstring).

(** *** [encodeURIComponent] *)

Definition uriUnreserved (c : N) : bool :=
  is_alpha c || is_digit c
  || existsb (N.eqb c) (lit "-_.!~*'()").

Definition percent (b : N) : jsstring :=
  [ch "%"; hexdigit_upper (b / 16); hexdigit_upper (b mod 16)]%N.

Definition utf8 (cp : N) : list N :=
  (if cp <? 128 then [cp]
   else if cp <? 2048 then [192 + cp / 64; 128 + cp mod 64]
   else if cp <? 65536 then
     [224 + cp / 4096; 128 + (cp / 64) mod 64; 128 + cp mod 64]
   else
     [240 + cp / 262144; 128 + (cp / 4096) mod 64;
      128 + (cp / 64) mod 64; 128 + cp mod 64])%N.

Definition percentEncode (cp : N) : jsstring := flat_map percent (utf8 cp).

Definition uriMalformed : thrown := ErrorObj (lit "URI malformed").

Fixpoint encodeURIComponent (s : jsstring) : outcome jsstring :=
  let continue_ (prefix : jsstring) (o : outcome jsstring) :=
    match o with
    | Returns r => Returns (prefix ++ r)
    | Throws e => Throws e
    end in
  match s with
  | [] => Returns []
  | c :: t =>
      if uriUnreserved c then continue_ [c] (encodeURIComponent t)
      else if is_high_surrogate c then
        match t with
        | lo :: t' =>
            if is_low_surrogate lo then
              continue_ (percentEncode (65536 + (c - 55296) * 1024 + (lo - 56320))%N)
                (encodeURIComponent t')
            else Throws uriMalformed
        | [] => Throws uriMalformed
        end
      else if is_low_surrogate c then Throws uriMalformed
      else continue_ (percentEncode c) (encodeURIComponent t)
  end.

(** *** The request listener *)

Definition plain (code : N) (text : jsstring) : Response := mkResponse code None text.

Definition html (data : jsstring) : Response := mkResponse 200 (Some (lit "text/html")) data.

(** [`<li><a href="/tmp/${encodeURIComponent(f)}">${f}</a></li>`] *)
Definition link (f : jsstring) : outcome jsstring :=
  match encodeURIComponent f with
  | Returns e =>
      Returns (lit "<li><a href=" ++ dq ++ lit "/tmp/" ++ e ++ dq ++ lit ">" ++ f
               ++ lit "</a></li>")
  | Throws e => Throws e
  end.

Fixpoint mapLinks (files : list jsstring) : outcome (list jsstring) :=
  match files with
  | [] => Returns []
  | f :: rest =>
      match link f with
      | Throws e => Throws e
      | Returns l =>
          match mapLinks rest with
          | Throws e => Throws e
          | Returns ls => Returns (l :: ls)
          end
      end
  end.

Definition notHidden (f : jsstring) : bool := negb (startsWith f (lit ".")).

Definition listingPage (links : jsstring) : jsstring :=
  lit "<!DOCTYPE html><html><head><title>tmp Directory Listing</title></head><body><h1>Files in /tmp/</h1><ul>"
  ++ links ++ lit "</ul></body></html>".

(** The callback of [fs.readdir]; an exception thrown in it is caught by
    nobody. *)
Definition directoryListing (o : outcome (list jsstring)) : outcome Response :=
  match o with
  | Throws _ => Returns (plain 500 (lit "Failed to read directory"))
  | Returns files =>
      match mapLinks (filter notHidden files) with
      | Throws e => Throws e
      | Returns links => Returns (html (listingPage (Js.join nl links)))
      end
  end.

(** The callback of [fs.readFile]. *)
Definition fileResponse (o : outcome jsstring) : Response :=
  match o with
  | Throws _ => plain 404 (lit "Not Found")
  | Returns data => html data
  end.

(** The listener passed to [http.createServer], on [req.url]: the file
    system reads it starts and the response (or the uncaught exception). *)
Definition requestListener (TMP_DIR : jsstring) (fs : FileSystem) (url : option jsstring)
  : list FsRead * outcome Response :=
  match url with
  | None | Some [] => ([], Returns (plain 400 (lit "Bad Request")))
  | Some ((_ :: _) as u) =>
      if negb (startsWith u (lit "/tmp/")) then
        ([], Returns (plain 404 (lit "Not Found")))
      else if Js.eqb u (lit "/tmp/") || Js.eqb u (lit "/tmp") then
        ([ReadDir TMP_DIR], directoryListing (readdir fs TMP_DIR))
      else
        let filePath := Path.join TMP_DIR (replaceFirst u (lit "/tmp/") []) in
        if negb (startsWith filePath TMP_DIR) then
          ([], Returns (plain 403 (lit "Forbidden")))
        else
          ([ReadFile filePath], Returns (fileResponse (readFile fs filePath)))
  end.

(** A normalized absolute path lies inside the directory [dir] when it is
    [dir] itself or continues [dir] after a separator. *)
Definition insideDirectory (dir path : jsstring) : bool :=
  Js.eqb path dir || startsWith path (dir ++ lit "/").

End HttpStatic.

(* ================================================================= *)
(** ** The clean-up of [stagehand_extract], as a specification

    The same pass described line by line, without the functions of the
    embedding: what it is for a line to be trimmed, to be dropped and to be
    decoded. *)

Module ExtractSpec.

Import Tools.

Definition all (p : N -> bool) (s : jsstring) : Prop := Forall (fun c => p c = true) s.

(** [line] contains the text [needle]. *)
Definition contains (needle line : jsstring) : Prop :=
  exists before after, line = before ++ needle ++ after.

(** [t] is [raw] without its leading and trailing white space. *)
Definition Trimmed (raw t : jsstring) : Prop :=
  exists l r,
    raw = l ++ t ++ r /\ all is_space l /\ all is_space r
    /\ (forall c rest, t = c :: rest -> is_space c = false)
    /\ (forall front c, t = front ++ [c] -> is_space c = false).

(** A line that starts like [.className {] *)
Definition ClassRuleStart (line : jsstring) : Prop :=
  exists cls ws rest,
    line = lit "." ++ cls ++ ws ++ lit "{" ++ rest
    /\ cls <> [] /\ all classNameChar cls /\ all is_space ws.

(** A line that is one declaration [property: value;] *)
Definition SingleDeclaration (line : jsstring) : Prop :=
  exists prop val,
    line = prop ++ lit ":" ++ val ++ lit ";"
    /\ prop <> [] /\ all propertyChar prop
    /\ val <> [] /\ all valueChar val.

(** The lines that the pass drops. *)
Definition Dropped (line : jsstring) : Prop :=
  line = []
  \/ (contains (lit "{") line /\ contains (lit "}") line)
  \/ contains (lit "@keyframes") line
  \/ ClassRuleStart line
  \/ SingleDeclaration line.

(** [s] starts with an escape sequence [\uXXXX] that denotes [code]. *)
Definition EscapeAt (s : jsstring) (code : N) (rest : jsstring) : Prop :=
  exists a b c d,
    s = ch "\" :: ch "u" :: a :: b :: c :: d :: rest
    /\ fromHex4 a b c d = Some code.

(** [out] is [s] with its escape sequences, taken from the left, replaced
    by the code units they denote. *)
Inductive Decoded : jsstring -> jsstring -> Prop :=
| Decoded_nil : Decoded [] []
| Decoded_escape : forall s code rest out,
    EscapeAt s code rest -> Decoded rest out -> Decoded s (code :: out)
| Decoded_plain : forall c t out,
    (forall code rest, ~ EscapeAt (c :: t) code rest) ->
    Decoded t out -> Decoded (c :: t) (c :: out).

(** The pass over the lines of the page text. *)
Inductive Cleaned : list jsstring -> list jsstring -> Prop :=
| Cleaned_nil : Cleaned [] []
| Cleaned_drop : forall raw t rest out,
    Trimmed raw t -> Dropped t -> Cleaned rest out -> Cleaned (raw :: rest) out
| Cleaned_keep : forall raw t d rest out,
    Trimmed raw t -> ~ Dropped t -> Decoded t d -> Cleaned rest out ->
    Cleaned (raw :: rest) (d :: out).

(** The pass with the rules of the specification only, which has no rule
    for empty lines. *)
Definition keepLineAsSpecified (line : jsstring) : bool :=
  negb ((includes line (lit "{") && includes line (lit "}"))
        || includes line (lit "@keyframes")
        || Regex.matchesPrefix cssClassRule line
        || Regex.matchesWhole cssDeclaration line).

Definition cleanupAsSpecified (bodyText : jsstring) : jsstring :=
  Js.join nl (map decodeUnicodeEscapes
                (filter keepLineAsSpecified (map trim (split 10%N bodyText)))).

End ExtractSpec.

(* ================================================================= *)
(** ** What "up to five similar elements" means

    Written from the words of the specification: the elements shown are
    the first five elements of the page, in document order, that share the
    leading tag-name token of the selector, or all of them when there are
    fewer. *)

Module GetHtmlSpec.

Import Tools.

(** [shown] holds the first [n] elements of [l] that satisfy [P], in the
    order of [l], or all of them when there are fewer than [n]. *)
Inductive FirstMatches {A : Type} (P : A -> Prop) : nat -> list A -> list A -> Prop :=
| FirstMatches_enough : forall l, FirstMatches P 0 l []
| FirstMatches_end : forall n, FirstMatches P n [] []
| FirstMatches_take : forall n x l shown,
    P x -> FirstMatches P n l shown -> FirstMatches P (S n) (x :: l) (x :: shown)
| FirstMatches_skip : forall n x l shown,
    ~ P x -> FirstMatches P (S n) l shown -> FirstMatches P (S n) (x :: l) shown.

(** The element has, up to case, the leading token of the selector as its
    tag name. *)
Definition sharesLeadingToken (doc : Document) (sel : jsstring) (el : Element) : Prop :=
  toLowerCase doc (tagName el) = toLowerCase doc (leadingToken sel).

(** [xs.join(", ") || "None found"] for the elements [shown]. *)
Definition shownText (doc : Document) (shown : list Element) : jsstring :=
  match Js.join (lit ", ") (map (renderSimilar doc) shown) with
  | [] => lit "None found"
  | (_ :: _) as s => s
  end.

End GetHtmlSpec.

(* ================================================================= *)
(** ** Invariants of the session state *)

Module Session.

Import Tools Server.

(** The handle in [stagehand], when there is one, is an object that was
    constructed, and it was constructed under a usable configuration. *)
Definition wellFormed (config : ConstructorParams) (s : State) : Prop :=
  forall h, stagehand s = Some h ->
            h < constructed s /\ localWithoutCdpUrl config = false.

(** The states that the server reaches by handling CallTool requests, one
    after the other, each in the world of its time. *)
Inductive reachable (config : ConstructorParams) : State -> Prop :=
| reachable_initial : reachable config initialState
| reachable_call : forall W s params,
    reachable config s ->
    reachable config (snd (callTool W config params s)).

End Session.

(* ================================================================= *)
(** ** Concrete environments, used to run the embedding *)

Module Examples.

Import Tools Server HttpStatic.

Definition emptyEnv : ProcessEnv :=
  mkProcessEnv None None None None None None None None.

Definition hostedEnv : ProcessEnv :=
  mkProcessEnv (Some (lit "bb_live_key")) (Some (lit "proj_1")) None None None None
    (Some (lit "sk-openai")) None.

(** [toLowerCase] on the strings of the examples, which hold no letter
    outside ASCII: the letters A to Z are lowered. *)
Definition lowerAscii (s : jsstring) : jsstring :=
  map (fun c => if is_upper c then (c + 32)%N else c) s.

(** The TypeError of V8 for the read of [message] on [null] or
    [undefined]. *)
Definition v8TypeErrorMessage (v : nullish) : jsstring :=
  lit "Cannot read properties of "
  ++ match v with
     | JsNull => lit "null"
     | JsUndefined => lit "undefined"
     end
  ++ lit " (reading 'message')".

Definition samplePage : Document :=
  mkDocument (lit "Example") (lit "https://example.com/")
    (lit "<html><body><div id=" ++ dq ++ lit "a" ++ dq ++ lit "></div></body></html>")
    [ mkElement (lit "HTML") [] [] (lit "<html></html>");
      mkElement (lit "BODY") [] [] (lit "<body></body>");
      mkElement (lit "DIV") (lit "a") (lit "box") (lit "<div></div>") ]
    (fun _ => Returns None)
    (fun _ => Returns None)
    lowerAscii.

(** A world in which every call into the libraries succeeds. *)
Definition calmWorld (e : ProcessEnv) (bodyText : jsstring) : World :=
  mkWorld
    (fun _ => Returns tt)
    (fun _ => Returns tt)
    (fun _ _ => Returns tt)
    (fun _ => Some (lit "sess_1"))
    (fun _ _ _ => Returns tt)
    (fun _ => Returns bodyText)
    (fun _ _ => Returns (JArr []))
    (fun _ => Returns samplePage)
    (fun _ => Returns (lit "iVBORw0KGgo="))
    None
    (lit "/srv/stagehand/tmp")
    (Returns tt)
    (fun _ _ => Returns tt)
    1700000000000%N
    (lit "2024-01-01T00:00:00.000Z")
    (lit "a1b2c3d4e5f6")
    e
    (JObj [])
    (fun m _ => m)
    (fun t => lit "REQUEST: " ++ t)
    (fun t => lit "RESPONSE: " ++ t)
    (fun r => Returns r)
    v8TypeErrorMessage.

(** The same world, except that the probe of a session fails with [err]
    and the text of the page cannot be read. *)
Definition brokenWorld (e : ProcessEnv) (err : thrown) : World :=
  let W := calmWorld e [] in
  mkWorld
    (stagehand_init W)
    (fun _ => Throws err)
    (page_goto W)
    (sessionID W)
    (page_act W)
    (fun _ => Throws err)
    (page_observe W)
    (page_document W)
    (page_screenshot W)
    (server_notification W)
    (TMP_DIR W)
    (fs_mkdir W)
    (fs_writeFile W)
    (date_now W)
    (date_iso W)
    (random_hex W)
    (processEnv W)
    (llmClient_json W)
    (formatLog W)
    (requestLogMessage W)
    (responseLogMessage W)
    (sanitizeRoundTrip W)
    (typeErrorMessage W).

(** A page text: a declaration, an empty line and a line with an escape. *)
Definition samplePageText : jsstring :=
  lit "  margin: 10px;" ++ nl ++ nl ++ lit " Hello\u0021 world ".

(** A state in which the session [0] is live and the log holds a line of
    an earlier call. *)
Definition liveState : State :=
  mkState (Some 0) 1 [lit "line of an earlier call"] [] [] [EvNew 0; EvInit 0].

(** A process that has [BROWSERBASE_API_KEY] and [OPENAI_API_KEY] but
    neither [BROWSERBASE_PROJECT_ID] nor [LOCAL_CDP_URL]. *)
Definition keysOnlyEnv (browserbaseKey openAiKey : jsstring) : ProcessEnv :=
  mkProcessEnv (Some browserbaseKey) None None None None None (Some openAiKey) None.

Definition navigateExample : CallToolParams :=
  mkParams (Some (lit "stagehand_navigate"))
    (Some (mkArgs (Some (lit "https://example.com/")) None None None None)).

(** A file system with one file beside the artifact directory. *)
Definition siblingFs : FileSystem :=
  mkFileSystem
    (fun _ => Returns [lit "page.html"; lit ".gitkeep"])
    (fun p => if Js.eqb p (lit "/srv/stagehand/tmp-backup/secret.html")
              then Returns (lit "contents of a file outside the artifact directory")
              else if Js.eqb p (lit "/srv/stagehand/tmp/page.html")
              then Returns (lit "<html></html>")
              else Throws (ErrorObj (lit "ENOENT"))).

End Examples.

(* ================================================================= *)
(** ** Reading a JS [Map], as the map of screenshots is *)

Module Resources.

(** [map.get(k)] on a [Map] kept in insertion order. *)
Fixpoint mapGet (k : jsstring) (m : list (jsstring * jsstring)) : option jsstring :=
  match m with
  | [] => None
  | (k', v') :: rest => if Js.eqb k' k then Some v' else mapGet k rest
  end.

(** The keys of a [Map], in insertion order. *)
Definition mapKeys (m : list (jsstring * jsstring)) : list jsstring := map fst m.

End Resources.

(* ================================================================= *)
(** ** The calls that a tool may make *)

Module ToolEvents.


End ToolEvents.

(* ================================================================= *)
(** ** httpStaticServer.ts: [cleanTmpDirectory] *)

Module Startup.

Import HttpStatic.

(** The synchronous calls of [fs] that [cleanTmpDirectory] makes. *)
Record SyncFs : Type := mkSyncFs {
  existsSync : jsstring -> bool;
  mkdirSync : jsstring -> outcome unit;
  readdirSync : jsstring -> outcome (list jsstring);
  unlinkSync : jsstring -> outcome unit
}.

(** The calls, as they are made. *)
Inductive SyncCall : Type :=
| CallMkdir (path : jsstring)
| CallReaddir (path : jsstring)
| CallUnlink (path : jsstring).

(** The [for] loop over the entries: hidden entries are skipped; an
    [unlinkSync] that throws leaves the loop, to the [catch]. *)
Fixpoint unlinkEntries (fs : SyncFs) (directory : jsstring) (files : list jsstring)
  : list SyncCall :=
  match files with
  | [] => []
  | file :: rest =>
      if startsWith file (lit ".") then unlinkEntries fs directory rest
      else
        let filePath := Path.join directory file in
        match unlinkSync fs filePath with
        | Returns _ => CallUnlink filePath :: unlinkEntries fs directory rest
        | Throws _ => [CallUnlink filePath]
        end
  end.

(** [cleanTmpDirectory(directory)]: the calls it makes, and whether it
    returns or throws. *)
Definition cleanTmpDirectory (fs : SyncFs) (directory : jsstring)
  : list SyncCall * outcome unit :=
  if negb (existsSync fs directory) then
    ([CallMkdir directory], mkdirSync fs directory)
  else
    match readdirSync fs directory with
    | Throws _ => ([CallReaddir directory], Returns tt)
    | Returns files =>
        (CallReaddir directory :: unlinkEntries fs directory files, Returns tt)
    end.

End Startup.

(* ================================================================= *)
(** ** Paths as [path.resolve] returns them, and plain file names *)

Module PathSpec.

(** A path segment that [path.normalize] keeps as it is. *)
Definition plainSegment (seg : jsstring) : Prop :=
  seg <> [] /\ ~ In (ch "/") seg /\ seg <> lit "." /\ seg <> lit "..".

(** An absolute path, not the root, without empty, [.] or [..] segments
    and without a trailing separator. *)
Definition resolvedPath (p : jsstring) : Prop :=
  exists segs,
    segs <> [] /\ Forall plainSegment segs /\ p = lit "/" ++ Js.join (lit "/") segs.

End PathSpec.

(* ================================================================= *)
(** ** Characters that cannot end or break an attribute value or a path *)

Module ListingSpec.

(** Not a double quote, [<], [>], [&], a space, [/], [#] or [?]. *)
Definition attributeSafe (c : N) : bool :=
  negb (existsb (N.eqb c) (dq ++ lit "<>& /#?")).

End ListingSpec.

(* ================================================================= *)
(** ** More concrete environments *)

Module MoreExamples.

Import Tools Server HttpStatic Startup Examples.

(** A world in which the initialization of a session fails. *)
Definition initFailsWorld (e : ProcessEnv) (err : thrown) : World :=
  let W := calmWorld e [] in
  mkWorld
    (fun _ => Throws err)
    (page_probe W)
    (page_goto W)
    (sessionID W)
    (page_act W)
    (page_innerText W)
    (page_observe W)
    (page_document W)
    (page_screenshot W)
    (server_notification W)
    (TMP_DIR W)
    (fs_mkdir W)
    (fs_writeFile W)
    (date_now W)
    (date_iso W)
    (random_hex W)
    (processEnv W)
    (llmClient_json W)
    (formatLog W)
    (requestLogMessage W)
    (responseLogMessage W)
    (sanitizeRoundTrip W)
    (typeErrorMessage W).

(** A world in which the page of a session is the given outcome and the
    file system answers as given. *)
Definition pageWorld (doc : outcome Document) (mkdir : outcome unit)
  (writeFile : jsstring -> jsstring -> outcome unit) : World :=
  let W := calmWorld hostedEnv [] in
  mkWorld
    (stagehand_init W)
    (page_probe W)
    (page_goto W)
    (sessionID W)
    (page_act W)
    (page_innerText W)
    (page_observe W)
    (fun _ => doc)
    (page_screenshot W)
    (server_notification W)
    (TMP_DIR W)
    mkdir
    writeFile
    (date_now W)
    (date_iso W)
    (random_hex W)
    (processEnv W)
    (llmClient_json W)
    (formatLog W)
    (requestLogMessage W)
    (responseLogMessage W)
    (sanitizeRoundTrip W)
    (typeErrorMessage W).

(** A world in which every navigation fails. *)
Definition gotoFailsWorld (err : thrown) : World :=
  let W := calmWorld hostedEnv [] in
  mkWorld
    (stagehand_init W)
    (page_probe W)
    (fun _ _ => Throws err)
    (sessionID W)
    (page_act W)
    (page_innerText W)
    (page_observe W)
    (page_document W)
    (page_screenshot W)
    (server_notification W)
    (TMP_DIR W)
    (fs_mkdir W)
    (fs_writeFile W)
    (date_now W)
    (date_iso W)
    (random_hex W)
    (processEnv W)
    (llmClient_json W)
    (formatLog W)
    (requestLogMessage W)
    (responseLogMessage W)
    (sanitizeRoundTrip W)
    (typeErrorMessage W).

Definition navigateArgs (u : jsstring) : ToolArgs :=
  mkArgs (Some u) None None None None.

(** A page on which every selector is refused. *)
Definition strictPage : Document :=
  mkDocument (title samplePage) (location_href samplePage)
    (documentElement_outerHTML samplePage) (allElements samplePage)
    (fun _ => Throws (ErrorObj (lit "not a valid XPath expression")))
    (fun _ => Throws (ErrorObj (lit "not a valid selector")))
    (toLowerCase samplePage).

(** A directory with two artifacts and a hidden entry; the second artifact
    cannot be removed. *)
Definition startupFs : SyncFs :=
  mkSyncFs
    (fun _ => true)
    (fun _ => Returns tt)
    (fun _ => Returns [lit ".gitkeep"; lit "a.html"; lit "b.html"; lit "c.html"])
    (fun p => if Js.eqb p (lit "/srv/stagehand/tmp/b.html")
              then Throws (ErrorObj (lit "EPERM"))
              else Returns tt).

(** The same directory, where every entry can be removed. *)
Definition tidyFs : SyncFs :=
  mkSyncFs
    (fun _ => true)
    (fun _ => Returns tt)
    (fun _ => Returns [lit ".gitkeep"; lit "a.html"; lit "b.html"])
    (fun _ => Returns tt).

(** A file system that holds what was written at one path. *)
Definition storedFs (path data : jsstring) : FileSystem :=
  mkFileSystem
    (fun _ => Returns [])
    (fun p => if Js.eqb p path then Returns data
              else Throws (ErrorObj (lit "ENOENT"))).

(** A directory with the given entries and no readable file. *)
Definition listingFs (files : list jsstring) : FileSystem :=
  mkFileSystem
    (fun _ => Returns files)
    (fun _ => Throws (ErrorObj (lit "ENOENT"))).

Definition screenshotExample : CallToolParams :=
  mkParams (Some (lit "screenshot")) None.

End MoreExamples.

(* ================================================================= *)
(** * Properties of the embedding *)

Unset Implicit Arguments.
Import Regex Tools Server HttpStatic ExtractSpec GetHtmlSpec Session Examples.

(** ** Strings *)

Lemma eqb_eq : forall a b, Js.eqb a b = true <-> a = b.
Proof.
  induction a as [|x a IH]; destruct b as [|y b]; simpl; split; intro H;
    try reflexivity; try discriminate.
  - apply andb_true_iff in H. destruct H as [Hx Hab].
    apply N.eqb_eq in Hx. apply IH in Hab. congruence.
  - injection H as -> ->. rewrite N.eqb_refl. simpl. apply IH. reflexivity.
Qed.

Lemma eqb_refl : forall a, Js.eqb a a = true.
Proof. intro a. apply eqb_eq. reflexivity. Qed.

Lemma startsWith_spec : forall p s,
  startsWith s p = true <-> exists r, s = p ++ r.
Proof.
  induction p as [|y p IH]; intros [|x s]; simpl.
  - split; [intros _; exists []; reflexivity | reflexivity].
  - split; [intros _; exists (x :: s); reflexivity | reflexivity].
  - split; [discriminate | intros [r Hr]; discriminate].
  - rewrite andb_true_iff, N.eqb_eq, IH. split.
    + intros [-> [r ->]]. exists r. reflexivity.
    + intros [r Hr]. injection Hr as -> ->. split; [reflexivity | exists r; reflexivity].
Qed.

Lemma startsWith_app : forall p r, startsWith (p ++ r) p = true.
Proof. intros p r. apply startsWith_spec. exists r. reflexivity. Qed.

Lemma includes_spec : forall needle s,
  includes s needle = true <-> exists a b, s = a ++ needle ++ b.
Proof.
  intros needle. induction s as [|c s IH].
  - cbn [includes]. rewrite orb_false_r, startsWith_spec. split.
    + intros [r Hr]. exists [], r. exact Hr.
    + intros [a [b Hab]]. destruct a as [|x a]; [exists b; exact Hab | discriminate].
  - cbn [includes]. rewrite orb_true_iff, startsWith_spec, IH. split.
    + intros [[r Hr] | [a [b Hab]]].
      * exists [], r. exact Hr.
      * exists (c :: a), b. rewrite Hab. reflexivity.
    + intros [a [b Hab]]. destruct a as [|x a].
      * left. exists b. exact Hab.
      * right. injection Hab as -> ->. exists a, b. reflexivity.
Qed.

Lemma includes_refl : forall s, includes s s = true.
Proof. intro s. apply includes_spec. exists [], []. rewrite app_nil_r. reflexivity. Qed.

Lemma includes_app_l : forall a b n, includes a n = true -> includes (a ++ b) n = true.
Proof.
  intros a b n H. apply includes_spec in H. destruct H as [x [y ->]].
  apply includes_spec. exists x, (y ++ b). rewrite <- !app_assoc. reflexivity.
Qed.

Lemma includes_app_r : forall a b n, includes b n = true -> includes (a ++ b) n = true.
Proof.
  intros a b n H. apply includes_spec in H. destruct H as [x [y ->]].
  apply includes_spec. exists (a ++ x), y. rewrite <- !app_assoc. reflexivity.
Qed.

Lemma includes_join : forall sep xs x n,
  In x xs -> includes x n = true -> includes (Js.join sep xs) n = true.
Proof.
  intros sep xs x n. induction xs as [|y ys IH]; intros Hin Hx; [destruct Hin|].
  destruct ys as [|z zs].
  - destruct Hin as [-> | []]. exact Hx.
  - change (Js.join sep (y :: z :: zs)) with (y ++ sep ++ Js.join sep (z :: zs)).
    destruct Hin as [-> | Hin].
    + apply includes_app_l. exact Hx.
    + apply includes_app_r, includes_app_r. apply IH; assumption.
Qed.

(** [split] and [join] are inverse, and no line holds the separator. *)
Lemma split_cons : forall sep s, exists l ls, split sep s = l :: ls.
Proof.
  intros sep s. destruct s as [|c t]; simpl.
  - eauto.
  - destruct (N.eqb c sep); [eauto|]. destruct (split sep t); eauto.
Qed.

Lemma join_split : forall sep s, Js.join [sep] (split sep s) = s.
Proof.
  intros sep. induction s as [|c t IH]; [reflexivity|].
  simpl. destruct (N.eqb c sep) eqn:E.
  - apply N.eqb_eq in E. subst c.
    destruct (split_cons sep t) as [l [ls Hs]]. rewrite Hs in *.
    change (Js.join [sep] ([] :: l :: ls)) with ([] ++ [sep] ++ Js.join [sep] (l :: ls)).
    rewrite IH. reflexivity.
  - destruct (split_cons sep t) as [l [ls Hs]]. rewrite Hs in *.
    destruct ls as [|l2 ls].
    + simpl in *. congruence.
    + change (Js.join [sep] ((c :: l) :: l2 :: ls))
        with (c :: (l ++ [sep] ++ Js.join [sep] (l2 :: ls))).
      change (Js.join [sep] (l :: l2 :: ls))
        with (l ++ [sep] ++ Js.join [sep] (l2 :: ls)) in IH.
      rewrite IH. reflexivity.
Qed.

Lemma split_no_separator : forall sep s, Forall (fun l => ~ In sep l) (split sep s).
Proof.
  intros sep. induction s as [|c t IH]; simpl.
  - constructor; [intros [] | constructor].
  - destruct (N.eqb c sep) eqn:E.
    + constructor; [intros [] | exact IH].
    + destruct (split sep t) as [|l ls]; [constructor; [|constructor]|].
      * intros [H | []]. subst. rewrite N.eqb_refl in E. discriminate.
      * inversion IH as [|? ? Hl Hls]; subst. constructor; [|exact Hls].
        intros [H | H]; [subst; rewrite N.eqb_refl in E; discriminate | exact (Hl H)].
Qed.

(** A string with the given lines has no other decomposition into lines. *)
Lemma join_lines_unique : forall sep ls1 ls2,
  ls1 <> [] -> ls2 <> [] ->
  Forall (fun l => ~ In sep l) ls1 -> Forall (fun l => ~ In sep l) ls2 ->
  Js.join [sep] ls1 = Js.join [sep] ls2 -> ls1 = ls2.
Proof.
  intros sep. 
  assert (Hhead : forall (a b : jsstring) x y, ~ In sep a -> ~ In sep b ->
            a ++ sep :: x = b ++ sep :: y -> a = b /\ x = y).
  { induction a as [|c a IH]; intros [|d b] x y Ha Hb H; simpl in H.
    - injection H as ->. auto.
    - injection H as <- _. exfalso. apply Hb. left. reflexivity.
    - injection H as -> _. exfalso. apply Ha. left. reflexivity.
    - injection H as -> H. destruct (IH b x y) as [-> ->]; auto.
      + intro; apply Ha; right; assumption.
      + intro; apply Hb; right; assumption. }
  assert (Hlast : forall (a b : jsstring) x, ~ In sep a -> ~ In sep b ->
            a = b ++ sep :: x -> False).
  { intros a b x Ha _ ->. apply Ha. apply in_or_app. right. left. reflexivity. }
  induction ls1 as [|a r1 IH]; intros ls2 N1 N2 F1 F2 H; [congruence|].
  destruct ls2 as [|b r2]; [congruence|].
  inversion F1 as [|? ? Ha Fr1]; inversion F2 as [|? ? Hb Fr2]; subst.
  destruct r1 as [|a2 r1], r2 as [|b2 r2].
  - simpl in H. congruence.
  - change (a = b ++ sep :: Js.join [sep] (b2 :: r2)) in H.
    exfalso. eapply (Hlast a b); eauto.
  - change (a ++ sep :: Js.join [sep] (a2 :: r1) = b) in H.
    exfalso. symmetry in H. eapply (Hlast b a); eauto.
  - change (a ++ sep :: Js.join [sep] (a2 :: r1) = b ++ sep :: Js.join [sep] (b2 :: r2)) in H.
    apply Hhead in H; auto. destruct H as [-> H].
    f_equal. apply IH; auto; discriminate.
Qed.

(** ** [trim] *)

Lemma trimStart_spec : forall s,
  exists l, s = l ++ trimStart s /\ all is_space l
            /\ (forall c rest, trimStart s = c :: rest -> is_space c = false).
Proof.
  induction s as [|c t IH].
  - exists []. repeat split; [constructor | discriminate].
  - simpl. destruct (is_space c) eqn:E.
    + destruct IH as [l [Hs [Hl Hhead]]]. exists (c :: l). repeat split.
      * simpl. congruence.
      * constructor; assumption.
      * exact Hhead.
    + exists []. repeat split; [constructor|].
      intros c' rest H. injection H as <- _. exact E.
Qed.

Lemma trimStart_spaces : forall l s, all is_space l -> trimStart (l ++ s) = trimStart s.
Proof.
  induction l as [|c l IH]; intros s H; [reflexivity|].
  inversion H as [|? ? Hc Hl]; subst. simpl. rewrite Hc. apply IH. exact Hl.
Qed.

Lemma trimStart_fixed : forall s,
  (forall c rest, s = c :: rest -> is_space c = false) -> trimStart s = s.
Proof.
  intros [|c t] H; [reflexivity|]. simpl. rewrite (H c t eq_refl). reflexivity.
Qed.

Lemma all_rev : forall p s, all p s -> all p (rev s).
Proof. intros p s H. apply Forall_rev. exact H. Qed.

Lemma trim_Trimmed : forall raw, Trimmed raw (trim raw).
Proof.
  intro raw. unfold trim, trimEnd.
  destruct (trimStart_spec raw) as [l [Hraw [Hl Hhead]]].
  destruct (trimStart_spec (rev (trimStart raw))) as [r [Hrev [Hr Hlast]]].
  set (t := rev (trimStart (rev (trimStart raw)))) in *.
  assert (Ht1 : trimStart raw = t ++ rev r).
  { rewrite <- (rev_involutive (trimStart raw)), Hrev, rev_app_distr. reflexivity. }
  exists l, (rev r). repeat split.
  - rewrite <- Ht1. exact Hraw.
  - exact Hl.
  - apply all_rev. exact Hr.
  - intros c rest Ht. apply (Hhead c (rest ++ rev r)). rewrite Ht1, Ht. reflexivity.
  - intros front c Ht. apply (Hlast c (rev front)).
    unfold t in Ht. apply (f_equal (@rev N)) in Ht.
    rewrite rev_involutive, rev_app_distr in Ht. exact Ht.
Qed.

Lemma Trimmed_trim : forall raw t, Trimmed raw t -> t = trim raw.
Proof.
  intros raw t [l [r [-> [Hl [Hr [Hhead Hlast]]]]]].
  unfold trim. rewrite trimStart_spaces by exact Hl.
  destruct t as [|c rest].
  - simpl. destruct (trimStart_spec r) as [l' [Hr' [_ Hh]]].
    destruct (trimStart r) as [|x xs] eqn:E; [reflexivity|].
    exfalso. pose proof (Hh x xs eq_refl) as Hx.
    assert (Hin : In x r). { rewrite Hr'. apply in_or_app. right. left. reflexivity. }
    unfold all in Hr. rewrite Forall_forall in Hr. rewrite (Hr x Hin) in Hx. discriminate.
  - rewrite trimStart_fixed.
    2:{ intros c' rest' H. injection H as <- _. apply (Hhead c rest eq_refl). }
    unfold trimEnd. rewrite rev_app_distr, trimStart_spaces by (apply all_rev; exact Hr).
    rewrite trimStart_fixed; [symmetry; apply rev_involutive|].
    intros c' rest' H. apply (Hlast (rev rest') c').
    rewrite <- (rev_involutive (c :: rest)), H. reflexivity.
Qed.

(** ** Regular expressions: the matcher decides the language *)

Lemma nullable_lang : forall r, nullable r = true <-> lang r [].
Proof.
  induction r as [| |p|a IHa b IHb|a IHa b IHb|a IHa]; simpl; split; intro H;
    try discriminate; try (constructor; fail); try reflexivity.
  - inversion H.
  - inversion H.
  - apply andb_true_iff in H. destruct H as [Ha Hb].
    change (@nil N) with (@nil N ++ []). constructor; [apply IHa | apply IHb]; assumption.
  - inversion H; subst.
    match goal with Heq : _ ++ _ = [] |- _ =>
      apply app_eq_nil in Heq; destruct Heq as [-> ->] end.
    apply andb_true_iff. split; [apply IHa | apply IHb]; assumption.
  - apply orb_true_iff in H. destruct H as [H | H];
      [apply L_alt_l, IHa | apply L_alt_r, IHb]; assumption.
  - apply orb_true_iff. inversion H; subst; [left; apply IHa | right; apply IHb]; assumption.
Qed.

Lemma lang_cat : forall a b s,
  lang (Cat a b) s <-> exists x y, s = x ++ y /\ lang a x /\ lang b y.
Proof.
  intros a b s. split.
  - intro H. inversion H; subst. eauto.
  - intros [x [y [-> [Hx Hy]]]]. constructor; assumption.
Qed.

Lemma lang_star_cons_inv : forall a c s,
  lang (Star a) (c :: s) ->
  exists s1 s2, s = s1 ++ s2 /\ lang a (c :: s1) /\ lang (Star a) s2.
Proof.
  intros a c s H. remember (Star a) as r eqn:Hr. remember (c :: s) as w eqn:Hw.
  revert a c s Hr Hw.
  induction H as [|p x Hp|a b s t Hs _ Ht _|a b s Hs _|a b s Hs _|a|a s t Hs _ Ht IH];
    intros a0 c0 s0 Hr Hw; try discriminate.
  injection Hr as ->. destruct s as [|x s'].
  - simpl in Hw. apply (IH a0 c0 s0 eq_refl Hw).
  - simpl in Hw. injection Hw as -> <-. exists s', t. auto.
Qed.

Lemma deriv_lang : forall r c s, lang (deriv c r) s <-> lang r (c :: s).
Proof.
  induction r as [| |p|a IHa b IHb|a IHa b IHb|a IHa]; intros c s; simpl.
  - split; intro H; inversion H.
  - split; intro H; inversion H.
  - destruct (p c) eqn:E; split; intro H.
    + inversion H; subst. constructor. exact E.
    + inversion H; subst. constructor.
    + inversion H.
    + inversion H; subst. congruence.
  - assert (Hcat : lang (Cat (deriv c a) b) s -> lang (Cat a b) (c :: s)).
    { intro H. inversion H; subst.
      match goal with |- lang _ (c :: ?x ++ ?y) =>
        change (c :: x ++ y) with ((c :: x) ++ y) end.
      constructor; [apply IHa|]; assumption. }
    assert (Hinv : lang (Cat a b) (c :: s) ->
                   lang (Cat (deriv c a) b) s \/ (lang a [] /\ lang b (c :: s))).
    { intro H. apply lang_cat in H. destruct H as [x [y [Heq [Hx Hy]]]].
      destruct x as [|x0 x].
      - simpl in Heq. subst y. right. auto.
      - simpl in Heq. injection Heq as -> ->. left. constructor; [apply IHa|]; assumption. }
    destruct (nullable a) eqn:E; split; intro H.
    + inversion H; subst; [apply Hcat; assumption|].
      change (c :: s) with ([] ++ c :: s). constructor; [apply nullable_lang; exact E|].
      apply IHb. assumption.
    + destruct (Hinv H) as [H' | [_ H']]; [apply L_alt_l; exact H'|].
      apply L_alt_r, IHb. exact H'.
    + apply Hcat. exact H.
    + destruct (Hinv H) as [H' | [H' _]]; [exact H'|].
      apply nullable_lang in H'. congruence.
  - split; intro H; inversion H; subst;
      solve [apply L_alt_l, IHa; assumption | apply L_alt_r, IHb; assumption].
  - split; intro H.
    + apply lang_cat in H. destruct H as [x [y [-> [Hx Hy]]]].
      change (c :: x ++ y) with ((c :: x) ++ y). constructor; [apply IHa|]; assumption.
    + apply lang_star_cons_inv in H. destruct H as [s1 [s2 [-> [H1 H2]]]].
      constructor; [apply IHa|]; assumption.
Qed.

Theorem matches_lang : forall s r, matches r s = true <-> lang r s.
Proof.
  induction s as [|c t IH]; intro r; simpl.
  - apply nullable_lang.
  - rewrite IH. apply deriv_lang.
Qed.

Lemma lang_cls : forall p s, lang (Cls p) s <-> exists c, s = [c] /\ p c = true.
Proof.
  intros p s. split.
  - intro H. inversion H; subst. eauto.
  - intros [c [-> Hc]]. constructor. exact Hc.
Qed.

Lemma lang_chr : forall a s, lang (Chr a) s <-> s = [ch a].
Proof.
  intros a s. unfold Chr. rewrite lang_cls. split.
  - intros [c [-> Hc]]. apply N.eqb_eq in Hc. congruence.
  - intros ->. exists (ch a). split; [reflexivity | apply N.eqb_refl].
Qed.

Lemma lang_star_cls : forall p s, lang (Star (Cls p)) s <-> all p s.
Proof.
  intros p s. split.
  - intro H. remember (Star (Cls p)) as r eqn:Hr. revert Hr.
    induction H as [|q x Hq|a b s t Hs _ Ht _|a b s Hs _|a b s Hs _|a|a s t Hs _ Ht IH];
      intro Hr; try discriminate.
    + constructor.
    + injection Hr as ->. inversion Hs; subst. constructor; [assumption|].
      apply IH. reflexivity.
  - intro H. induction H as [|c t Hc Ht IH].
    + constructor.
    + change (c :: t) with ([c] ++ t). constructor; [constructor; exact Hc | exact IH].
Qed.

Lemma lang_plus_cls : forall p s, lang (Plus (Cls p)) s <-> s <> [] /\ all p s.
Proof.
  intros p s. unfold Plus. rewrite lang_cat. split.
  - intros [x [y [-> [Hx Hy]]]]. apply lang_cls in Hx. destruct Hx as [c [-> Hc]].
    apply lang_star_cls in Hy. split; [discriminate | constructor; assumption].
  - intros [Hne H]. destruct s as [|c t]; [congruence|].
    inversion H; subst. exists [c], t. repeat split.
    + constructor. assumption.
    + apply lang_star_cls. assumption.
Qed.

Lemma lang_anystar : forall s, lang AnyStar s.
Proof. intro s. apply lang_star_cls. apply Forall_forall. reflexivity. Qed.

(** ** The clean-up pass of [stagehand_extract] *)

Lemma contains_includes : forall needle line,
  contains needle line <-> includes line needle = true.
Proof. intros needle line. symmetry. apply includes_spec. Qed.

Lemma cssClassRule_spec : forall line,
  matchesPrefix cssClassRule line = true <-> ClassRuleStart line.
Proof.
  intro line. unfold matchesPrefix, cssClassRule, ClassRuleStart.
  rewrite matches_lang. split.
  - intro H.
    apply lang_cat in H. destruct H as [x [rest [-> [H _]]]].
    apply lang_cat in H. destruct H as [dot [x1 [-> [Hdot H]]]].
    apply lang_cat in H. destruct H as [cls [x2 [-> [Hcls H]]]].
    apply lang_cat in H. destruct H as [ws [brace [-> [Hws Hbrace]]]].
    apply lang_chr in Hdot. apply lang_chr in Hbrace.
    apply lang_plus_cls in Hcls. apply lang_star_cls in Hws. subst dot brace.
    exists cls, ws, rest. destruct Hcls as [Hne Hall]. repeat split; try assumption.
    rewrite <- !app_assoc. reflexivity.
  - intros [cls [ws [rest [-> [Hne [Hcls Hws]]]]]].
    replace (lit "." ++ cls ++ ws ++ lit "{" ++ rest)
      with ((lit "." ++ cls ++ ws ++ lit "{") ++ rest)
      by (rewrite <- !app_assoc; reflexivity).
    constructor; [|apply lang_anystar].
    constructor; [apply lang_chr; reflexivity|].
    constructor; [apply lang_plus_cls; split; assumption|].
    constructor; [apply lang_star_cls; assumption | apply lang_chr; reflexivity].
Qed.

Lemma cssDeclaration_spec : forall line,
  matchesWhole cssDeclaration line = true <-> SingleDeclaration line.
Proof.
  intro line. unfold matchesWhole, cssDeclaration, SingleDeclaration.
  rewrite matches_lang. split.
  - intro H.
    apply lang_cat in H. destruct H as [prop [x1 [-> [Hprop H]]]].
    apply lang_cat in H. destruct H as [colon [x2 [-> [Hcolon H]]]].
    apply lang_cat in H. destruct H as [val [semi [-> [Hval Hsemi]]]].
    apply lang_chr in Hcolon. apply lang_chr in Hsemi.
    apply lang_plus_cls in Hprop. apply lang_plus_cls in Hval. subst colon semi.
    exists prop, val. destruct Hprop, Hval. repeat split; assumption.
  - intros [prop [val [-> [Hp [Hpa [Hv Hva]]]]]].
    constructor; [apply lang_plus_cls; split; assumption|].
    constructor; [apply lang_chr; reflexivity|].
    constructor; [apply lang_plus_cls; split; assumption | apply lang_chr; reflexivity].
Qed.

Lemma keepLine_unfold : forall line,
  keepLine line =
  negb (Js.eqb line [])
  && negb ((includes line (lit "{") && includes line (lit "}"))
           || includes line (lit "@keyframes")
           || matchesPrefix cssClassRule line
           || matchesWhole cssDeclaration line).
Proof.
  intros [|c t]; [reflexivity|].
  unfold keepLine.
  destruct ((includes (c :: t) (lit "{") && includes (c :: t) (lit "}"))
            || includes (c :: t) (lit "@keyframes")
            || matchesPrefix cssClassRule (c :: t)
            || matchesWhole cssDeclaration (c :: t)); reflexivity.
Qed.

Lemma keepLine_false : forall line, keepLine line = false -> Dropped line.
Proof.
  intros line E. rewrite keepLine_unfold in E.
  apply andb_false_iff in E. destruct E as [E | E].
  - left. apply negb_false_iff, eqb_eq in E. exact E.
  - right. apply negb_false_iff in E.
    rewrite !orb_true_iff, andb_true_iff in E.
    destruct E as [[[[H1 H2] | H3] | H4] | H5].
    + left. split; apply contains_includes; assumption.
    + right; left. apply contains_includes; assumption.
    + right; right; left. apply cssClassRule_spec; assumption.
    + right; right; right. apply cssDeclaration_spec; assumption.
Qed.

Lemma keepLine_true : forall line, keepLine line = true -> ~ Dropped line.
Proof.
  intros line E HD. rewrite keepLine_unfold in E.
  apply andb_true_iff in E. destruct E as [E0 E].
  apply negb_true_iff in E0. apply negb_true_iff in E.
  rewrite !orb_false_iff, andb_false_iff in E.
  destruct E as [[[E1 E3] E4] E5].
  destruct HD as [H | [[H1 H2] | [H | [H | H]]]].
  - subst line. discriminate.
  - apply contains_includes in H1. apply contains_includes in H2.
    destruct E1; congruence.
  - apply contains_includes in H. congruence.
  - apply cssClassRule_spec in H. congruence.
  - apply cssDeclaration_spec in H. congruence.
Qed.

Lemma keepLine_spec : forall line, keepLine line = true <-> ~ Dropped line.
Proof.
  intro line. split; [apply keepLine_true|].
  intro H. destruct (keepLine line) eqn:E; [reflexivity|].
  exfalso. apply H, keepLine_false, E.
Qed.

Lemma decode_plain : forall c t,
  (forall code rest, ~ EscapeAt (c :: t) code rest) ->
  decodeUnicodeEscapes (c :: t) = c :: decodeUnicodeEscapes t.
Proof.
  intros c t H.
  destruct t as [|u [|h1 [|h2 [|h3 [|h4 rest]]]]]; try reflexivity.
  cbn [decodeUnicodeEscapes].
  destruct (N.eqb c (ch "\") && N.eqb u (ch "u")) eqn:E; [|reflexivity].
  destruct (fromHex4 h1 h2 h3 h4) as [code|] eqn:Ehex; [|reflexivity].
  exfalso. apply (H code rest).
  apply andb_true_iff in E. destruct E as [Ec Eu].
  apply N.eqb_eq in Ec. apply N.eqb_eq in Eu. subst c u.
  exists h1, h2, h3, h4. split; [reflexivity | exact Ehex].
Qed.

Lemma decode_escape : forall s code rest,
  EscapeAt s code rest ->
  decodeUnicodeEscapes s = code :: decodeUnicodeEscapes rest.
Proof.
  intros s code rest [a [b [c [d [-> Hhex]]]]].
  cbn [decodeUnicodeEscapes]. rewrite !N.eqb_refl. cbn [andb]. rewrite Hhex. reflexivity.
Qed.

Lemma EscapeAt_dec : forall s,
  (exists code rest, EscapeAt s code rest) \/ (forall code rest, ~ EscapeAt s code rest).
Proof.
  intro s.
  destruct s as [|c [|u [|h1 [|h2 [|h3 [|h4 rest]]]]]];
    try (right; intros code r [a [b [x [d [Heq _]]]]]; discriminate).
  destruct (N.eqb c (ch "\") && N.eqb u (ch "u")) eqn:E.
  - destruct (fromHex4 h1 h2 h3 h4) as [code|] eqn:Ehex.
    + left. exists code, rest.
      apply andb_true_iff in E. destruct E as [Ec Eu].
      apply N.eqb_eq in Ec. apply N.eqb_eq in Eu. subst c u.
      exists h1, h2, h3, h4. auto.
    + right. intros code r [a [b [x [d [Heq Hhex]]]]].
      injection Heq as _ _ <- <- <- <- _. congruence.
  - right. intros code r [a [b [x [d [Heq Hhex]]]]].
    injection Heq as -> -> _ _ _ _ _. rewrite !N.eqb_refl in E. discriminate.
Qed.

Lemma EscapeAt_shorter : forall s code rest, EscapeAt s code rest -> length rest < length s.
Proof.
  intros s code rest [a [b [c [d [-> _]]]]]. simpl. lia.
Qed.

Lemma decode_Decoded : forall line, Decoded line (decodeUnicodeEscapes line).
Proof.
  intro line. remember (length line) as n eqn:Hn.
  revert line Hn. induction n as [n IH] using lt_wf_ind. intros line Hn.
  destruct line as [|c t].
  - constructor.
  - destruct (EscapeAt_dec (c :: t)) as [[code [rest He]] | Hno].
    + rewrite (decode_escape _ _ _ He). apply Decoded_escape with (rest := rest); [exact He|].
      apply (IH (length rest)); [|reflexivity].
      subst n. apply (EscapeAt_shorter _ _ _ He).
    + rewrite (decode_plain _ _ Hno). constructor; [exact Hno|].
      apply (IH (length t)); [subst n; simpl; lia | reflexivity].
Qed.

Lemma Decoded_decode : forall line out, Decoded line out -> out = decodeUnicodeEscapes line.
Proof.
  intros line out H. induction H as [|s code rest out He _ IH|c t out Hno _ IH].
  - reflexivity.
  - rewrite (decode_escape _ _ _ He). congruence.
  - rewrite (decode_plain _ _ Hno). congruence.
Qed.

Lemma pipeline_Cleaned : forall raws,
  Cleaned raws (map decodeUnicodeEscapes (filter keepLine (map trim raws))).
Proof.
  induction raws as [|raw rest IH]; [constructor|].
  simpl. destruct (keepLine (trim raw)) eqn:E.
  - simpl. apply Cleaned_keep with (t := trim raw).
    + apply trim_Trimmed.
    + apply keepLine_spec. exact E.
    + apply decode_Decoded.
    + exact IH.
  - apply Cleaned_drop with (t := trim raw).
    + apply trim_Trimmed.
    + apply keepLine_false. exact E.
    + exact IH.
Qed.

Lemma Cleaned_pipeline : forall raws out,
  Cleaned raws out ->
  out = map decodeUnicodeEscapes (filter keepLine (map trim raws)).
Proof.
  intros raws out H.
  induction H as [|raw t rest out Ht Hd _ IH|raw t d rest out Ht Hk Hdec _ IH].
  - reflexivity.
  - simpl. rewrite <- (Trimmed_trim _ _ Ht).
    destruct (keepLine t) eqn:E; [|exact IH].
    exfalso. exact (keepLine_true _ E Hd).
  - simpl. rewrite <- (Trimmed_trim _ _ Ht).
    apply keepLine_spec in Hk. rewrite Hk. simpl.
    rewrite (Decoded_decode _ _ Hdec), IH. reflexivity.
Qed.

(** The branch of [handleToolCall] that the name [stagehand_extract] selects. *)
Lemma handleToolCall_extract : forall W args h,
  handleToolCall W (lit "stagehand_extract") args h =
  try_catch
    (bodyText <- call (EvInnerText h) (page_innerText W h) ;;
     ret (mkResult
            [ Text (lit "Extracted content:" ++ nl ++ Js.join nl (extractContent bodyText)) ]
            false))
    (fun err =>
       match messageOf (typeErrorMessage W) err with
       | Returns message =>
           ret (mkResult
                  [ Text (lit "Failed to extract content: " ++ tpl message) ]
                  true)
       | Throws typeError => throw typeError
       end).
Proof. reflexivity. Qed.

(** C8 as stated fails on a page text with an empty line: the pass of the
    code drops the empty line, the pass that follows the rules of the
    specification keeps it. *)
Lemma extract_cleanup_as_specified_differs :
  Js.join nl (extractContent (lit "a" ++ nl ++ nl ++ lit "b")) = lit "a" ++ nl ++ lit "b"
  /\ cleanupAsSpecified (lit "a" ++ nl ++ nl ++ lit "b") = lit "a" ++ nl ++ nl ++ lit "b"
  /\ Js.join nl (extractContent (lit "a" ++ nl ++ nl ++ lit "b"))
     <> cleanupAsSpecified (lit "a" ++ nl ++ nl ++ lit "b").
Proof.
  vm_compute. repeat split; discriminate.
Qed.

(** C8 (amended).  For every page text, [stagehand_extract] returns one text
    item, "Extracted content:" followed by a line feed and the cleaned
    lines joined by line feeds, with isError false.  The cleaned lines are
    obtained from the lines of the text (its pieces between line feeds) by
    trimming every line, dropping the lines that are empty after trimming,
    that contain both an opening and a closing brace, that contain
    "@keyframes", that start like [.class {] or that are one declaration
    [property: value;], and decoding the escape sequences of the lines
    that remain; these rules determine the result.  In particular the text
    of the two lines "color: blue;" and "Hello world" yields "Hello world"
    alone. *)
Theorem extract_cleanup :
  forall (W : World) (args : ToolArgs) (h : handle) (s : State) (text : jsstring),
    page_innerText W h = Returns text ->
    exists out,
      handleToolCall W (lit "stagehand_extract") args h s
      = (Ok (mkResult [Text (lit "Extracted content:" ++ nl ++ Js.join nl out)] false),
         with_events (events s ++ [EvInnerText h]) s)
      /\ Js.join nl (split 10%N text) = text
      /\ Forall (fun line => ~ In 10%N line) (split 10%N text)
      /\ (forall lines,
             lines <> [] -> Forall (fun line => ~ In 10%N line) lines ->
             Js.join nl lines = text -> lines = split 10%N text)
      /\ Cleaned (split 10%N text) out
      /\ (forall out', Cleaned (split 10%N text) out' -> out' = out)
      /\ extractContent (lit "color: blue;" ++ nl ++ lit "Hello world")
         = [lit "Hello world"].
Proof.
  intros W args h s text Htext.
  exists (extractContent text). repeat split.
  - rewrite handleToolCall_extract.
    unfold try_catch, bind, call, ret. rewrite Htext. reflexivity.
  - apply join_split.
  - apply split_no_separator.
  - intros lines Hne Hall Hjoin.
    apply (join_lines_unique 10%N); try assumption.
    + destruct (split_cons 10%N text) as [l [ls Hs]]. rewrite Hs. discriminate.
    + apply split_no_separator.
    + transitivity text; [exact Hjoin | symmetry; apply join_split].
  - apply pipeline_Cleaned.
  - intros out' H. apply Cleaned_pipeline. exact H.
Qed.

Lemma extract_cleanup_witness :
  exists out,
    handleToolCall (calmWorld emptyEnv samplePageText)
      (lit "stagehand_extract") noArgs 0 liveState
    = (Ok (mkResult [Text (lit "Extracted content:" ++ nl ++ Js.join nl out)] false),
       with_events (events liveState ++ [EvInnerText 0]) liveState)
    /\ Js.join nl (split 10%N samplePageText) = samplePageText
    /\ Forall (fun line => ~ In 10%N line) (split 10%N samplePageText)
    /\ (forall lines,
           lines <> [] -> Forall (fun line => ~ In 10%N line) lines ->
           Js.join nl lines = samplePageText -> lines = split 10%N samplePageText)
    /\ Cleaned (split 10%N samplePageText) out
    /\ (forall out', Cleaned (split 10%N samplePageText) out' -> out' = out)
    /\ extractContent (lit "color: blue;" ++ nl ++ lit "Hello world")
       = [lit "Hello world"].
Proof.
  apply (extract_cleanup (calmWorld emptyEnv samplePageText) noArgs 0 liveState
           samplePageText).
  reflexivity.
Defined.

(** ** [stagehand_act] *)

Lemma handleToolCall_act : forall W args h,
  handleToolCall W (lit "stagehand_act") args h =
  try_catch
    (call (EvAct h) (page_act W h (action args) (variables args)) ;;
     ret (mkResult [ Text (lit "Action performed: " ++ tpl (action args)) ] false))
    (failure (lit "Failed to perform action: ")).
Proof. reflexivity. Qed.

(** C10.  A [stagehand_act] call that succeeds returns exactly one text
    item, "Action performed: " followed by the action, with isError false;
    two successful runs with the same action return the same envelope,
    whatever the variables, the session, the state and the world are. *)
Theorem act_success_envelope :
  forall (W1 W2 : World) (h1 h2 : handle) (s1 s2 : State) (args1 args2 : ToolArgs),
    action args1 = action args2 ->
    page_act W1 h1 (action args1) (variables args1) = Returns tt ->
    page_act W2 h2 (action args2) (variables args2) = Returns tt ->
    fst (handleToolCall W1 (lit "stagehand_act") args1 h1 s1)
    = Ok (mkResult [Text (lit "Action performed: " ++ tpl (action args1))] false)
    /\ fst (handleToolCall W2 (lit "stagehand_act") args2 h2 s2)
       = fst (handleToolCall W1 (lit "stagehand_act") args1 h1 s1).
Proof.
  intros W1 W2 h1 h2 s1 s2 args1 args2 Hact H1 H2.
  rewrite !handleToolCall_act.
  unfold try_catch, bind, call, ret. rewrite H1, H2, Hact. split; reflexivity.
Qed.

Lemma act_success_envelope_witness :
  fst (handleToolCall (calmWorld emptyEnv []) (lit "stagehand_act")
         (mkArgs None (Some (lit "Fill in the password")) (Some (JObj [(lit "password", JStr (lit "123456"))])) None None)
         0 liveState)
  = Ok (mkResult [Text (lit "Action performed: " ++ tpl (Some (lit "Fill in the password")))] false)
  /\ fst (handleToolCall (calmWorld hostedEnv []) (lit "stagehand_act")
            (mkArgs None (Some (lit "Fill in the password")) (Some (JObj [(lit "password", JStr (lit "hunter2"))])) None None)
            3 initialState)
     = fst (handleToolCall (calmWorld emptyEnv []) (lit "stagehand_act")
              (mkArgs None (Some (lit "Fill in the password")) (Some (JObj [(lit "password", JStr (lit "123456"))])) None None)
              0 liveState).
Proof.
  apply (act_success_envelope (calmWorld emptyEnv []) (calmWorld hostedEnv []) 0 3
           liveState initialState
           (mkArgs None (Some (lit "Fill in the password")) (Some (JObj [(lit "password", JStr (lit "123456"))])) None None)
           (mkArgs None (Some (lit "Fill in the password")) (Some (JObj [(lit "password", JStr (lit "hunter2"))])) None None));
    reflexivity.
Defined.

(** ** [ensureStagehand] *)

(** C9.  When the configuration selects the local environment and has no
    CDP URL (no launch options, or an undefined or empty [cdpUrl]), every
    call of [ensureStagehand] throws the configuration error and leaves the
    state as it was: no [Stagehand] object is constructed, none is
    initialized or probed, and the handle is not replaced. *)
Theorem ensureStagehand_local_without_cdpUrl :
  forall (W : World) (config : ConstructorParams) (s : State),
    env config = LOCAL ->
    truthy (match localBrowserLaunchOptions config with
            | Some o => cdpUrl o
            | None => None
            end) = false ->
    ensureStagehand W config s = (Err (ErrorObj cdpUrlMissingMessage), s).
Proof.
  intros W config s Henv Hcdp.
  unfold ensureStagehand, localWithoutCdpUrl. rewrite Henv, Hcdp. reflexivity.
Qed.

Lemma ensureStagehand_local_without_cdpUrl_witness :
  ensureStagehand (calmWorld emptyEnv []) (stagehandConfig (calmWorld emptyEnv []))
    initialState
  = (Err (ErrorObj cdpUrlMissingMessage), initialState).
Proof.
  apply (ensureStagehand_local_without_cdpUrl (calmWorld emptyEnv [])
           (stagehandConfig (calmWorld emptyEnv [])) initialState);
    reflexivity.
Defined.

Lemma sessionInvalidated_spec : forall err,
  sessionInvalidated err = true <->
  exists message,
    err = ErrorObj message
    /\ (contains (lit "Target page, context or browser has been closed") message
        \/ contains (lit "Session expired") message
        \/ contains (lit "context destroyed") message).
Proof.
  intros [m | v | r rm]; simpl.
  - rewrite !orb_true_iff, <- !contains_includes. split.
    + intros [[H | H] | H]; exists m; auto.
    + intros [m' [Heq H]]. injection Heq as <-. tauto.
  - split; [discriminate | intros [m [Heq _]]; discriminate].
  - split; [discriminate | intros [m [Heq _]]; discriminate].
Qed.

(** With a usable configuration, a handle whose probe succeeds is returned
    as it is; the probe is the only call made. *)
Lemma ensureStagehand_probe_succeeds : forall W config s h,
  localWithoutCdpUrl config = false ->
  stagehand s = Some h ->
  page_probe W h = Returns tt ->
  ensureStagehand W config s = (Ok h, with_events (events s ++ [EvProbe h]) s).
Proof.
  intros W config s h Hcfg Hh Hprobe.
  unfold ensureStagehand. rewrite Hcfg.
  unfold try_catch, bind, gets, call, ret. rewrite Hh, Hprobe. reflexivity.
Qed.

(** C5.  In a well-formed state with a session handle [h]:
    when the probe succeeds, [ensureStagehand] returns [h] and keeps it,
    and so does the call that follows;
    when the probe throws an [Error] whose message contains "Target page,
    context or browser has been closed", "Session expired" or "context
    destroyed", and the new session initializes, it constructs a new
    [Stagehand], stores it, initializes it and returns it, and the new
    handle differs from [h];
    when the probe throws anything else, that very value is thrown again
    and [h] is kept. *)
Theorem ensureStagehand_lifecycle :
  forall (W : World) (config : ConstructorParams) (s : State) (h : handle),
    wellFormed config s ->
    stagehand s = Some h ->
    (page_probe W h = Returns tt ->
     ensureStagehand W config s = (Ok h, with_events (events s ++ [EvProbe h]) s)
     /\ fst (ensureStagehand W config (snd (ensureStagehand W config s))) = Ok h)
    /\ (forall message,
          page_probe W h = Throws (ErrorObj message) ->
          contains (lit "Target page, context or browser has been closed") message
          \/ contains (lit "Session expired") message
          \/ contains (lit "context destroyed") message ->
          stagehand_init W (constructed s) = Returns tt ->
          exists s',
            ensureStagehand W config s = (Ok (constructed s), s')
            /\ constructed s <> h
            /\ stagehand s' = Some (constructed s)
            /\ constructed s' = S (constructed s)
            /\ events s' = events s ++ [EvProbe h; EvNew (constructed s);
                                        EvInit (constructed s)])
    /\ (forall err,
          page_probe W h = Throws err ->
          sessionInvalidated err = false ->
          exists s',
            ensureStagehand W config s = (Err err, s')
            /\ stagehand s' = Some h
            /\ events s' = events s ++ [EvProbe h]).
Proof.
  intros W config s h Hwf Hh.
  destruct (Hwf h Hh) as [Hlt Hcfg].
  split; [|split].
  - intro Hprobe. split.
    + apply ensureStagehand_probe_succeeds; assumption.
    + rewrite (ensureStagehand_probe_succeeds W config s h Hcfg Hh Hprobe). cbn [snd].
      rewrite (ensureStagehand_probe_succeeds W config
                 (with_events (events s ++ [EvProbe h]) s) h Hcfg Hh Hprobe).
      reflexivity.
  - intros message Hprobe Hclass Hinit.
    assert (Hinv : sessionInvalidated (ErrorObj message) = true).
    { apply sessionInvalidated_spec. exists message. auto. }
    unfold ensureStagehand. rewrite Hcfg.
    unfold try_catch, bind, gets, call, ret, createAndInit, log, modify, throw.
    rewrite Hh, Hprobe, Hinv. cbn. rewrite Hinit. cbn.
    eexists. split; [reflexivity|]. cbn.
    repeat split; try lia.
    rewrite <- !app_assoc. reflexivity.
  - intros err Hprobe Hinv.
    unfold ensureStagehand. rewrite Hcfg.
    unfold try_catch, bind, gets, call, ret, log, modify, throw.
    rewrite Hh, Hprobe, Hinv. cbn.
    eexists. split; [reflexivity|]. cbn. split; [exact Hh | reflexivity].
Qed.

Lemma ensureStagehand_lifecycle_witness :
  (ensureStagehand (calmWorld hostedEnv []) (stagehandConfig (calmWorld hostedEnv []))
     liveState
   = (Ok 0, with_events (events liveState ++ [EvProbe 0]) liveState)
   /\ fst (ensureStagehand (calmWorld hostedEnv [])
             (stagehandConfig (calmWorld hostedEnv []))
             (snd (ensureStagehand (calmWorld hostedEnv [])
                     (stagehandConfig (calmWorld hostedEnv [])) liveState)))
      = Ok 0)
  /\ (exists s',
        ensureStagehand (brokenWorld hostedEnv (ErrorObj (lit "Session expired")))
          (stagehandConfig (calmWorld hostedEnv [])) liveState
        = (Ok 1, s')
        /\ 1 <> 0
        /\ stagehand s' = Some 1
        /\ constructed s' = 2
        /\ events s' = events liveState ++ [EvProbe 0; EvNew 1; EvInit 1])
  /\ (exists s',
        ensureStagehand (brokenWorld hostedEnv (ErrorObj (lit "net::ERR_TIMED_OUT")))
          (stagehandConfig (calmWorld hostedEnv [])) liveState
        = (Err (ErrorObj (lit "net::ERR_TIMED_OUT")), s')
        /\ stagehand s' = Some 0
        /\ events s' = events liveState ++ [EvProbe 0]).
Proof.
  assert (Hwf : wellFormed (stagehandConfig (calmWorld hostedEnv [])) liveState).
  { intros h Hh. injection Hh as <-. split; [apply le_n | reflexivity]. }
  split; [|split].
  - apply (proj1 (ensureStagehand_lifecycle (calmWorld hostedEnv [])
                    (stagehandConfig (calmWorld hostedEnv [])) liveState 0 Hwf eq_refl)).
    reflexivity.
  - apply (proj1 (proj2 (ensureStagehand_lifecycle
                           (brokenWorld hostedEnv (ErrorObj (lit "Session expired")))
                           (stagehandConfig (calmWorld hostedEnv [])) liveState 0 Hwf
                           eq_refl))
             (lit "Session expired")).
    + reflexivity.
    + right; left. exists [], []. reflexivity.
    + reflexivity.
  - apply (proj2 (proj2 (ensureStagehand_lifecycle
                           (brokenWorld hostedEnv (ErrorObj (lit "net::ERR_TIMED_OUT")))
                           (stagehandConfig (calmWorld hostedEnv [])) liveState 0 Hwf
                           eq_refl))
             (ErrorObj (lit "net::ERR_TIMED_OUT"))).
    + reflexivity.
    + reflexivity.
Defined.

(** ** The states the server reaches are well-formed *)

Tactic Notation "run_monad" :=
  unfold try_catch, bind, call, ret, failure, gets, modify, throw, log,
    logRequest, logResponse, evaluateInPage.
Tactic Notation "run_monad" "in" hyp(H) :=
  unfold try_catch, bind, call, ret, failure, gets, modify, throw, log,
    logRequest, logResponse, evaluateInPage in H.

Ltac split_outcomes :=
  repeat match goal with
         | |- context [match ?o with Returns _ => _ | Throws _ => _ end] =>
             destruct o; cbn
         | |- context [match ?o with Some _ => _ | None => _ end] =>
             destruct o; cbn
         end.

(** [handleToolCall], whether it returns or throws, touches neither the
    session handle nor the operation log. *)
Lemma handleToolCall_frame : forall W toolName args h s,
  exists r s',
    handleToolCall W toolName args h s = (r, s')
    /\ stagehand s' = stagehand s
    /\ constructed s' = constructed s
    /\ operationLogs s' = operationLogs s.
Proof.
  intros W toolName args h s. unfold handleToolCall.
  repeat match goal with
         | |- context [if Js.eqb toolName ?l then _ else _] => destruct (Js.eqb toolName l)
         end;
    run_monad; cbn; split_outcomes;
    do 2 eexists; (split; [reflexivity|]); cbn; auto.
Qed.

Lemma wellFormed_frame : forall config s s',
  stagehand s' = stagehand s -> constructed s' = constructed s ->
  wellFormed config s -> wellFormed config s'.
Proof.
  intros config s s' Hs Hc Hwf h Hh. rewrite Hs in Hh. rewrite Hc. apply Hwf. exact Hh.
Qed.

Lemma ensureStagehand_wellFormed : forall W config s,
  wellFormed config s ->
  wellFormed config (snd (ensureStagehand W config s))
  /\ (forall h, fst (ensureStagehand W config s) = Ok h ->
                stagehand (snd (ensureStagehand W config s)) = Some h).
Proof.
  intros W config s Hwf.
  destruct (ensureStagehand W config s) as [r s'] eqn:E. cbn [fst snd].
  unfold ensureStagehand in E.
  destruct (localWithoutCdpUrl config) eqn:Hcfg.
  - cbn in E. injection E as <- <-. split; [exact Hwf | discriminate].
  - assert (Hnew : forall s1,
              stagehand s1 = Some (constructed s) ->
              constructed s1 = S (constructed s) -> wellFormed config s1).
    { intros s1 H1 H2 h Hh. rewrite H1 in Hh. injection Hh as <-.
      split; [lia | exact Hcfg]. }
    unfold createAndInit in E. run_monad in E. cbn in E.
    destruct (stagehand s) as [h0|] eqn:Hs.
    + destruct (page_probe W h0) as [u|err]; cbn in E.
      * injection E as <- <-. split.
        -- apply (wellFormed_frame config s); auto.
        -- intros h Hh. injection Hh as <-. exact Hs.
      * destruct (sessionInvalidated err); cbn in E.
        -- destruct (stagehand_init W (constructed s)); cbn in E;
             injection E as <- <-; (split; [apply Hnew; reflexivity|]).
           ++ intros h Hh. injection Hh as <-. reflexivity.
           ++ discriminate.
        -- injection E as <- <-. split; [|discriminate].
           apply (wellFormed_frame config s); auto.
    + destruct (stagehand_init W (constructed s)); cbn in E;
        injection E as <- <-; (split; [apply Hnew; reflexivity|]).
      * intros h Hh. injection Hh as <-. reflexivity.
      * discriminate.
Qed.

Lemma callTool_wellFormed : forall W config params s,
  wellFormed config s -> wellFormed config (snd (callTool W config params s)).
Proof.
  intros W config params s Hwf.
  unfold callTool, callToolBody.
  unfold bind at 1. unfold logRequest, log, modify at 1.
  unfold bind at 1. unfold modify at 1.
  set (s0 := with_operationLogs [] _).
  assert (Hwf0 : wellFormed config s0) by (apply (wellFormed_frame config s); auto).
  clearbody s0. clear s Hwf.
  unfold bind at 1.
  destruct (negb (truthy (params_name params))
            || negb (inRegistry (tpl (params_name params)))).
  - cbn. exact Hwf0.
  - unfold ret at 1. unfold bind at 1. unfold try_catch at 1. unfold bind at 1.
    pose proof (ensureStagehand_wellFormed W config s0 Hwf0) as [Hwf1 Hret].
    destruct (ensureStagehand W config s0) as [[h|err] s1] eqn:He; cbn in Hwf1, Hret.
    + unfold bind at 1. unfold modify at 1. unfold ret at 1.
      destruct (handleToolCall_frame W (tpl (params_name params))
                  (match params_arguments params with Some a => a | None => noArgs end)
                  h (with_stagehand (Some h) s1))
        as [r [s2 [Hcall [Hs2 [Hc2 _]]]]].
      unfold bind at 1. rewrite Hcall.
      assert (Hwf2 : wellFormed config s2).
      { apply (wellFormed_frame config s1); [|exact Hc2|exact Hwf1].
        rewrite Hs2. cbn. symmetry. apply Hret. reflexivity. }
      destruct r as [r|typeError]; [|exact Hwf2].
      unfold bind, logResponse, log, modify, ret.
      destruct (sanitizeRoundTrip W r); cbn; [|exact Hwf2].
      apply (wellFormed_frame config s2); auto.
    + unfold initFailureEnvelope, bind, gets, ret. cbn. exact Hwf1.
Qed.

(** X19.  The invariant of the session.  In every state that the server
    reaches by handling CallTool requests from its initial state, whatever
    the requests and the outcomes of the calls into the libraries were, the
    handle in [stagehand], when there is one, is an object that the server
    constructed, and the configuration is not the local one without a CDP
    URL. *)
Theorem reachable_wellFormed : forall config s,
  reachable config s -> wellFormed config s.
Proof.
  intros config s H. induction H as [|W s params _ IH].
  - intros h Hh. discriminate.
  - apply callTool_wellFormed. exact IH.
Qed.

(** ** The dispatcher and names that are not in the registry *)

Lemma inRegistry_spec : forall n, inRegistry n = true <-> In n (map Tools.name TOOLS).
Proof.
  intro n. unfold inRegistry. rewrite existsb_exists, in_map_iff. split.
  - intros [t [Hin Heq]]. apply eqb_eq in Heq. exists t. auto.
  - intros [t [Heq Hin]]. exists t. split; [exact Hin | apply eqb_eq; exact Heq].
Qed.

(** C1 as stated fails: for a name that is not in the registry the
    dispatcher returns no result envelope but an error object, and the
    operation log, which held a line, is empty afterwards. *)
Lemma unknown_tool_is_no_envelope :
  inRegistry (lit "no_such_tool") = false
  /\ (forall r, fst (callTool (calmWorld hostedEnv []) (stagehandConfig (calmWorld hostedEnv []))
                       (mkParams (Some (lit "no_such_tool")) None) liveState)
                <> Envelope r)
  /\ operationLogs liveState <> []
  /\ operationLogs (snd (callTool (calmWorld hostedEnv [])
                           (stagehandConfig (calmWorld hostedEnv []))
                           (mkParams (Some (lit "no_such_tool")) None) liveState))
     = [].
Proof.
  vm_compute. repeat split; try discriminate.
Qed.

(** C1 (amended).  For every CallTool request whose name is missing or is
    not in the registry, the dispatcher returns the error object with code
    -32603 and the message "Internal error: Invalid tool name: " followed
    by the name; nothing is thrown.  The state afterwards is the state
    before with an empty operation log: the session handle is the same, no
    [Stagehand] object was constructed, and no call was made into the
    automation library. *)
Theorem unknown_tool_rejected :
  forall (W : World) (config : ConstructorParams) (params : CallToolParams) (s : State),
    (forall n, params_name params = Some n -> ~ In n (map Tools.name TOOLS)) ->
    callTool W config params s
    = (ErrorObject (-32603)%Z
         (lit "Internal error: Invalid tool name: " ++ tpl (params_name params)),
       with_operationLogs [] s).
Proof.
  intros W config params s Habsent.
  assert (Hcond : negb (truthy (params_name params))
                  || negb (inRegistry (tpl (params_name params))) = true).
  { destruct (params_name params) as [n|] eqn:Hn; [|reflexivity].
    apply orb_true_iff. right. apply negb_true_iff.
    destruct (inRegistry (tpl (Some n))) eqn:E; [|reflexivity].
    exfalso. apply (Habsent n eq_refl). apply inRegistry_spec. exact E. }
  unfold callTool, callToolBody. run_monad. rewrite Hcond. reflexivity.
Qed.

Lemma unknown_tool_rejected_witness :
  callTool (calmWorld hostedEnv []) (stagehandConfig (calmWorld hostedEnv []))
    (mkParams (Some (lit "no_such_tool")) None) liveState
  = (ErrorObject (-32603)%Z
       (lit "Internal error: Invalid tool name: " ++ tpl (Some (lit "no_such_tool"))),
     with_operationLogs [] liveState).
Proof.
  apply (unknown_tool_rejected (calmWorld hostedEnv [])
           (stagehandConfig (calmWorld hostedEnv []))
           (mkParams (Some (lit "no_such_tool")) None) liveState).
  intros n Hn. injection Hn as <-. intro Hin.
  apply inRegistry_spec in Hin. discriminate Hin.
Defined.

(** ** The envelope for a session that cannot be acquired *)

(** When [ensureStagehand] throws for a registered tool, the dispatcher
    answers with an error envelope whose first item holds the message and
    [JSON.stringify(stagehandConfig, null, 2)] as it is, and whose second
    item holds the operation log. *)
Lemma init_failure_envelope : forall W config n args s err s1,
  In n (map Tools.name TOOLS) ->
  ensureStagehand W config (with_operationLogs [] s) = (Err err, s1) ->
  callTool W config (mkParams (Some n) args) s
  = (Envelope
       (mkResult
          [ Text (lit "Failed to initialize Stagehand: " ++ errorMsg err ++ lit "."
                  ++ nl ++ nl ++ lit "Config: " ++ stringify (configJson config) 2);
            Text (operationLogsText s1) ]
          true),
     s1).
Proof.
  intros W config n args s err s1 Hin Hens.
  assert (Hcond : negb (truthy (Some n)) || negb (inRegistry (tpl (Some n))) = false).
  { apply inRegistry_spec in Hin. cbn [tpl]. rewrite Hin.
    apply inRegistry_spec in Hin.
    cbn in Hin. decompose [or] Hin; subst; try reflexivity. contradiction. }
  unfold callTool, callToolBody, initFailureEnvelope.
  unfold bind at 1. unfold logRequest, log, modify at 1.
  unfold bind at 1. unfold modify at 1.
  change (with_operationLogs []
            (with_operationLogs
               (operationLogs s ++ [formatLog W (requestLogMessage W (lit "CallTool")) debug])
               s))
    with (with_operationLogs [] s).
  cbn [params_name]. rewrite Hcond.
  unfold bind at 1. unfold ret at 1. unfold bind at 1. unfold try_catch at 1.
  unfold bind at 1. rewrite Hens.
  reflexivity.
Qed.

(** C3: the code at the failing input.  The process has a Browserbase API
    key and an OpenAI API key, but no project id and no CDP URL, so that
    [ensureStagehand] throws.  The error envelope that the dispatcher
    returns spells out both keys, and two processes that differ in the
    keys only return different texts. *)
Lemma init_failure_envelope_shows_api_keys :
  exists text1 text2 logs s1 s2,
    callTool (calmWorld (keysOnlyEnv (lit "bb_live_4f9a") (lit "sk-proj-77aa")) [])
      (stagehandConfig (calmWorld (keysOnlyEnv (lit "bb_live_4f9a") (lit "sk-proj-77aa")) []))
      navigateExample initialState
    = (Envelope (mkResult [Text text1; Text logs] true), s1)
    /\ callTool (calmWorld (keysOnlyEnv (lit "bb_live_0000") (lit "sk-proj-0000")) [])
         (stagehandConfig (calmWorld (keysOnlyEnv (lit "bb_live_0000") (lit "sk-proj-0000")) []))
         navigateExample initialState
       = (Envelope (mkResult [Text text2; Text logs] true), s2)
    /\ includes text1 (lit "bb_live_4f9a") = true
    /\ includes text1 (lit "sk-proj-77aa") = true
    /\ includes text2 (lit "bb_live_0000") = true
    /\ includes text2 (lit "sk-proj-0000") = true
    /\ text1 <> text2.
Proof.
  do 5 eexists.
  split; [vm_compute; reflexivity|].
  split; [vm_compute; reflexivity|].
  vm_compute. repeat split; try discriminate.
Qed.

(** ** Error envelopes and the operation log *)

(** X20.  Every error envelope of [handleToolCall], except the one of
    [stagehand_extract], has two text items: the failure and the operation
    log. *)
Lemma failure_envelopes_carry_log : forall W toolName args h s r s',
  Js.eqb toolName (lit "stagehand_extract") = false ->
  handleToolCall W toolName args h s = (Ok r, s') ->
  isError r = true ->
  exists what, content r = [Text what; Text (operationLogsText s')].
Proof.
  intros W toolName args h s r s' Hname Hcall Herr.
  unfold handleToolCall in Hcall. rewrite Hname in Hcall.
  repeat match type of Hcall with
         | context [if Js.eqb toolName ?l then _ else _] => destruct (Js.eqb toolName l)
         end;
    run_monad in Hcall; cbn in Hcall;
    repeat match type of Hcall with
           | context [match ?o with Returns _ => _ | Throws _ => _ end] =>
               destruct o; cbn in Hcall
           | context [match ?o with Some _ => _ | None => _ end] =>
               destruct o; cbn in Hcall
           end;
    injection Hcall as <- <-; cbn in Herr; try discriminate;
    eexists; reflexivity.
Qed.

(** C4: the code at the failing input.  When reading the text of the page
    throws, [stagehand_extract] returns an error envelope with one item,
    the failure; the operation log, which holds a line, is not in it. *)
Lemma extract_failure_envelope_lacks_log :
  handleToolCall (brokenWorld hostedEnv (ErrorObj (lit "Execution context was destroyed")))
    (lit "stagehand_extract") noArgs 0 liveState
  = (Ok (mkResult
           [Text (lit "Failed to extract content: Execution context was destroyed")]
           true),
     with_events (events liveState ++ [EvInnerText 0]) liveState)
  /\ operationLogs liveState = [lit "line of an earlier call"]
  /\ ~ In (Text (operationLogsText liveState))
          [Text (lit "Failed to extract content: Execution context was destroyed")].
Proof.
  split; [vm_compute; reflexivity|]. split; [reflexivity|].
  intros [H | []]. vm_compute in H. discriminate.
Qed.

(** ** The static artifact server *)

(** A request for [/tmp/] starts a read of the directory and answers with
    its listing. *)
Lemma listing_for_prefix_with_slash : forall TMP_DIR fs,
  requestListener TMP_DIR fs (Some (lit "/tmp/"))
  = ([ReadDir TMP_DIR], directoryListing (readdir fs TMP_DIR)).
Proof. reflexivity. Qed.

(** A request whose URL does not start with [/tmp/] is answered with 404
    and reads nothing. *)
Lemma not_found_outside_prefix : forall TMP_DIR fs u,
  u <> [] -> startsWith u (lit "/tmp/") = false ->
  requestListener TMP_DIR fs (Some u) = ([], Returns (plain 404 (lit "Not Found"))).
Proof.
  intros TMP_DIR fs [|c t] Hne Hpre; [congruence|].
  unfold requestListener. rewrite Hpre. reflexivity.
Qed.

(** C6: the code at the failing input.  A request for [/tmp], the prefix
    without its trailing slash, is answered with 404 "Not Found" and reads
    nothing, whatever the directory holds: the test for the prefix [/tmp/]
    comes first and [/tmp] does not pass it. *)
Theorem prefix_without_slash_not_found : forall TMP_DIR fs,
  requestListener TMP_DIR fs (Some (lit "/tmp"))
  = ([], Returns (plain 404 (lit "Not Found"))).
Proof. reflexivity. Qed.

(** The listing of the example directory links its file that is not
    hidden. *)
Lemma listing_example :
  requestListener (lit "/srv/stagehand/tmp") siblingFs (Some (lit "/tmp/"))
  = ([ReadDir (lit "/srv/stagehand/tmp")],
     Returns (html (listingPage (lit "<li><a href=" ++ dq ++ lit "/tmp/page.html" ++ dq
                                 ++ lit ">page.html</a></li>")))).
Proof. vm_compute. reflexivity. Qed.

(** A file is read only at a path that has [TMP_DIR] as a prefix of its
    characters; any other path is answered with 403 and reads nothing. *)
Lemma forbidden_without_prefix : forall TMP_DIR fs u,
  startsWith u (lit "/tmp/") = true ->
  Js.eqb u (lit "/tmp/") = false ->
  startsWith (Path.join TMP_DIR (replaceFirst u (lit "/tmp/") [])) TMP_DIR = false ->
  requestListener TMP_DIR fs (Some u) = ([], Returns (plain 403 (lit "Forbidden"))).
Proof.
  intros TMP_DIR fs u Hpre Hne Hout.
  destruct u as [|c t]; [discriminate|].
  unfold requestListener. rewrite Hpre, Hne.
  assert (Htmp : Js.eqb (c :: t) (lit "/tmp") = false).
  { destruct (Js.eqb (c :: t) (lit "/tmp")) eqn:E; [|reflexivity].
    apply eqb_eq in E. rewrite E in Hpre. discriminate. }
  rewrite Htmp. cbn [negb orb]. rewrite Hout. reflexivity.
Qed.

Lemma forbidden_example :
  requestListener (lit "/srv/stagehand/tmp") siblingFs (Some (lit "/tmp/../../../etc/passwd"))
  = ([], Returns (plain 403 (lit "Forbidden"))).
Proof. vm_compute. reflexivity. Qed.

(** C2: the code at the failing input.  The artifact directory is
    [/srv/stagehand/tmp]; the request [/tmp/../tmp-backup/secret.html]
    resolves to [/srv/stagehand/tmp-backup/secret.html], which is outside
    the directory but has the name of the directory as a prefix of its
    characters.  The server reads that file and returns its contents with
    status 200. *)
Lemma sibling_directory_is_served :
  Path.join (lit "/srv/stagehand/tmp") (lit "../tmp-backup/secret.html")
  = lit "/srv/stagehand/tmp-backup/secret.html"
  /\ insideDirectory (lit "/srv/stagehand/tmp") (lit "/srv/stagehand/tmp-backup/secret.html")
     = false
  /\ requestListener (lit "/srv/stagehand/tmp") siblingFs
       (Some (lit "/tmp/../tmp-backup/secret.html"))
     = ([ReadFile (lit "/srv/stagehand/tmp-backup/secret.html")],
        Returns (html (lit "contents of a file outside the artifact directory"))).
Proof. vm_compute. repeat split. Qed.

(** ** [stagehand_get_html] *)

Lemma handleToolCall_get_html : forall W args h,
  handleToolCall W (lit "stagehand_get_html") args h =
  try_catch
    (html <- call (EvEvaluate h)
               (evaluateInPage (page_document W h)
                  (fun doc => getHtmlInPage doc
                                (if truthy (selector args) then selector args else None))) ;;
     call EvMkdir (fs_mkdir W) ;;
     call (EvWriteFile (Path.join (TMP_DIR W) (htmlFilename W)))
       (fs_writeFile W (Path.join (TMP_DIR W) (htmlFilename W)) html) ;;
     modify (fun s => with_artifacts
                        (artifacts s ++ [(Path.join (TMP_DIR W) (htmlFilename W), html)]) s) ;;
     ret (mkResult [ Text (lit "HTML saved to: " ++ htmlUrl W) ] false))
    (failure (lit "Failed to get HTML: ")).
Proof. reflexivity. Qed.

Lemma In_firstn : forall (A : Type) n (l : list A) x, In x (firstn n l) -> In x l.
Proof.
  intros A n. induction n as [|n IH]; intros [|y l] x H; simpl in H; try contradiction.
  destruct H as [-> | H]; [left; reflexivity | right; apply IH; exact H].
Qed.

(** The leading token of a selector is its longest prefix without a
    separator. *)
Lemma leadingToken_spec : forall sel,
  exists rest,
    sel = leadingToken sel ++ rest
    /\ Forall (fun c => selectorSeparator c = false) (leadingToken sel)
    /\ (rest = [] \/ exists c r, rest = c :: r /\ selectorSeparator c = true).
Proof.
  induction sel as [|c t IH].
  - exists []. repeat split; [constructor | left; reflexivity].
  - simpl. destruct (selectorSeparator c) eqn:E.
    + exists (c :: t). repeat split; [constructor | right; eauto].
    + destruct IH as [rest [Heq [Hall Hrest]]]. exists rest. repeat split.
      * simpl. congruence.
      * constructor; assumption.
      * exact Hrest.
Qed.

(** The list that the code shows is the one that the words "the first
    five, in document order" describe, and these words describe one list
    only. *)
Lemma FirstMatches_firstn_filter :
  forall (A : Type) (P : A -> Prop) (p : A -> bool),
    (forall x, p x = true <-> P x) ->
    forall l n, FirstMatches P n l (firstn n (filter p l)).
Proof.
  intros A P p Hp. induction l as [|x l IH]; intro n.
  - rewrite firstn_nil. apply FirstMatches_end.
  - destruct n as [|n]; [apply FirstMatches_enough|].
    cbn [filter]. destruct (p x) eqn:E.
    + cbn [firstn]. apply FirstMatches_take; [apply Hp; exact E | apply IH].
    + apply FirstMatches_skip; [|apply IH].
      intro HP. apply Hp in HP. congruence.
Qed.

Lemma FirstMatches_unique :
  forall (A : Type) (P : A -> Prop) n l (a b : list A),
    FirstMatches P n l a -> FirstMatches P n l b -> a = b.
Proof.
  intros A P n l a b Ha. revert b.
  induction Ha as [l|n|n x l shown Hx _ IH|n x l shown Hx _ IH]; intros b Hb.
  - inversion Hb; reflexivity.
  - inversion Hb; reflexivity.
  - inversion Hb; subst.
    + f_equal. apply IH. assumption.
    + contradiction.
  - inversion Hb; subst.
    + contradiction.
    + apply IH. assumption.
Qed.

Lemma similarElements_spec : forall doc sel,
  FirstMatches (sharesLeadingToken doc sel) 5 (allElements doc) (similarElements doc sel).
Proof.
  intros doc sel. unfold similarElements.
  apply FirstMatches_firstn_filter.
  intro el. unfold sharesLeadingToken. split; intro H; apply eqb_eq; exact H.
Qed.

Lemma join_middle : forall sep pre x post,
  pre <> [] -> post <> [] ->
  Js.join sep (pre ++ x :: post) = Js.join sep pre ++ (sep ++ x ++ sep) ++ Js.join sep post.
Proof.
  intros sep pre x post Hpre Hpost.
  induction pre as [|a rest IH]; [congruence|].
  destruct rest as [|b rest].
  - destruct post as [|c post]; [congruence|].
    change (Js.join sep ([a] ++ x :: c :: post))
      with (a ++ sep ++ x ++ sep ++ Js.join sep (c :: post)).
    cbn [Js.join]. rewrite <- !app_assoc. reflexivity.
  - change (Js.join sep ((a :: b :: rest) ++ x :: post))
      with (a ++ sep ++ Js.join sep ((b :: rest) ++ x :: post)).
    rewrite IH by discriminate.
    change (Js.join sep (a :: b :: rest)) with (a ++ sep ++ Js.join sep (b :: rest)).
    rewrite <- !app_assoc. reflexivity.
Qed.

Lemma xpathNotFound_contents : forall doc sel,
  includes (xpathNotFound doc sel) (lit "XPath Element Not Found") = true
  /\ includes (xpathNotFound doc sel) sel = true.
Proof.
  intros doc sel. split.
  - apply includes_join with (x := lit "<h1>XPath Element Not Found</h1>").
    + do 4 right. left. reflexivity.
    + vm_compute. reflexivity.
  - apply includes_join
      with (x := lit "  <li><strong>XPath Selector:</strong> " ++ sel ++ lit "</li>").
    + do 8 right. left. reflexivity.
    + apply includes_app_r, includes_app_l, includes_refl.
Qed.

Lemma cssNotFound_contents : forall doc sel,
  includes (cssNotFound doc sel) (lit "CSS Element Not Found") = true
  /\ includes (cssNotFound doc sel) sel = true
  /\ includes (cssNotFound doc sel)
       (nl ++ lit "  <li><strong>Similar Elements:</strong> "
        ++ shownText doc (similarElements doc sel) ++ lit "</li>" ++ nl) = true.
Proof.
  intros doc sel. split; [|split].
  - apply includes_join with (x := lit "<h1>CSS Element Not Found</h1>").
    + do 4 right. left. reflexivity.
    + vm_compute. reflexivity.
  - apply includes_join
      with (x := lit "  <li><strong>CSS Selector:</strong> " ++ sel ++ lit "</li>").
    + do 8 right. left. reflexivity.
    + apply includes_app_r, includes_app_l, includes_refl.
  - unfold cssNotFound, unlines.
    match goal with
    | |- context [Js.join nl ?l] => rewrite <- (firstn_skipn 12 l)
    end.
    cbn [firstn skipn]. rewrite join_middle by discriminate.
    apply includes_app_r, includes_app_l.
    apply includes_spec. exists [], [].
    unfold shownText, similarText. rewrite app_nil_r. cbn [app].
    rewrite <- !app_assoc. reflexivity.
Qed.

(** C7.  For a selector that is not empty, when the page can be evaluated
    and the file can be written, [stagehand_get_html] returns the single
    text item "HTML saved to: " and the URL, with isError false, and writes
    one file.  When the selector starts with "/", "./" or "//", what is
    written comes from the XPath evaluation: the outer HTML of the element
    found, or, when no element is found, a document that contains "XPath
    Element Not Found" and the selector.  Otherwise it comes from
    [querySelector]: the outer HTML of the element found, or, when none is
    found, a document that contains "CSS Element Not Found", the selector,
    and the line "Similar Elements:" with the rendering of the similar
    elements ("None found" when there is none).  The similar elements are
    the first five elements of the page, in document order, whose tag name
    is, up to case as the page lowers it, the leading token of the
    selector, or all of them when there are fewer; this describes one list
    only. *)
Theorem get_html_selector_dispatch :
  forall (W : World) (args : ToolArgs) (h : handle) (s : State)
         (doc : Document) (sel : jsstring),
    selector args = Some sel ->
    sel <> [] ->
    page_document W h = Returns doc ->
    fs_mkdir W = Returns tt ->
    (forall data,
        fs_writeFile W (Path.join (TMP_DIR W) (htmlFilename W)) data = Returns tt) ->
    exists written s',
      handleToolCall W (lit "stagehand_get_html") args h s
      = (Ok (mkResult [Text (lit "HTML saved to: " ++ htmlUrl W)] false), s')
      /\ artifacts s' = artifacts s ++ [(Path.join (TMP_DIR W) (htmlFilename W), written)]
      /\ (startsWith sel (lit "/") = true \/ startsWith sel (lit "./") = true
          \/ startsWith sel (lit "//") = true ->
          (forall e, evaluateXPath doc sel = Returns (Some (ElementNode e)) ->
                     written = outerHTML e)
          /\ (evaluateXPath doc sel = Returns None
              \/ evaluateXPath doc sel = Returns (Some OtherNode) ->
              includes written (lit "XPath Element Not Found") = true
              /\ includes written sel = true))
      /\ (startsWith sel (lit "/") = false -> startsWith sel (lit "./") = false ->
          startsWith sel (lit "//") = false ->
          (forall e, querySelector doc sel = Returns (Some e) -> written = outerHTML e)
          /\ (querySelector doc sel = Returns None ->
              includes written (lit "CSS Element Not Found") = true
              /\ includes written sel = true
              /\ exists similar,
                   FirstMatches (sharesLeadingToken doc sel) 5 (allElements doc) similar
                   /\ (forall other,
                          FirstMatches (sharesLeadingToken doc sel) 5 (allElements doc)
                            other ->
                          other = similar)
                   /\ includes written
                        (nl ++ lit "  <li><strong>Similar Elements:</strong> "
                         ++ shownText doc similar ++ lit "</li>" ++ nl) = true)).
Proof.
  intros W args h s doc sel Hsel Hne Hdoc Hmkdir Hwrite.
  destruct sel as [|c t]; [congruence|].
  exists (getHtmlInPage doc (Some (c :: t))). eexists.
  split; [|split; [|split]].
  - rewrite handleToolCall_get_html. run_monad.
    rewrite Hsel, Hdoc, Hmkdir, Hwrite. cbn. reflexivity.
  - reflexivity.
  - intros Hx.
    assert (Hxp : isXPathSelector (c :: t) = true).
    { unfold isXPathSelector. destruct Hx as [H | [H | H]]; rewrite H;
        rewrite ?orb_true_r; reflexivity. }
    unfold getHtmlInPage. rewrite Hxp. split.
    + intros e He. rewrite He. reflexivity.
    + intros [He | He]; rewrite He; apply xpathNotFound_contents.
  - intros H1 H2 H3.
    assert (Hxp : isXPathSelector (c :: t) = false).
    { unfold isXPathSelector. rewrite H1, H2, H3. reflexivity. }
    unfold getHtmlInPage. rewrite Hxp. split.
    + intros e He. rewrite He. reflexivity.
    + intros He. rewrite He.
      destruct (cssNotFound_contents doc (c :: t)) as [Ha [Hb Hc]].
      split; [exact Ha|]. split; [exact Hb|].
      exists (similarElements doc (c :: t)).
      split; [apply similarElements_spec|]. split; [|exact Hc].
      intros other Hother.
      exact (FirstMatches_unique _ _ _ _ _ _ Hother (similarElements_spec doc (c :: t))).
Qed.

Lemma get_html_selector_dispatch_witness :
  exists written s',
    handleToolCall (calmWorld hostedEnv []) (lit "stagehand_get_html")
      (mkArgs None None None None (Some (lit "div.card > p"))) 0 liveState
    = (Ok (mkResult [Text (lit "HTML saved to: " ++ htmlUrl (calmWorld hostedEnv []))] false),
       s')
    /\ artifacts s'
       = artifacts liveState
         ++ [(Path.join (TMP_DIR (calmWorld hostedEnv []))
                (htmlFilename (calmWorld hostedEnv [])), written)]
    /\ includes written (lit "CSS Element Not Found") = true
    /\ includes written (lit "div.card > p") = true
    /\ includes written
         (nl ++ lit "  <li><strong>Similar Elements:</strong> &lt;div id=" ++ dq ++ lit "a"
          ++ dq ++ lit " class=" ++ dq ++ lit "box" ++ dq ++ lit "&gt;</li>" ++ nl) = true.
Proof.
  assert (Hne : lit "div.card > p" <> []) by discriminate.
  destruct (get_html_selector_dispatch (calmWorld hostedEnv [])
              (mkArgs None None None None (Some (lit "div.card > p"))) 0 liveState
              samplePage (lit "div.card > p")
              eq_refl Hne eq_refl eq_refl (fun _ => eq_refl))
    as [written [s' [Hcall [Hart [_ Hcss]]]]].
  exists written, s'.
  destruct (Hcss eq_refl eq_refl eq_refl) as [_ Hnone].
  destruct (Hnone eq_refl) as [Ha [Hb [similar [_ [Hone Hline]]]]].
  split; [exact Hcall|]. split; [exact Hart|]. split; [exact Ha|]. split; [exact Hb|].
  rewrite <- (Hone [mkElement (lit "DIV") (lit "a") (lit "box") (lit "<div></div>")])
    in Hline.
  - exact Hline.
  - apply FirstMatches_skip; [intro H; vm_compute in H; discriminate H|].
    apply FirstMatches_skip; [intro H; vm_compute in H; discriminate H|].
    apply FirstMatches_take; [reflexivity|].
    apply FirstMatches_end.
Defined.

(* ================================================================= *)
(** * Further properties of the code *)

Import Resources ToolEvents Startup PathSpec MoreExamples.

(** ** [handleToolCall] as a whole *)

Lemma eqb_sym : forall a b, Js.eqb a b = Js.eqb b a.
Proof.
  intros a b. destruct (Js.eqb a b) eqn:E1, (Js.eqb b a) eqn:E2; try reflexivity.
  - apply eqb_eq in E1. subst. rewrite eqb_refl in E2. discriminate.
  - apply eqb_eq in E2. subst. rewrite eqb_refl in E1. discriminate.
Qed.







(** X2.  An image item appears in an envelope of [handleToolCall] only for
    the tool [screenshot], only when the call succeeded, and it holds the
    capture of the page as [image/png]. *)
Theorem image_only_from_screenshot :
  forall (W : World) (toolName : jsstring) (args : ToolArgs) (h : handle) (s s' : State)
         (r : CallToolResult) (data mime : jsstring),
    handleToolCall W toolName args h s = (Ok r, s') ->
    In (Image data mime) (content r) ->
    toolName = lit "screenshot"
    /\ isError r = false
    /\ mime = lit "image/png"
    /\ page_screenshot W h = Returns data.
Proof.
  intros W toolName args h s s' r data mime Hcall Hin.
  unfold handleToolCall in Hcall.
  repeat match type of Hcall with
         | context [if Js.eqb toolName ?l then _ else _] =>
             let E := fresh "Ename" in destruct (Js.eqb toolName l) eqn:E
         end;
    run_monad in Hcall; cbn in Hcall;
    repeat match type of Hcall with
           | context [match ?o with Returns _ => _ | Throws _ => _ end] =>
               let E := fresh "Eout" in destruct o eqn:E; cbn in Hcall
           | context [match ?o with Some _ => _ | None => _ end] =>
               let E := fresh "Eopt" in destruct o eqn:E; cbn in Hcall
           end;
    try discriminate Hcall;
    injection Hcall as <- <-; cbn in Hin;
    repeat match goal with
           | H : _ \/ _ |- _ => destruct H
           | H : False |- _ => destruct H
           | H : Text _ = Image _ _ |- _ => discriminate H
           | H : Image _ _ = Image _ _ |- _ => injection H as <- <-
           end;
    (split; [apply eqb_eq; assumption|]); auto.
Qed.

Lemma image_only_from_screenshot_witness :
  lit "screenshot" = lit "screenshot"
  /\ isError (mkResult
                [ Text (lit "Screenshot taken with name: screenshot-2024-01-01T00-00-00.000Z");
                  Image (lit "iVBORw0KGgo=") (lit "image/png") ] false) = false
  /\ lit "image/png" = lit "image/png"
  /\ page_screenshot (calmWorld hostedEnv []) 0 = Returns (lit "iVBORw0KGgo=").
Proof.
  apply (image_only_from_screenshot (calmWorld hostedEnv []) (lit "screenshot") noArgs 0
           liveState
           (with_screenshots
              [(lit "screenshot-2024-01-01T00-00-00.000Z", lit "iVBORw0KGgo=")]
              (with_events (events liveState ++ [EvScreenshot 0]) liveState))
           (mkResult
              [ Text (lit "Screenshot taken with name: screenshot-2024-01-01T00-00-00.000Z");
                Image (lit "iVBORw0KGgo=") (lit "image/png") ] false)
           (lit "iVBORw0KGgo=") (lit "image/png")).
  - vm_compute. reflexivity.
  - right. left. reflexivity.
Defined.

Lemma inRegistry_cases : forall n,
  inRegistry n =
  Js.eqb n (lit "stagehand_navigate") || (Js.eqb n (lit "stagehand_act")
  || (Js.eqb n (lit "stagehand_extract") || (Js.eqb n (lit "stagehand_observe")
  || (Js.eqb n (lit "stagehand_get_html") || (Js.eqb n (lit "screenshot") || false))))).
Proof.
  intro n. unfold inRegistry, TOOLS. cbn [existsb Tools.name].
  rewrite !(eqb_sym _ n). reflexivity.
Qed.

(** X3.  The registry and the [switch] of [handleToolCall] agree.  For a
    name that is not in [TOOLS] the answer is the envelope "Unknown tool: "
    with the name and the operation log, isError true, and nothing is
    called; for a name that is in [TOOLS] the first item of the answer
    never is an "Unknown tool: " text. *)
Theorem registry_matches_switch :
  forall (W : World) (toolName : jsstring) (args : ToolArgs) (h : handle) (s : State),
    (inRegistry toolName = false ->
     handleToolCall W toolName args h s
     = (Ok (mkResult [ Text (lit "Unknown tool: " ++ toolName);
                       Text (operationLogsText s) ] true), s))
    /\ (inRegistry toolName = true ->
        forall r s' text rest,
          handleToolCall W toolName args h s = (Ok r, s') ->
          content r = Text text :: rest ->
          startsWith text (lit "Unknown tool: ") = false).
Proof.
  intros W toolName args h s. rewrite inRegistry_cases. split.
  - intro Hout. rewrite !orb_false_iff in Hout.
    destruct Hout as [E1 [E2 [E3 [E4 [E5 [E6 _]]]]]].
    unfold handleToolCall. rewrite E1, E2, E3, E4, E5, E6. reflexivity.
  - intros Hin r s' text rest Hcall Hcontent.
    unfold handleToolCall in Hcall.
    repeat match type of Hcall with
           | context [if Js.eqb toolName ?l then _ else _] =>
               let E := fresh "Ename" in destruct (Js.eqb toolName l) eqn:E
           end;
      try (cbn in Hin; discriminate Hin);
      run_monad in Hcall; cbn in Hcall;
      repeat match type of Hcall with
             | context [match ?o with Returns _ => _ | Throws _ => _ end] =>
                 destruct o; cbn in Hcall
             | context [match ?o with Some _ => _ | None => _ end] =>
                 destruct o; cbn in Hcall
             end;
      try discriminate Hcall;
      injection Hcall as <- <-; cbn in Hcontent; injection Hcontent as <- <-;
      reflexivity.
Qed.

Lemma registry_matches_switch_witness :
  handleToolCall (calmWorld hostedEnv []) (lit "stagehand_click") noArgs 0 liveState
  = (Ok (mkResult [ Text (lit "Unknown tool: " ++ lit "stagehand_click");
                    Text (operationLogsText liveState) ] true), liveState)
  /\ startsWith (lit "Navigated to: https://example.com/") (lit "Unknown tool: ") = false.
Proof.
  split.
  - apply (proj1 (registry_matches_switch (calmWorld hostedEnv []) (lit "stagehand_click")
                    noArgs 0 liveState)).
    reflexivity.
  - apply (proj2 (registry_matches_switch (calmWorld hostedEnv [])
                    (lit "stagehand_navigate")
                    (mkArgs (Some (lit "https://example.com/")) None None None None)
                    0 liveState)
             eq_refl
             (mkResult
                [ Text (lit "Navigated to: https://example.com/");
                  Text (lit "View the live session here: https://browserbase.com/sessions/sess_1") ]
                false)
             (with_events (events liveState ++ [EvGoto 0]) liveState)
             (lit "Navigated to: https://example.com/")
             [ Text (lit "View the live session here: https://browserbase.com/sessions/sess_1") ]).
    + vm_compute. reflexivity.
    + reflexivity.
Defined.

(** ** The store of screenshots *)

Lemma mapGet_mapSet_same : forall k v m, mapGet k (mapSet k v m) = Some v.
Proof.
  intros k v. induction m as [|[k' v'] m IH]; simpl.
  - rewrite eqb_refl. reflexivity.
  - destruct (Js.eqb k' k) eqn:E; simpl; rewrite E; [reflexivity | exact IH].
Qed.

Lemma mapGet_mapSet_other : forall k k' v m,
  k' <> k -> mapGet k' (mapSet k v m) = mapGet k' m.
Proof.
  intros k k' v m Hne. induction m as [|[k0 v0] m IH]; simpl.
  - destruct (Js.eqb k k') eqn:E; [|reflexivity].
    apply eqb_eq in E. congruence.
  - destruct (Js.eqb k0 k) eqn:E; simpl.
    + apply eqb_eq in E. subst k0.
      destruct (Js.eqb k k') eqn:E'; [|reflexivity].
      apply eqb_eq in E'. congruence.
    + rewrite IH. reflexivity.
Qed.

Lemma mapKeys_mapSet : forall k v m,
  mapKeys (mapSet k v m) = if existsb (fun k' => Js.eqb k' k) (mapKeys m)
                           then mapKeys m else mapKeys m ++ [k].
Proof.
  intros k v. induction m as [|[k' v'] m IH]; simpl; [reflexivity|].
  destruct (Js.eqb k' k) eqn:E; simpl; [reflexivity|].
  unfold mapKeys in *. rewrite IH.
  destruct (existsb (fun k'0 => Js.eqb k'0 k) (map fst m)); reflexivity.
Qed.

Lemma replaceAllChar_removes : forall c d s, c <> d -> ~ In c (replaceAllChar c d s).
Proof.
  intros c d s Hne Hin. unfold replaceAllChar in Hin.
  apply in_map_iff in Hin. destruct Hin as [x [Hx _]].
  destruct (N.eqb x c) eqn:E.
  - congruence.
  - apply N.eqb_neq in E. congruence.
Qed.

Lemma handleToolCall_screenshot : forall W args h,
  handleToolCall W (lit "screenshot") args h =
  try_catch
    (screenshotBase64 <- call (EvScreenshot h) (page_screenshot W h) ;;
     modify (fun s => with_screenshots
                        (mapSet (lit "screenshot-"
                                 ++ replaceAllChar (ch ":") (ch "-") (date_iso W))
                           screenshotBase64 (screenshots s)) s) ;;
     match server_notification W with
     | Some o => call EvNotify o
     | None => ret tt
     end ;;
     ret (mkResult
            [ Text (lit "Screenshot taken with name: "
                    ++ (lit "screenshot-" ++ replaceAllChar (ch ":") (ch "-") (date_iso W)));
              Image screenshotBase64 (lit "image/png") ]
            false))
    (failure (lit "Failed to take screenshot: ")).
Proof. reflexivity. Qed.

(** X4.  When the capture succeeds, the tool [screenshot] stores it under
    the name "screenshot-" followed by the ISO time with every colon
    replaced by a hyphen: that name holds no colon, reading the store at
    the name gives back the capture that the envelope carries, every other
    name reads as before, and a name that was in the store already keeps
    its place (the store does not grow).  This holds even when the
    notification to the client throws, although the envelope then is an
    error envelope. *)
Theorem screenshot_is_stored :
  forall (W : World) (args : ToolArgs) (h : handle) (s : State) (data : jsstring),
    page_screenshot W h = Returns data ->
    exists r s',
      handleToolCall W (lit "screenshot") args h s = (Ok r, s')
      /\ ~ In (ch ":") (lit "screenshot-" ++ replaceAllChar (ch ":") (ch "-") (date_iso W))
      /\ mapGet (lit "screenshot-" ++ replaceAllChar (ch ":") (ch "-") (date_iso W))
           (screenshots s') = Some data
      /\ (forall k,
             k <> lit "screenshot-" ++ replaceAllChar (ch ":") (ch "-") (date_iso W) ->
             mapGet k (screenshots s') = mapGet k (screenshots s))
      /\ (mapGet (lit "screenshot-" ++ replaceAllChar (ch ":") (ch "-") (date_iso W))
            (screenshots s) <> None ->
          mapKeys (screenshots s') = mapKeys (screenshots s))
      /\ ((server_notification W = None \/ server_notification W = Some (Returns tt)) ->
          r = mkResult
                [ Text (lit "Screenshot taken with name: "
                        ++ (lit "screenshot-"
                            ++ replaceAllChar (ch ":") (ch "-") (date_iso W)));
                  Image data (lit "image/png") ] false)
      /\ (forall err, server_notification W = Some (Throws err) ->
          r = mkResult
                [ Text (lit "Failed to take screenshot: " ++ errorMsg err);
                  Text (operationLogsText s) ] true).
Proof.
  intros W args h s data Hshot.
  set (name := lit "screenshot-" ++ replaceAllChar (ch ":") (ch "-") (date_iso W)).
  assert (Hstore : forall evs,
            mapGet name (screenshots
                           (with_events evs
                              (with_screenshots (mapSet name data (screenshots s)) s)))
            = Some data).
  { intro evs. cbn. apply mapGet_mapSet_same. }
  assert (Hcolon : ~ In (ch ":") name).
  { unfold name. intro Hin. apply in_app_or in Hin. destruct Hin as [Hin | Hin].
    - vm_compute in Hin. repeat (destruct Hin as [Hin | Hin]; [discriminate|]). exact Hin.
    - revert Hin. apply replaceAllChar_removes. discriminate. }
  assert (Hkeys : forall m, mapGet name m <> None ->
                            mapKeys (mapSet name data m) = mapKeys m).
  { intros m Hm. rewrite mapKeys_mapSet.
    assert (He : existsb (fun k' => Js.eqb k' name) (mapKeys m) = true).
    { induction m as [|[k v] m IH]; simpl in *; [congruence|].
      destruct (Js.eqb k name); [reflexivity | apply IH; exact Hm]. }
    rewrite He. reflexivity. }
  rewrite handleToolCall_screenshot. fold name. run_monad. rewrite Hshot.
  destruct (server_notification W) as [[u|err]|] eqn:Hn; cbn;
    do 2 eexists; (split; [reflexivity|]); cbn;
    (split; [exact Hcolon|]);
    (split; [apply mapGet_mapSet_same|]);
    (split; [intros k Hk; apply mapGet_mapSet_other; exact Hk|]);
    (split; [apply Hkeys|]).
  - split; [intros _; destruct u; reflexivity | intros e He; discriminate].
  - split; [intros [H | H]; discriminate | intros e He; injection He as <-; reflexivity].
  - split; [intros _; reflexivity | intros e He; discriminate].
Qed.

Lemma screenshot_is_stored_witness :
  exists r s',
    handleToolCall (calmWorld hostedEnv []) (lit "screenshot") noArgs 0 liveState = (Ok r, s')
    /\ mapGet (lit "screenshot-2024-01-01T00-00-00.000Z") (screenshots s')
       = Some (lit "iVBORw0KGgo=")
    /\ r = mkResult
             [ Text (lit "Screenshot taken with name: screenshot-2024-01-01T00-00-00.000Z");
               Image (lit "iVBORw0KGgo=") (lit "image/png") ] false.
Proof.
  destruct (screenshot_is_stored (calmWorld hostedEnv []) noArgs 0 liveState
              (lit "iVBORw0KGgo=") eq_refl)
    as [r [s' [Hcall [_ [Hget [_ [_ [Hok _]]]]]]]].
  exists r, s'. split; [exact Hcall|]. split; [exact Hget|].
  apply Hok. left. reflexivity.
Defined.

(** ** The dispatcher as a whole *)

(** The handler, step by step. *)
Lemma callTool_steps : forall W config params s,
  callTool W config params s =
  if negb (truthy (params_name params)) || negb (inRegistry (tpl (params_name params)))
  then (ErrorObject (-32603)%Z
          (lit "Internal error: Invalid tool name: " ++ tpl (params_name params)),
        with_operationLogs [] s)
  else
    match ensureStagehand W config (with_operationLogs [] s) with
    | (Err err, s1) =>
        (Envelope
           (mkResult
              [ Text (lit "Failed to initialize Stagehand: " ++ errorMsg err ++ lit "."
                      ++ nl ++ nl ++ lit "Config: " ++ stringify (configJson config) 2);
                Text (operationLogsText s1) ]
              true),
         s1)
    | (Ok h, s1) =>
        match handleToolCall W (tpl (params_name params))
                (match params_arguments params with Some a => a | None => noArgs end)
                h (with_stagehand (Some h) s1) with
        | (Err err, s2) =>
            (ErrorObject (-32603)%Z (lit "Internal error: " ++ errorMsg err), s2)
        | (Ok result, s2) =>
            match sanitizeRoundTrip W result with
            | Throws err =>
                (ErrorObject (-32603)%Z (lit "Internal error: " ++ errorMsg err), s2)
            | Returns r =>
                (Envelope r,
                 with_operationLogs
                   (operationLogs s2
                    ++ [formatLog W (responseLogMessage W (lit "CallTool")) debug])
                   s2)
            end
        end
    end.
Proof.
  intros W config params s.
  unfold callTool, callToolBody, initFailureEnvelope.
  unfold bind at 1. unfold logRequest, log, modify at 1.
  unfold bind at 1. unfold modify at 1.
  change (with_operationLogs []
            (with_operationLogs
               (operationLogs s ++ [formatLog W (requestLogMessage W (lit "CallTool")) debug])
               s))
    with (with_operationLogs [] s).
  unfold bind at 1.
  destruct (negb (truthy (params_name params))
            || negb (inRegistry (tpl (params_name params)))); [reflexivity|].
  unfold ret at 1. unfold bind at 1. unfold try_catch at 1. unfold bind at 1.
  destruct (ensureStagehand W config (with_operationLogs [] s)) as [[h|err] s1];
    [|reflexivity].
  unfold bind at 1. unfold modify at 1. unfold ret at 1. unfold bind at 1.
  destruct (handleToolCall W (tpl (params_name params))
              (match params_arguments params with Some a => a | None => noArgs end)
              h (with_stagehand (Some h) s1)) as [[result|err] s2]; [|reflexivity].
  unfold bind, logResponse, log, modify, ret.
  destruct (sanitizeRoundTrip W result); reflexivity.
Qed.

(** X5.  The operation log is cleared at the start of every call: two
    states that differ in the operation log only give the same answer and
    the same state afterwards, so that no line of an earlier call can show
    in an envelope. *)
Theorem callTool_forgets_earlier_log :
  forall (W : World) (config : ConstructorParams) (params : CallToolParams)
         (s : State) (earlier : list jsstring),
    callTool W config params (with_operationLogs earlier s) = callTool W config params s.
Proof.
  intros W config params s earlier. rewrite !callTool_steps. reflexivity.
Qed.

Ltac conjuncts := repeat match goal with |- _ /\ _ => split end.

Ltac effect_goal :=
  cbn; intros;
  repeat match goal with
         | H : Some _ = Some _ |- _ => injection H as <-
         | H : Ok _ = Ok _ |- _ => injection H as <-
         end;
  cbn;
  repeat match goal with
         | H : stagehand ?s = _ |- context [stagehand ?s] => rewrite H
         end;
  conjuncts;
  first [ lia | reflexivity | congruence | discriminate | assumption
        | solve [eexists; first [ symmetry; apply app_nil_r
                               | rewrite <- ?app_assoc; reflexivity ]] ].

(** What [ensureStagehand] does to the state, whatever happens. *)
Lemma ensureStagehand_effect : forall W config s r s',
  ensureStagehand W config s = (r, s') ->
  constructed s <= constructed s' <= S (constructed s)
  /\ (exists evs, events s' = events s ++ evs)
  /\ (exists lines, operationLogs s' = operationLogs s ++ lines)
  /\ screenshots s' = screenshots s
  /\ artifacts s' = artifacts s
  /\ (forall h, stagehand s = Some h -> page_probe W h = Returns tt ->
                localWithoutCdpUrl config = false ->
                r = Ok h /\ stagehand s' = Some h /\ constructed s' = constructed s
                /\ operationLogs s' = operationLogs s)
  /\ (forall h, r = Ok h -> stagehand s' = Some h)
  /\ (localWithoutCdpUrl config = false -> stagehand s' <> None).
Proof.
  intros W config s r s' E.
  unfold ensureStagehand in E.
  destruct (localWithoutCdpUrl config) eqn:Hcfg.
  - cbn in E. injection E as <- <-. conjuncts; effect_goal.
  - unfold createAndInit in E. run_monad in E. cbn in E.
    destruct (stagehand s) as [h0|] eqn:Hs.
    + destruct (page_probe W h0) as [u|err] eqn:Hp; cbn in E.
      * injection E as <- <-. conjuncts; effect_goal.
      * destruct (sessionInvalidated err); cbn in E.
        -- destruct (stagehand_init W (constructed s)); cbn in E;
             injection E as <- <-; conjuncts; effect_goal.
        -- injection E as <- <-. conjuncts; effect_goal.
    + destruct (stagehand_init W (constructed s)); cbn in E;
        injection E as <- <-; conjuncts; effect_goal.
Qed.



(** X7.  One call constructs at most one [Stagehand] object, and a session
    whose probe succeeds is kept: the handle after the call is the handle
    before it and nothing was constructed. *)
Theorem callTool_session_economy :
  forall (W : World) (config : ConstructorParams) (params : CallToolParams) (s : State),
    constructed s <= constructed (snd (callTool W config params s)) <= S (constructed s)
    /\ (forall h,
           wellFormed config s ->
           stagehand s = Some h ->
           page_probe W h = Returns tt ->
           stagehand (snd (callTool W config params s)) = Some h
           /\ constructed (snd (callTool W config params s)) = constructed s).
Proof.
  intros W config params s. rewrite callTool_steps.
  destruct (negb (truthy (params_name params))
            || negb (inRegistry (tpl (params_name params)))).
  - cbn. split; [lia|]. intros h _ Hh _. auto.
  - destruct (ensureStagehand W config (with_operationLogs [] s)) as [r s1] eqn:He.
    pose proof (ensureStagehand_effect W config _ r s1 He)
      as [Hc [_ [_ [_ [_ [Hlive [Hok _]]]]]]].
    cbn in Hc.
    assert (Hlive' : forall h, wellFormed config s -> stagehand s = Some h ->
                               page_probe W h = Returns tt ->
                               r = Ok h /\ stagehand s1 = Some h
                               /\ constructed s1 = constructed s).
    { intros h Hwf Hh Hp. destruct (Hwf h Hh) as [_ Hcfg].
      destruct (Hlive h Hh Hp Hcfg) as [H1 [H2 [H3 _]]]. auto. }
    destruct r as [h|err].
    + destruct (handleToolCall_frame W (tpl (params_name params))
                  (match params_arguments params with Some a => a | None => noArgs end)
                  h (with_stagehand (Some h) s1)) as [r [s2 [Hh [Hs2 [Hc2 _]]]]].
      rewrite Hh. cbn in Hs2, Hc2.
      destruct r as [r|typeError];
        [destruct (sanitizeRoundTrip W r)|]; cbn; rewrite ?Hc2, ?Hs2.
      * split; [lia|]. intros h0 Hwf H0 Hp.
        destruct (Hlive' h0 Hwf H0 Hp) as [Hr [_ Hcs]].
        injection Hr as ->. auto.
      * split; [lia|]. intros h0 Hwf H0 Hp.
        destruct (Hlive' h0 Hwf H0 Hp) as [Hr [_ Hcs]].
        injection Hr as ->. auto.
      * split; [lia|]. intros h0 Hwf H0 Hp.
        destruct (Hlive' h0 Hwf H0 Hp) as [Hr [_ Hcs]].
        injection Hr as ->. auto.
    + cbn. split; [lia|]. intros h0 Hwf H0 Hp.
      destruct (Hlive' h0 Hwf H0 Hp) as [Hr _]. discriminate.
Qed.

Lemma callTool_session_economy_witness :
  stagehand (snd (callTool (calmWorld hostedEnv []) (stagehandConfig (calmWorld hostedEnv []))
                    navigateExample liveState)) = Some 0
  /\ constructed (snd (callTool (calmWorld hostedEnv [])
                         (stagehandConfig (calmWorld hostedEnv []))
                         navigateExample liveState)) = constructed liveState.
Proof.
  apply (proj2 (callTool_session_economy (calmWorld hostedEnv [])
                  (stagehandConfig (calmWorld hostedEnv [])) navigateExample liveState) 0).
  - intros h Hh. injection Hh as <-. split; [apply le_n | reflexivity].
  - reflexivity.
  - reflexivity.
Defined.

(** X8.  The first call of [ensureStagehand], under a usable configuration:
    it constructs one [Stagehand], stores it and initializes it.  When the
    initialization succeeds the new handle is returned and the operation
    log is as before.  When it throws, the thrown value is thrown again,
    one line "Failed to initialize/reinitialize Stagehand: " with the
    message is logged, and the object that could not be initialized stays
    in [stagehand]: the next call does not construct another one but
    starts by probing that object. *)
Theorem ensureStagehand_first_call :
  forall (W : World) (config : ConstructorParams) (s : State),
    localWithoutCdpUrl config = false ->
    stagehand s = None ->
    (stagehand_init W (constructed s) = Returns tt ->
     exists s',
       ensureStagehand W config s = (Ok (constructed s), s')
       /\ stagehand s' = Some (constructed s)
       /\ constructed s' = S (constructed s)
       /\ operationLogs s' = operationLogs s
       /\ events s' = events s ++ [EvNew (constructed s); EvInit (constructed s)])
    /\ (forall err,
           stagehand_init W (constructed s) = Throws err ->
           exists s',
             ensureStagehand W config s = (Err err, s')
             /\ stagehand s' = Some (constructed s)
             /\ constructed s' = S (constructed s)
             /\ operationLogs s'
                = operationLogs s
                  ++ [formatLog W (lit "Failed to initialize/reinitialize Stagehand: "
                                   ++ errorMsg err) error]
             /\ events s' = events s ++ [EvNew (constructed s); EvInit (constructed s)]
             /\ forall W2,
                  exists evs,
                    events (snd (ensureStagehand W2 config s'))
                    = events s' ++ EvProbe (constructed s) :: evs).
Proof.
  intros W config s Hcfg Hs. split.
  - intro Hinit.
    unfold ensureStagehand. rewrite Hcfg.
    unfold createAndInit. run_monad. rewrite Hs. cbn. rewrite Hinit. cbn.
    eexists. split; [reflexivity|]. cbn.
    repeat split. rewrite <- app_assoc. reflexivity.
  - intros err Hinit.
    unfold ensureStagehand. rewrite Hcfg.
    unfold createAndInit. run_monad. rewrite Hs. cbn. rewrite Hinit. cbn.
    eexists. split; [reflexivity|]. cbn.
    split; [reflexivity|]. split; [reflexivity|]. split; [reflexivity|].
    split; [rewrite <- app_assoc; reflexivity|].
    intro W2. cbn.
    destruct (page_probe W2 (constructed s)) as [u|e2]; cbn.
    + exists []. reflexivity.
    + destruct (sessionInvalidated e2); cbn.
      * destruct (stagehand_init W2 (S (constructed s))); cbn;
          eexists; rewrite <- ?app_assoc; reflexivity.
      * exists []. reflexivity.
Qed.

Lemma ensureStagehand_first_call_witness :
  (exists s',
     ensureStagehand (calmWorld hostedEnv []) (stagehandConfig (calmWorld hostedEnv []))
       initialState = (Ok 0, s')
     /\ stagehand s' = Some 0
     /\ constructed s' = 1
     /\ operationLogs s' = []
     /\ events s' = [EvNew 0; EvInit 0])
  /\ (exists s',
        ensureStagehand (initFailsWorld hostedEnv (ErrorObj (lit "connect ECONNREFUSED")))
          (stagehandConfig (calmWorld hostedEnv [])) initialState
        = (Err (ErrorObj (lit "connect ECONNREFUSED")), s')
        /\ stagehand s' = Some 0
        /\ operationLogs s'
           = [lit "Failed to initialize/reinitialize Stagehand: connect ECONNREFUSED"]).
Proof.
  split.
  - apply (proj1 (ensureStagehand_first_call (calmWorld hostedEnv [])
                    (stagehandConfig (calmWorld hostedEnv [])) initialState
                    eq_refl eq_refl)).
    reflexivity.
  - destruct (proj2 (ensureStagehand_first_call
                       (initFailsWorld hostedEnv (ErrorObj (lit "connect ECONNREFUSED")))
                       (stagehandConfig (calmWorld hostedEnv [])) initialState
                       eq_refl eq_refl)
                (ErrorObj (lit "connect ECONNREFUSED")) eq_refl)
      as [s' [Hcall [Hs [_ [Hlogs _]]]]].
    exists s'. split; [exact Hcall|]. split; [exact Hs | exact Hlogs].
Defined.

(** The configuration of a process admits no session exactly when the
    process has not both Browserbase variables and has no CDP URL. *)
Lemma stagehandConfig_unusable : forall W,
  localWithoutCdpUrl (stagehandConfig W)
  = negb (truthy (BROWSERBASE_API_KEY (processEnv W))
          && truthy (BROWSERBASE_PROJECT_ID (processEnv W)))
    && negb (truthy (LOCAL_CDP_URL (processEnv W))).
Proof.
  intro W. unfold localWithoutCdpUrl, stagehandConfig. cbn.
  destruct (truthy (BROWSERBASE_API_KEY (processEnv W))
            && truthy (BROWSERBASE_PROJECT_ID (processEnv W))); cbn; [reflexivity|].
  destruct (truthy (LOCAL_CDP_URL (processEnv W))) eqn:E; cbn; [rewrite E|]; reflexivity.
Qed.

(** X9.  In a process that has not both [BROWSERBASE_API_KEY] and
    [BROWSERBASE_PROJECT_ID] (each set and not empty) and has no
    [LOCAL_CDP_URL], every call of a registered tool is answered with the
    error envelope "Failed to initialize Stagehand: " with the CDP-URL
    message and the configuration, and with an empty operation log; no call
    is made into the automation library and the state is the one before,
    with the log cleared. *)
Theorem unconfigured_process_fails_every_call :
  forall (W : World) (n : jsstring) (args : option ToolArgs) (s : State),
    truthy (BROWSERBASE_API_KEY (processEnv W))
    && truthy (BROWSERBASE_PROJECT_ID (processEnv W)) = false ->
    truthy (LOCAL_CDP_URL (processEnv W)) = false ->
    In n (map Tools.name TOOLS) ->
    callTool W (stagehandConfig W) (mkParams (Some n) args) s
    = (Envelope
         (mkResult
            [ Text (lit "Failed to initialize Stagehand: " ++ cdpUrlMissingMessage ++ lit "."
                    ++ nl ++ nl ++ lit "Config: "
                    ++ stringify (configJson (stagehandConfig W)) 2);
              Text (lit "Operation logs:" ++ nl) ]
            true),
       with_operationLogs [] s).
Proof.
  intros W n args s Hhosted Hcdp Hin.
  apply (init_failure_envelope W (stagehandConfig W) n args s
           (ErrorObj cdpUrlMissingMessage) (with_operationLogs [] s) Hin).
  unfold ensureStagehand. rewrite stagehandConfig_unusable, Hhosted, Hcdp. reflexivity.
Qed.

Lemma unconfigured_process_fails_every_call_witness :
  callTool (calmWorld emptyEnv []) (stagehandConfig (calmWorld emptyEnv []))
    (mkParams (Some (lit "screenshot")) None) liveState
  = (Envelope
       (mkResult
          [ Text (lit "Failed to initialize Stagehand: " ++ cdpUrlMissingMessage ++ lit "."
                  ++ nl ++ nl ++ lit "Config: "
                  ++ stringify (configJson (stagehandConfig (calmWorld emptyEnv []))) 2);
            Text (lit "Operation logs:" ++ nl) ]
          true),
     with_operationLogs [] liveState).
Proof.
  apply (unconfigured_process_fails_every_call (calmWorld emptyEnv []) (lit "screenshot")
           None liveState); try reflexivity.
  do 5 right. left. reflexivity.
Defined.

(** ** The request listener of the static server *)

Ltac listener_leaf :=
  conjuncts;
  first [ lia
        | solve [repeat constructor; auto]
        | solve [intros u Hu Hp;
                 first [ reflexivity | discriminate | injection Hu as <-; congruence ]]
        | solve [intros r Hr; injection Hr as <-; cbn;
                 split; [tauto | split; intro H; first [reflexivity | discriminate]]]
        | idtac ].

(** X10.  Whatever the request is, the listener starts at most one read of
    the file system; a directory is read only at [TMP_DIR] and a file only
    at a path that has [TMP_DIR] as a prefix of its characters; a URL that
    does not start with [/tmp/] starts no read.  An answer has one of the
    statuses 200, 400, 403, 404 and 500, and it carries the content type
    [text/html] exactly when the status is 200. *)
Theorem requestListener_reads_and_statuses :
  forall (TMP_DIR : jsstring) (fs : FileSystem) (url : option jsstring),
    length (fst (requestListener TMP_DIR fs url)) <= 1
    /\ Forall (fun r => match r with
                        | ReadDir d => d = TMP_DIR
                        | ReadFile p => startsWith p TMP_DIR = true
                        end)
         (fst (requestListener TMP_DIR fs url))
    /\ (forall u, url = Some u -> startsWith u (lit "/tmp/") = false ->
                  fst (requestListener TMP_DIR fs url) = [])
    /\ (forall r, snd (requestListener TMP_DIR fs url) = Returns r ->
                  In (status r) [200; 400; 403; 404; 500]%N
                  /\ (status r = 200%N <-> contentType r = Some (lit "text/html"))).
Proof.
  intros TMP_DIR fs url. unfold requestListener.
  destruct url as [[|c t]|].
  - cbn [fst snd length]. listener_leaf.
  - destruct (startsWith (c :: t) (lit "/tmp/")) eqn:Hpre; cbn [negb].
    + destruct (Js.eqb (c :: t) (lit "/tmp/") || Js.eqb (c :: t) (lit "/tmp")).
      * cbn [fst snd length]. listener_leaf.
        intros r Hr. unfold directoryListing in Hr.
        destruct (readdir fs TMP_DIR) as [files|e].
        -- destruct (mapLinks (filter notHidden files)); [|discriminate].
           injection Hr as <-. cbn. split; [tauto|]. split; reflexivity.
        -- injection Hr as <-. cbn. split; [tauto|].
           split; intro H; discriminate.
      * destruct (startsWith (Path.join TMP_DIR (replaceFirst (c :: t) (lit "/tmp/") []))
                    TMP_DIR) eqn:Hin; cbn [negb fst snd length]; listener_leaf.
        intros r Hr. injection Hr as <-. unfold fileResponse.
        destruct (readFile fs _); cbn.
        -- split; [tauto|]. split; reflexivity.
        -- split; [tauto|]. split; intro H; discriminate.
    + cbn [fst snd length]. listener_leaf.
  - cbn [fst snd length]. listener_leaf.
Qed.

Lemma requestListener_reads_and_statuses_witness :
  fst (requestListener (lit "/srv/stagehand/tmp") siblingFs (Some (lit "/index.html"))) = [].
Proof.
  apply (proj1 (proj2 (proj2 (requestListener_reads_and_statuses
                                (lit "/srv/stagehand/tmp") siblingFs
                                (Some (lit "/index.html")))))
           (lit "/index.html")); reflexivity.
Defined.

Lemma encodeURIComponent_unreserved : forall f,
  Forall (fun c => uriUnreserved c = true) f -> encodeURIComponent f = Returns f.
Proof.
  induction f as [|c t IH]; intro H; [reflexivity|].
  inversion H as [|? ? Hc Ht]; subst.
  cbn [encodeURIComponent]. rewrite Hc, (IH Ht). reflexivity.
Qed.

Lemma mapLinks_unreserved : forall files,
  Forall (fun f => Forall (fun c => uriUnreserved c = true) f) files ->
  mapLinks files
  = Returns (map (fun f => lit "<li><a href=" ++ dq ++ lit "/tmp/" ++ f ++ dq ++ lit ">"
                           ++ f ++ lit "</a></li>") files).
Proof.
  induction files as [|f rest IH]; intro H; [reflexivity|].
  inversion H as [|? ? Hf Hrest]; subst.
  cbn [mapLinks map]. unfold link. rewrite (encodeURIComponent_unreserved f Hf).
  rewrite (IH Hrest). reflexivity.
Qed.

(** X11.  The listing of [/tmp/] depends on the entries that are not
    hidden only: two directories with the same entries apart from those
    that start with a dot get the same answer.  When the names of these
    entries are made of letters, digits and [-_.!~*'()] (as the names of
    the artifacts are), the answer is the page with one line
    [<li><a href="/tmp/NAME">NAME</a></li>] for each of them, in the order
    of the directory. *)
Theorem listing_shows_visible_entries :
  forall (TMP_DIR : jsstring) (fs1 fs2 : FileSystem) (files1 files2 : list jsstring),
    readdir fs1 TMP_DIR = Returns files1 ->
    readdir fs2 TMP_DIR = Returns files2 ->
    filter notHidden files1 = filter notHidden files2 ->
    requestListener TMP_DIR fs1 (Some (lit "/tmp/"))
    = requestListener TMP_DIR fs2 (Some (lit "/tmp/"))
    /\ (Forall (fun f => Forall (fun c => uriUnreserved c = true) f)
          (filter notHidden files1) ->
        snd (requestListener TMP_DIR fs1 (Some (lit "/tmp/")))
        = Returns
            (html
               (listingPage
                  (Js.join nl
                     (map (fun f => lit "<li><a href=" ++ dq ++ lit "/tmp/" ++ f ++ dq
                                    ++ lit ">" ++ f ++ lit "</a></li>")
                        (filter notHidden files1)))))).
Proof.
  intros TMP_DIR fs1 fs2 files1 files2 H1 H2 Hsame.
  rewrite !listing_for_prefix_with_slash. rewrite H1, H2.
  unfold directoryListing. rewrite Hsame. split; [reflexivity|].
  intro Hplain. cbn [snd]. rewrite (mapLinks_unreserved _ Hplain). reflexivity.
Qed.

Lemma listing_shows_visible_entries_witness :
  requestListener (lit "/srv/stagehand/tmp") siblingFs (Some (lit "/tmp/"))
  = requestListener (lit "/srv/stagehand/tmp")
      (listingFs [lit ".hidden"; lit "page.html"]) (Some (lit "/tmp/"))
  /\ (Forall (fun f => Forall (fun c => uriUnreserved c = true) f)
        (filter notHidden [lit "page.html"; lit ".gitkeep"]) ->
      snd (requestListener (lit "/srv/stagehand/tmp") siblingFs (Some (lit "/tmp/")))
      = Returns
          (html
             (listingPage
                (Js.join nl
                   (map (fun f => lit "<li><a href=" ++ dq ++ lit "/tmp/" ++ f ++ dq
                                  ++ lit ">" ++ f ++ lit "</a></li>")
                      (filter notHidden [lit "page.html"; lit ".gitkeep"])))))).
Proof.
  apply (listing_shows_visible_entries (lit "/srv/stagehand/tmp") siblingFs
           (listingFs [lit ".hidden"; lit "page.html"])
           [lit "page.html"; lit ".gitkeep"] [lit ".hidden"; lit "page.html"]);
    reflexivity.
Defined.

(** ** [cleanTmpDirectory] *)

Lemma unlinkEntries_targets : forall fs directory files,
  Forall (fun c => exists file,
                     c = CallUnlink (Path.join directory file)
                     /\ In file files /\ startsWith file (lit ".") = false)
    (unlinkEntries fs directory files).
Proof.
  intros fs directory. induction files as [|file rest IH]; [constructor|].
  cbn [unlinkEntries].
  assert (Hrest : Forall (fun c => exists f,
                            c = CallUnlink (Path.join directory f)
                            /\ In f (file :: rest) /\ startsWith f (lit ".") = false)
                    (unlinkEntries fs directory rest)).
  { eapply Forall_impl; [|exact IH]. intros c [f [Hc [Hin Hf]]]. exists f.
    split; [exact Hc|]. split; [right; exact Hin | exact Hf]. }
  destruct (startsWith file (lit ".")) eqn:Hhidden; [exact Hrest|].
  assert (Hthis : exists f, CallUnlink (Path.join directory file)
                            = CallUnlink (Path.join directory f)
                            /\ In f (file :: rest) /\ startsWith f (lit ".") = false).
  { exists file. split; [reflexivity|]. split; [left; reflexivity | exact Hhidden]. }
  destruct (unlinkSync fs (Path.join directory file)).
  - constructor; assumption.
  - constructor; [assumption | constructor].
Qed.

Lemma unlinkEntries_all : forall fs directory files,
  (forall file, In file files -> startsWith file (lit ".") = false ->
                exists u, unlinkSync fs (Path.join directory file) = Returns u) ->
  unlinkEntries fs directory files
  = map (fun file => CallUnlink (Path.join directory file)) (filter notHidden files).
Proof.
  intros fs directory. induction files as [|file rest IH]; intro Hok; [reflexivity|].
  cbn [unlinkEntries filter]. unfold notHidden at 1.
  destruct (startsWith file (lit ".")) eqn:Hhidden; cbn [negb].
  - apply IH. intros f Hin Hf. apply Hok; [right; exact Hin | exact Hf].
  - destruct (Hok file (or_introl eq_refl) Hhidden) as [u Hu]. rewrite Hu.
    cbn [map]. f_equal. apply IH. intros f Hin Hf. apply Hok; [right; exact Hin | exact Hf].
Qed.

(** X12.  [cleanTmpDirectory] on a directory that exists never throws: an
    error of [readdirSync] or of [unlinkSync] ends the cleaning and is
    swallowed.  It lists the directory once and unlinks only entries of the
    listing whose name does not start with a dot, each at its path in the
    directory; when every such entry can be unlinked, all of them are, in
    the order of the listing.  On a directory that does not exist it only
    calls [mkdirSync], whose exception it does not catch. *)
Theorem cleanTmpDirectory_spares_hidden_entries :
  forall (fs : SyncFs) (directory : jsstring),
    (existsSync fs directory = true ->
     snd (cleanTmpDirectory fs directory) = Returns tt
     /\ exists calls,
          fst (cleanTmpDirectory fs directory) = CallReaddir directory :: calls
          /\ forall files,
               readdirSync fs directory = Returns files ->
               Forall (fun c => exists file,
                                  c = CallUnlink (Path.join directory file)
                                  /\ In file files
                                  /\ startsWith file (lit ".") = false)
                 calls
               /\ ((forall file, In file files -> startsWith file (lit ".") = false ->
                                 exists u, unlinkSync fs (Path.join directory file)
                                           = Returns u) ->
                   calls = map (fun file => CallUnlink (Path.join directory file))
                             (filter notHidden files)))
    /\ (existsSync fs directory = false ->
        cleanTmpDirectory fs directory = ([CallMkdir directory], mkdirSync fs directory)).
Proof.
  intros fs directory. unfold cleanTmpDirectory. split; intro Hex; rewrite Hex; cbn [negb].
  - destruct (readdirSync fs directory) as [files|err] eqn:Hread; cbn [fst snd].
    + split; [reflexivity|]. eexists. split; [reflexivity|].
      intros files' Hf. injection Hf as <-. split.
      * apply unlinkEntries_targets.
      * apply unlinkEntries_all.
    + split; [reflexivity|]. exists []. split; [reflexivity|].
      intros files Hf. discriminate.
  - reflexivity.
Qed.

Lemma cleanTmpDirectory_spares_hidden_entries_witness :
  snd (cleanTmpDirectory tidyFs (lit "/srv/stagehand/tmp")) = Returns tt
  /\ fst (cleanTmpDirectory tidyFs (lit "/srv/stagehand/tmp"))
     = [ CallReaddir (lit "/srv/stagehand/tmp");
         CallUnlink (lit "/srv/stagehand/tmp/a.html");
         CallUnlink (lit "/srv/stagehand/tmp/b.html") ]
  /\ fst (cleanTmpDirectory startupFs (lit "/srv/stagehand/tmp"))
     = [ CallReaddir (lit "/srv/stagehand/tmp");
         CallUnlink (lit "/srv/stagehand/tmp/a.html");
         CallUnlink (lit "/srv/stagehand/tmp/b.html") ].
Proof.
  destruct (proj1 (cleanTmpDirectory_spares_hidden_entries tidyFs
                     (lit "/srv/stagehand/tmp")) eq_refl)
    as [Hret [calls [Hcalls Hall]]].
  split; [exact Hret|]. split.
  - rewrite Hcalls. f_equal.
    destruct (Hall [lit ".gitkeep"; lit "a.html"; lit "b.html"] eq_refl) as [_ Hmap].
    rewrite Hmap; [vm_compute; reflexivity|].
    intros file _ _. exists tt. reflexivity.
  - vm_compute. reflexivity.
Defined.

(** ** [decodeUnicodeEscapes] *)

Lemma decode_length : forall n line,
  length line <= n -> length (decodeUnicodeEscapes line) <= length line.
Proof.
  induction n as [|n IH]; intros line Hn.
  - destruct line; [simpl; lia | simpl in Hn; lia].
  - destruct line as [|c t]; [simpl; lia|].
    destruct (EscapeAt_dec (c :: t)) as [[code [rest He]] | Hno].
    + rewrite (decode_escape _ _ _ He).
      pose proof (EscapeAt_shorter _ _ _ He) as Hlt.
      assert (Hrest : length (decodeUnicodeEscapes rest) <= length rest).
      { apply IH. simpl in Hn, Hlt. lia. }
      simpl in *. lia.
    + rewrite (decode_plain _ _ Hno).
      assert (Ht : length (decodeUnicodeEscapes t) <= length t).
      { apply IH. simpl in Hn. lia. }
      simpl. lia.
Qed.

(** X13.  Decoding the escape sequences of a line never makes it longer,
    and leaves a line without a backslash as it is; a sequence [\uXXXX]
    with four hexadecimal digits at the start of a line becomes the one
    code unit of that value. *)
Theorem decodeUnicodeEscapes_properties :
  forall (line : jsstring),
    length (decodeUnicodeEscapes line) <= length line
    /\ (~ In (ch "\") line -> decodeUnicodeEscapes line = line)
    /\ (forall a b c d va vb vc vd rest,
           hexval a = Some va -> hexval b = Some vb ->
           hexval c = Some vc -> hexval d = Some vd ->
           line = ch "\" :: ch "u" :: a :: b :: c :: d :: rest ->
           decodeUnicodeEscapes line
           = (((va * 16 + vb) * 16 + vc) * 16 + vd)%N :: decodeUnicodeEscapes rest).
Proof.
  intro line. split; [|split].
  - apply (decode_length (length line)). lia.
  - induction line as [|c t IH]; intro Hno; [reflexivity|].
    rewrite decode_plain.
    + rewrite IH; [reflexivity|]. intro Hin. apply Hno. right. exact Hin.
    + intros code rest [a [b [x [d [Heq _]]]]]. injection Heq as -> _.
      apply Hno. left. reflexivity.
  - intros a b c d va vb vc vd rest Ha Hb Hc Hd ->.
    apply decode_escape. exists a, b, c, d. split; [reflexivity|].
    unfold fromHex4. rewrite Ha, Hb, Hc, Hd. reflexivity.
Qed.

Lemma decodeUnicodeEscapes_properties_witness :
  decodeUnicodeEscapes (lit "Hello world") = lit "Hello world"
  /\ decodeUnicodeEscapes (ch "\" :: ch "u" :: lit "00e9t" ++ lit "e")
     = 233%N :: decodeUnicodeEscapes (lit "t" ++ lit "e").
Proof.
  split.
  - apply (proj1 (proj2 (decodeUnicodeEscapes_properties (lit "Hello world")))).
    intro Hin. vm_compute in Hin.
    repeat (destruct Hin as [Hin | Hin]; [discriminate|]). exact Hin.
  - apply (proj2 (proj2 (decodeUnicodeEscapes_properties
                           (ch "\" :: ch "u" :: lit "00e9t" ++ lit "e")))
             (ch "0") (ch "0") (ch "e") (ch "9") 0%N 0%N 14%N 9%N (lit "t" ++ lit "e"));
      reflexivity.
Defined.

(** ** From an artifact to its URL and back *)

Lemma join_snoc : forall sep xs x,
  xs <> [] -> Js.join sep (xs ++ [x]) = Js.join sep xs ++ sep ++ x.
Proof.
  intros sep xs x. induction xs as [|a rest IH]; intro Hne; [congruence|].
  destruct rest as [|b rest].
  - reflexivity.
  - change (Js.join sep ((a :: b :: rest) ++ [x]))
      with (a ++ sep ++ Js.join sep ((b :: rest) ++ [x])).
    rewrite IH by discriminate.
    change (Js.join sep (a :: b :: rest)) with (a ++ sep ++ Js.join sep (b :: rest)).
    rewrite <- !app_assoc. reflexivity.
Qed.

Lemma split_join : forall sep ls,
  ls <> [] -> Forall (fun l => ~ In sep l) ls -> split sep (Js.join [sep] ls) = ls.
Proof.
  intros sep ls Hne Hall.
  apply (join_lines_unique sep); try assumption.
  - destruct (split_cons sep (Js.join [sep] ls)) as [l [rest Hs]]. rewrite Hs. discriminate.
  - apply split_no_separator.
  - apply join_split.
Qed.

Lemma plainSegment_tests : forall seg,
  plainSegment seg ->
  Js.eqb seg [] = false /\ Js.eqb seg (lit ".") = false /\ Js.eqb seg (lit "..") = false.
Proof.
  intros seg [Hne [_ [Hdot Hdots]]].
  repeat split;
    match goal with
    | |- Js.eqb ?a ?b = false =>
        destruct (Js.eqb a b) eqn:E; [apply eqb_eq in E; congruence | reflexivity]
    end.
Qed.

Lemma normalizeSegments_plain : forall allowAboveRoot segs acc,
  Forall plainSegment segs ->
  Path.normalizeSegments allowAboveRoot acc segs = rev acc ++ segs.
Proof.
  intros allowAboveRoot. induction segs as [|seg rest IH]; intros acc Hall.
  - simpl. symmetry. apply app_nil_r.
  - inversion Hall as [|? ? Hseg Hrest]; subst.
    destruct (plainSegment_tests seg Hseg) as [E1 [E2 E3]].
    cbn [Path.normalizeSegments]. rewrite E1, E2, E3. cbn [orb].
    rewrite (IH (seg :: acc) Hrest). cbn [rev]. rewrite <- app_assoc. reflexivity.
Qed.

Lemma last_app_nonempty : forall (A : Type) (a b : list A) d,
  b <> [] -> last (a ++ b) d = last b d.
Proof.
  intros A a b d Hb. induction a as [|x a IH]; [reflexivity|].
  cbn [app]. destruct (a ++ b) eqn:E.
  - apply app_eq_nil in E. destruct E as [_ E]. congruence.
  - rewrite <- E in *. rewrite <- IH. cbn [last]. rewrite E. reflexivity.
Qed.

Lemma last_In : forall (A : Type) (l : list A) d, l <> [] -> In (last l d) l.
Proof.
  intros A l d. induction l as [|x l IH]; intro Hne; [congruence|].
  destruct l as [|y l]; [left; reflexivity|].
  right. apply IH. discriminate.
Qed.

Lemma join_plain_nonempty : forall segs,
  segs <> [] -> Forall plainSegment segs -> Js.join (lit "/") segs <> [].
Proof.
  intros [|seg rest] Hne Hall; [congruence|].
  inversion Hall as [|? ? [Hseg _] _]; subst.
  destruct seg as [|c t]; [congruence|].
  destruct rest; discriminate.
Qed.

Lemma join_plain_last : forall segs,
  segs <> [] -> Forall plainSegment segs ->
  last (Js.join (lit "/") segs) 0%N <> ch "/".
Proof.
  induction segs as [|seg rest IH]; intros Hne Hall; [congruence|].
  inversion Hall as [|? ? Hseg Hrest]; subst.
  destruct rest as [|seg2 rest].
  - cbn [Js.join]. destruct Hseg as [Hn [Hslash _]].
    intro Heq. apply Hslash. rewrite <- Heq. apply last_In. exact Hn.
  - change (Js.join (lit "/") (seg :: seg2 :: rest))
      with (seg ++ lit "/" ++ Js.join (lit "/") (seg2 :: rest)).
    rewrite app_assoc. rewrite last_app_nonempty.
    + apply IH; [discriminate | exact Hrest].
    + apply join_plain_nonempty; [discriminate | exact Hrest].
Qed.

(** [path.normalize] leaves a resolved path as it is. *)
Lemma normalize_resolved : forall p, resolvedPath p -> Path.normalize p = p.
Proof.
  intros p [segs [Hne [Hall ->]]].
  assert (Hnoslash : Forall (fun l => ~ In (ch "/") l) segs).
  { eapply Forall_impl; [|exact Hall]. intros seg [_ [H _]]. exact H. }
  pose proof (join_plain_nonempty segs Hne Hall) as Hj.
  pose proof (join_plain_last segs Hne Hall) as Hlast.
  change (lit "/" ++ Js.join (lit "/") segs) with (ch "/" :: Js.join (lit "/") segs).
  unfold Path.normalize. rewrite N.eqb_refl.
  assert (Hl : last (ch "/" :: Js.join (lit "/") segs) 0%N
               = last (Js.join (lit "/") segs) 0%N).
  { change (ch "/" :: Js.join (lit "/") segs) with ([ch "/"] ++ Js.join (lit "/") segs).
    apply last_app_nonempty. exact Hj. }
  rewrite Hl. apply N.eqb_neq in Hlast. rewrite Hlast.
  cbn [split]. rewrite N.eqb_refl.
  change (lit "/") with [ch "/"] in *.
  rewrite (split_join (ch "/") segs Hne Hnoslash).
  cbn [Path.normalizeSegments Js.eqb orb].
  cbn [negb]. rewrite (normalizeSegments_plain false segs [] Hall). cbn [rev app].
  destruct (Js.join [ch "/"] segs) eqn:E; [congruence|]. reflexivity.
Qed.

(** Joining a resolved directory and a plain name appends the name. *)
Lemma join_resolved : forall dir name,
  resolvedPath dir -> plainSegment name ->
  Path.join dir name = dir ++ lit "/" ++ name
  /\ resolvedPath (dir ++ lit "/" ++ name).
Proof.
  intros dir name Hdir Hname.
  assert (Hres : resolvedPath (dir ++ lit "/" ++ name)).
  { destruct Hdir as [segs [Hne [Hall ->]]]. exists (segs ++ [name]).
    split; [destruct segs; discriminate|].
    split; [apply Forall_app; split; [exact Hall | constructor; [exact Hname | constructor]]|].
    rewrite (join_snoc (lit "/") segs name Hne). rewrite <- !app_assoc. reflexivity. }
  split; [|exact Hres].
  unfold Path.join.
  destruct Hdir as [segs [Hne [Hall Hd]]].
  destruct dir as [|d0 dir']; [discriminate|].
  destruct Hname as [Hn Hrest]. destruct name as [|n0 name']; [congruence|].
  apply normalize_resolved. exact Hres.
Qed.

Lemma decimal_digits : forall n, Forall (fun c => is_digit c = true) (decimal n).
Proof.
  intro n. unfold decimal.
  assert (H : forall u, Forall (fun c => is_digit c = true)
                          (lit (DecimalString.NilEmpty.string_of_uint u))).
  { induction u; cbn; try constructor; try reflexivity; assumption. }
  destruct (N.to_uint n) eqn:E; try (rewrite <- E; apply H).
  - cbn. constructor; [reflexivity | constructor].
  - apply H.
  - apply H.
  - apply H.
  - apply H.
  - apply H.
  - apply H.
  - apply H.
  - apply H.
  - apply H.
  - apply H.
Qed.

Lemma htmlFilename_plain : forall W,
  Forall (fun c => is_hex c = true) (random_hex W) -> plainSegment (htmlFilename W).
Proof.
  intros W Hhex. unfold plainSegment, htmlFilename. split; [discriminate|].
  split; [|split; discriminate].
  intro Hin.
  repeat (apply in_app_or in Hin; destruct Hin as [Hin | Hin]).
  - vm_compute in Hin. repeat (destruct Hin as [Hin | Hin]; [discriminate|]). exact Hin.
  - pose proof (decimal_digits (date_now W)) as Hd. rewrite Forall_forall in Hd.
    specialize (Hd _ Hin). vm_compute in Hd. discriminate.
  - vm_compute in Hin. repeat (destruct Hin as [Hin | Hin]; [discriminate|]). exact Hin.
  - rewrite Forall_forall in Hhex. specialize (Hhex _ Hin). vm_compute in Hhex. discriminate.
  - vm_compute in Hin. repeat (destruct Hin as [Hin | Hin]; [discriminate|]). exact Hin.
Qed.

(** X14.  The URL that [stagehand_get_html] returns leads back to the file
    it wrote.  When [TMP_DIR] is a resolved path and the random suffix is
    made of hexadecimal digits, the file is written at [TMP_DIR], a
    separator and the file name, inside the artifact directory; the URL is
    [http://localhost:], the port, [/tmp/] and the file name; and the
    static server, asked for [/tmp/] and the file name, reads exactly that
    path and answers with what the file holds, status 200. *)
Theorem artifact_url_round_trip :
  forall (W : World) (args : ToolArgs) (h : handle) (s : State)
         (doc : Document) (fs : FileSystem),
    resolvedPath (TMP_DIR W) ->
    Forall (fun c => is_hex c = true) (random_hex W) ->
    page_document W h = Returns doc ->
    fs_mkdir W = Returns tt ->
    (forall data,
        fs_writeFile W (TMP_DIR W ++ lit "/" ++ htmlFilename W) data = Returns tt) ->
    exists written s',
      handleToolCall W (lit "stagehand_get_html") args h s
      = (Ok (mkResult
               [Text (lit "HTML saved to: http://localhost:" ++ httpPort W ++ lit "/tmp/"
                      ++ htmlFilename W)] false), s')
      /\ artifacts s' = artifacts s ++ [(TMP_DIR W ++ lit "/" ++ htmlFilename W, written)]
      /\ insideDirectory (TMP_DIR W) (TMP_DIR W ++ lit "/" ++ htmlFilename W) = true
      /\ fst (requestListener (TMP_DIR W) fs (Some (lit "/tmp/" ++ htmlFilename W)))
         = [ReadFile (TMP_DIR W ++ lit "/" ++ htmlFilename W)]
      /\ (readFile fs (TMP_DIR W ++ lit "/" ++ htmlFilename W) = Returns written ->
          snd (requestListener (TMP_DIR W) fs (Some (lit "/tmp/" ++ htmlFilename W)))
          = Returns (mkResponse 200 (Some (lit "text/html")) written)).
Proof.
  intros W args h s doc fs Hdir Hhex Hdoc Hmkdir Hwrite.
  pose proof (htmlFilename_plain W Hhex) as Hplain.
  destruct (join_resolved (TMP_DIR W) (htmlFilename W) Hdir Hplain) as [Hjoin _].
  assert (Hlisten :
            requestListener (TMP_DIR W) fs (Some (lit "/tmp/" ++ htmlFilename W))
            = ([ReadFile (TMP_DIR W ++ lit "/" ++ htmlFilename W)],
               Returns (fileResponse
                          (readFile fs (TMP_DIR W ++ lit "/" ++ htmlFilename W))))).
  { assert (Hpre : startsWith (lit "/tmp/" ++ htmlFilename W) (lit "/tmp/") = true)
      by apply startsWith_app.
    assert (Hne1 : Js.eqb (lit "/tmp/" ++ htmlFilename W) (lit "/tmp/") = false)
      by reflexivity.
    assert (Hne2 : Js.eqb (lit "/tmp/" ++ htmlFilename W) (lit "/tmp") = false)
      by reflexivity.
    assert (Hrep : replaceFirst (lit "/tmp/" ++ htmlFilename W) (lit "/tmp/") []
                   = htmlFilename W) by reflexivity.
    assert (Hu : exists c t, lit "/tmp/" ++ htmlFilename W = c :: t)
      by (do 2 eexists; reflexivity).
    destruct Hu as [c [t Hu]].
    unfold requestListener. rewrite Hu. cbv iota. rewrite <- Hu.
    rewrite Hpre, Hne1, Hne2, Hrep, Hjoin, startsWith_app. reflexivity. }
  exists (getHtmlInPage doc (if truthy (selector args) then selector args else None)).
  eexists. split; [|split; [|split; [|split]]].
  - rewrite handleToolCall_get_html. rewrite Hjoin. run_monad.
    rewrite Hdoc, Hmkdir, Hwrite. cbn. reflexivity.
  - reflexivity.
  - unfold insideDirectory. rewrite app_assoc, startsWith_app. apply orb_true_r.
  - rewrite Hlisten. reflexivity.
  - intro Hread. rewrite Hlisten. cbn [snd]. rewrite Hread. reflexivity.
Qed.

Lemma artifact_url_round_trip_witness :
  exists written s',
    handleToolCall (calmWorld hostedEnv []) (lit "stagehand_get_html") noArgs 0 liveState
    = (Ok (mkResult
             [Text (lit "HTML saved to: http://localhost:8080/tmp/stagehand-html-1700000000000-a1b2c3d4e5f6.html")]
             false), s')
    /\ artifacts s'
       = [(lit "/srv/stagehand/tmp/stagehand-html-1700000000000-a1b2c3d4e5f6.html", written)]
    /\ snd (requestListener (lit "/srv/stagehand/tmp")
              (storedFs
                 (lit "/srv/stagehand/tmp/stagehand-html-1700000000000-a1b2c3d4e5f6.html")
                 (documentElement_outerHTML samplePage))
              (Some (lit "/tmp/stagehand-html-1700000000000-a1b2c3d4e5f6.html")))
       = Returns (mkResponse 200 (Some (lit "text/html"))
                    (documentElement_outerHTML samplePage)).
Proof.
  assert (Hdir : resolvedPath (TMP_DIR (calmWorld hostedEnv []))).
  { exists [lit "srv"; lit "stagehand"; lit "tmp"]. split; [discriminate|].
    split; [|reflexivity].
    repeat constructor; try discriminate;
      intro Hin; vm_compute in Hin;
      repeat (destruct Hin as [Hin | Hin]; [discriminate|]); exact Hin. }
  assert (Hhex : Forall (fun c => is_hex c = true) (random_hex (calmWorld hostedEnv []))).
  { repeat constructor. }
  destruct (artifact_url_round_trip (calmWorld hostedEnv []) noArgs 0 liveState samplePage
              (storedFs
                 (lit "/srv/stagehand/tmp/stagehand-html-1700000000000-a1b2c3d4e5f6.html")
                 (documentElement_outerHTML samplePage))
              Hdir Hhex eq_refl eq_refl (fun _ => eq_refl))
    as [written [s' [Hcall [Hart [_ [_ Hserve]]]]]].
  assert (Hw : written = documentElement_outerHTML samplePage).
  { rewrite handleToolCall_get_html in Hcall. vm_compute in Hcall.
    injection Hcall as Hs. rewrite <- Hs in Hart. vm_compute in Hart.
    injection Hart as Hw. symmetry. exact Hw. }
  exists written, s'. split; [exact Hcall|]. split; [exact Hart|].
  rewrite Hw in Hserve. apply Hserve. vm_compute. reflexivity.
Defined.

(** ** The links of the listing *)

Import ListingSpec.

Lemma attributeSafe_cases : forall c,
  attributeSafe c = false ->
  c = 34%N \/ c = ch "<" \/ c = ch ">" \/ c = ch "&" \/ c = ch " " \/ c = ch "/"
  \/ c = ch "#" \/ c = ch "?".
Proof.
  intros c H. unfold attributeSafe in H. apply negb_false_iff in H.
  cbn in H. rewrite !orb_true_iff in H.
  repeat match goal with
         | H : _ \/ _ |- _ => destruct H as [H | H]
         | H : (c =? _)%N = true |- _ => apply N.eqb_eq in H
         end; subst; try discriminate; auto 10.
Qed.

Lemma unreserved_attributeSafe : forall c, uriUnreserved c = true -> attributeSafe c = true.
Proof.
  intros c H. destruct (attributeSafe c) eqn:E; [reflexivity|].
  apply attributeSafe_cases in E.
  repeat match goal with H : _ \/ _ |- _ => destruct H as [H | H] end;
    subst c; vm_compute in H; discriminate.
Qed.

Lemma attributeSafe_codes : forall c,
  attributeSafe c = false ->
  (c = 34 \/ c = 60 \/ c = 62 \/ c = 38 \/ c = 32 \/ c = 47 \/ c = 35 \/ c = 63)%N.
Proof. intros c H. exact (attributeSafe_cases c H). Qed.

Lemma hexdigit_upper_attributeSafe : forall d, attributeSafe (hexdigit_upper d) = true.
Proof.
  intro d. destruct (attributeSafe (hexdigit_upper d)) eqn:E; [reflexivity|].
  apply attributeSafe_codes in E. unfold hexdigit_upper in E.
  destruct (d <? 10)%N eqn:Hd;
    [apply N.ltb_lt in Hd | apply N.ltb_ge in Hd];
    repeat match goal with H : _ \/ _ |- _ => destruct H as [H | H] end; lia.
Qed.

Lemma percentEncode_attributeSafe : forall cp,
  Forall (fun c => attributeSafe c = true) (percentEncode cp).
Proof.
  intro cp. unfold percentEncode.
  induction (utf8 cp) as [|b rest IH]; [constructor|].
  cbn [flat_map]. unfold percent at 1.
  repeat constructor; try apply hexdigit_upper_attributeSafe. exact IH.
Qed.

Lemma encodeURIComponent_attributeSafe : forall n s e,
  length s <= n -> encodeURIComponent s = Returns e ->
  Forall (fun c => attributeSafe c = true) e.
Proof.
  induction n as [|n IH]; intros s e Hn He.
  - destruct s; [|simpl in Hn; lia]. injection He as <-. constructor.
  - destruct s as [|c t]; [injection He as <-; constructor|].
    cbn [encodeURIComponent] in He.
    destruct (uriUnreserved c) eqn:Hu.
    + destruct (encodeURIComponent t) as [r|] eqn:Ht; [|discriminate].
      injection He as <-. constructor; [apply unreserved_attributeSafe; exact Hu|].
      apply (IH t r); [simpl in Hn; lia | exact Ht].
    + destruct (is_high_surrogate c).
      * destruct t as [|lo t']; [discriminate|].
        destruct (is_low_surrogate lo); [|discriminate].
        destruct (encodeURIComponent t') as [r|] eqn:Ht; [|discriminate].
        injection He as <-. apply Forall_app. split; [apply percentEncode_attributeSafe|].
        apply (IH t' r); [simpl in Hn; lia | exact Ht].
      * destruct (is_low_surrogate c); [discriminate|].
        destruct (encodeURIComponent t) as [r|] eqn:Ht; [|discriminate].
        injection He as <-. apply Forall_app. split; [apply percentEncode_attributeSafe|].
        apply (IH t r); [simpl in Hn; lia | exact Ht].
Qed.

(** X15.  A link of the listing, when it can be built, is
    [<li><a href="/tmp/E">NAME</a></li>] where [E], the encoded name, holds
    no double quote, [<], [>], [&], space, [/], [#] or [?], whatever the
    name of the file is: a file name cannot end the attribute or leave the
    [/tmp/] path.  For a name of letters, digits and [-_.!~*'()] the encoded
    name is the name.  The text of the link is the name as it is. *)
Theorem link_href_is_safe :
  forall (f l : jsstring),
    link f = Returns l ->
    exists e,
      l = lit "<li><a href=" ++ dq ++ lit "/tmp/" ++ e ++ dq ++ lit ">" ++ f
          ++ lit "</a></li>"
      /\ Forall (fun c => attributeSafe c = true) e
      /\ (Forall (fun c => uriUnreserved c = true) f -> e = f).
Proof.
  intros f l Hl. unfold link in Hl.
  destruct (encodeURIComponent f) as [e|] eqn:He; [|discriminate].
  injection Hl as <-. exists e. split; [reflexivity|]. split.
  - apply (encodeURIComponent_attributeSafe (length f) f e); [lia | exact He].
  - intro Hplain. rewrite (encodeURIComponent_unreserved f Hplain) in He.
    injection He as <-. reflexivity.
Qed.

Lemma link_href_is_safe_witness :
  exists e,
    lit "<li><a href=" ++ dq ++ lit "/tmp/a%22%3E%20b.html" ++ dq ++ lit ">"
    ++ (lit "a" ++ dq ++ lit "> b.html") ++ lit "</a></li>"
    = lit "<li><a href=" ++ dq ++ lit "/tmp/" ++ e ++ dq ++ lit ">"
      ++ (lit "a" ++ dq ++ lit "> b.html") ++ lit "</a></li>"
    /\ Forall (fun c => attributeSafe c = true) e.
Proof.
  destruct (link_href_is_safe (lit "a" ++ dq ++ lit "> b.html")
              (lit "<li><a href=" ++ dq ++ lit "/tmp/a%22%3E%20b.html" ++ dq ++ lit ">"
               ++ (lit "a" ++ dq ++ lit "> b.html") ++ lit "</a></li>")
              eq_refl)
    as [e [Heq [Hsafe _]]].
  exists e. split; [exact Heq | exact Hsafe].
Defined.

(** ** The other paths of [stagehand_get_html] *)

(** X16.  When the page can be evaluated and the file can be written,
    [stagehand_get_html] succeeds also in these cases: without a selector,
    or with an empty one, it writes the outer HTML of the whole document;
    when the evaluation of the selector throws in the page, it writes the
    text "Selector error: ", the message and a hint, and still answers with
    "HTML saved to: " and isError false. *)
Theorem get_html_whole_page_and_selector_errors :
  forall (W : World) (args : ToolArgs) (h : handle) (s : State) (doc : Document),
    page_document W h = Returns doc ->
    fs_mkdir W = Returns tt ->
    (forall data,
        fs_writeFile W (Path.join (TMP_DIR W) (htmlFilename W)) data = Returns tt) ->
    exists written s',
      handleToolCall W (lit "stagehand_get_html") args h s
      = (Ok (mkResult [Text (lit "HTML saved to: " ++ htmlUrl W)] false), s')
      /\ artifacts s' = artifacts s ++ [(Path.join (TMP_DIR W) (htmlFilename W), written)]
      /\ events s' = events s ++ [EvEvaluate h; EvMkdir;
                                  EvWriteFile (Path.join (TMP_DIR W) (htmlFilename W))]
      /\ (selector args = None \/ selector args = Some [] ->
          written = documentElement_outerHTML doc)
      /\ (forall sel err,
             selector args = Some sel -> sel <> [] ->
             (isXPathSelector sel = true /\ evaluateXPath doc sel = Throws err)
             \/ (isXPathSelector sel = false /\ querySelector doc sel = Throws err) ->
             written = lit "Selector error: " ++ errorMsg err
                       ++ lit ". For XPath, use '//' or '/' prefix. For CSS, use standard selectors.").
Proof.
  intros W args h s doc Hdoc Hmkdir Hwrite.
  exists (getHtmlInPage doc (if truthy (selector args) then selector args else None)).
  eexists. split; [|split; [|split; [|split]]].
  - rewrite handleToolCall_get_html. run_monad.
    rewrite Hdoc, Hmkdir, Hwrite. cbn. reflexivity.
  - reflexivity.
  - cbn. rewrite <- !app_assoc. reflexivity.
  - intros [Hsel | Hsel]; rewrite Hsel; reflexivity.
  - intros sel err Hsel Hne Hcase. rewrite Hsel.
    destruct sel as [|c t]; [congruence|]. cbn [truthy].
    unfold getHtmlInPage.
    destruct Hcase as [[Hx He] | [Hx He]]; rewrite Hx, He; reflexivity.
Qed.

Lemma get_html_whole_page_and_selector_errors_witness :
  exists written s',
    handleToolCall (pageWorld (Returns strictPage) (Returns tt) (fun _ _ => Returns tt))
      (lit "stagehand_get_html") (mkArgs None None None None (Some (lit "div[")))
      0 liveState
    = (Ok (mkResult
             [Text (lit "HTML saved to: "
                    ++ htmlUrl (pageWorld (Returns strictPage) (Returns tt)
                                  (fun _ _ => Returns tt)))] false), s')
    /\ written = lit "Selector error: not a valid selector. For XPath, use '//' or '/' prefix. For CSS, use standard selectors.".
Proof.
  destruct (get_html_whole_page_and_selector_errors
              (pageWorld (Returns strictPage) (Returns tt) (fun _ _ => Returns tt))
              (mkArgs None None None None (Some (lit "div["))) 0 liveState strictPage
              eq_refl eq_refl (fun _ => eq_refl))
    as [written [s' [Hcall [_ [_ [_ Herr]]]]]].
  exists written, s'. split; [exact Hcall|].
  apply (Herr (lit "div[") (ErrorObj (lit "not a valid selector")) eq_refl).
  - discriminate.
  - right. split; reflexivity.
Defined.

(** X17.  [stagehand_get_html] fails in three ways, each answered with the
    envelope "Failed to get HTML: " and the message, then the operation
    log, isError true, and no artifact recorded: the evaluation in the
    page throws (nothing else is called), creating the directory throws
    (nothing is written), or writing the file throws. *)
Theorem get_html_failures :
  forall (W : World) (args : ToolArgs) (h : handle) (s : State) (err : thrown),
    (page_document W h = Throws err ->
     handleToolCall W (lit "stagehand_get_html") args h s
     = (Ok (mkResult [ Text (lit "Failed to get HTML: " ++ errorMsg err);
                       Text (operationLogsText s) ] true),
        with_events (events s ++ [EvEvaluate h]) s))
    /\ (forall doc,
           page_document W h = Returns doc -> fs_mkdir W = Throws err ->
           handleToolCall W (lit "stagehand_get_html") args h s
           = (Ok (mkResult [ Text (lit "Failed to get HTML: " ++ errorMsg err);
                             Text (operationLogsText s) ] true),
              with_events ((events s ++ [EvEvaluate h]) ++ [EvMkdir]) s))
    /\ (forall doc,
           page_document W h = Returns doc -> fs_mkdir W = Returns tt ->
           (forall data,
               fs_writeFile W (Path.join (TMP_DIR W) (htmlFilename W)) data = Throws err) ->
           handleToolCall W (lit "stagehand_get_html") args h s
           = (Ok (mkResult [ Text (lit "Failed to get HTML: " ++ errorMsg err);
                             Text (operationLogsText s) ] true),
              with_events
                (((events s ++ [EvEvaluate h]) ++ [EvMkdir])
                 ++ [EvWriteFile (Path.join (TMP_DIR W) (htmlFilename W))]) s)).
Proof.
  intros W args h s err. split; [|split].
  - intro Hdoc. rewrite handleToolCall_get_html. run_monad. rewrite Hdoc. reflexivity.
  - intros doc Hdoc Hmkdir. rewrite handleToolCall_get_html. run_monad.
    rewrite Hdoc, Hmkdir. reflexivity.
  - intros doc Hdoc Hmkdir Hwrite. rewrite handleToolCall_get_html. run_monad.
    rewrite Hdoc, Hmkdir, Hwrite. reflexivity.
Qed.

Lemma get_html_failures_witness :
  handleToolCall
    (pageWorld (Returns samplePage) (Returns tt)
       (fun _ _ => Throws (ErrorObj (lit "ENOSPC: no space left on device"))))
    (lit "stagehand_get_html") noArgs 0 liveState
  = (Ok (mkResult
           [ Text (lit "Failed to get HTML: "
                   ++ errorMsg (ErrorObj (lit "ENOSPC: no space left on device")));
             Text (operationLogsText liveState) ] true),
     with_events
       (((events liveState ++ [EvEvaluate 0]) ++ [EvMkdir])
        ++ [EvWriteFile
              (Path.join
                 (TMP_DIR (pageWorld (Returns samplePage) (Returns tt)
                             (fun _ _ => Throws (ErrorObj (lit "ENOSPC: no space left on device")))))
                 (htmlFilename
                    (pageWorld (Returns samplePage) (Returns tt)
                       (fun _ _ => Throws (ErrorObj (lit "ENOSPC: no space left on device"))))))])
       liveState).
Proof.
  apply (proj2 (proj2 (get_html_failures
                         (pageWorld (Returns samplePage) (Returns tt)
                            (fun _ _ => Throws (ErrorObj (lit "ENOSPC: no space left on device"))))
                         noArgs 0 liveState
                         (ErrorObj (lit "ENOSPC: no space left on device"))))
           samplePage); reflexivity.
Defined.

(** ** The failure of [stagehand_extract] *)

(** X18.  When reading the text of the page throws, the [catch] of
    [stagehand_extract] reads [message] on whatever was thrown, where the
    other tools test for an [Error] and convert any other value to a
    string.  For an [Error], and for any other value that has a [message],
    the answer is one text item, "Failed to extract content: " and that
    message, isError true; for a value without a [message], a string for
    one, the text ends in "undefined"; for [null] and [undefined] the read
    throws and [handleToolCall] throws the TypeError instead of returning
    an envelope. *)
Theorem extract_failure_message :
  forall (W : World) (args : ToolArgs) (h : handle) (s : State) (err : thrown),
    page_innerText W h = Throws err ->
    handleToolCall W (lit "stagehand_extract") args h s
    = (match err with
       | ErrorObj message | NonError _ (Some message) =>
           Ok (mkResult [ Text (lit "Failed to extract content: " ++ message) ] true)
       | NonError _ None =>
           Ok (mkResult [ Text (lit "Failed to extract content: undefined") ] true)
       | Nullish v => Err (ErrorObj (typeErrorMessage W v))
       end,
       with_events (events s ++ [EvInnerText h]) s).
Proof.
  intros W args h s err Hthrow.
  rewrite handleToolCall_extract. run_monad. rewrite Hthrow.
  destruct err as [m|v|r [m|]]; reflexivity.
Qed.

Lemma extract_failure_message_witness :
  handleToolCall (brokenWorld hostedEnv (NonError (lit "timeout") None))
    (lit "stagehand_extract") noArgs 0 liveState
  = (Ok (mkResult [ Text (lit "Failed to extract content: undefined") ] true),
     with_events (events liveState ++ [EvInnerText 0]) liveState).
Proof.
  apply (extract_failure_message (brokenWorld hostedEnv (NonError (lit "timeout") None))
           noArgs 0 liveState (NonError (lit "timeout") None)).
  reflexivity.
Defined.

(** ** The invariant of the session and the error envelopes, at a
       concrete call *)

Lemma reachable_wellFormed_witness :
  wellFormed (stagehandConfig (calmWorld hostedEnv []))
    (snd (callTool (calmWorld hostedEnv []) (stagehandConfig (calmWorld hostedEnv []))
            navigateExample initialState)).
Proof.
  apply (reachable_wellFormed (stagehandConfig (calmWorld hostedEnv []))).
  apply reachable_call. apply reachable_initial.
Defined.

Lemma failure_envelopes_carry_log_witness :
  exists what,
    content (mkResult
               [ Text (lit "Failed to navigate: net::ERR_NAME_NOT_RESOLVED");
                 Text (operationLogsText
                         (with_events (events liveState ++ [EvGoto 0]) liveState)) ]
               true)
    = [ Text what;
        Text (operationLogsText (with_events (events liveState ++ [EvGoto 0]) liveState)) ].
Proof.
  apply (failure_envelopes_carry_log
           (gotoFailsWorld (ErrorObj (lit "net::ERR_NAME_NOT_RESOLVED")))
           (lit "stagehand_navigate") (navigateArgs (lit "https://nowhere.invalid/")) 0 liveState
           (mkResult
              [ Text (lit "Failed to navigate: net::ERR_NAME_NOT_RESOLVED");
                Text (operationLogsText
                        (with_events (events liveState ++ [EvGoto 0]) liveState)) ]
              true)
           (with_events (events liveState ++ [EvGoto 0]) liveState)).
  - reflexivity.
  - vm_compute. reflexivity.
  - reflexivity.
Defined.

(** ** The tools that make one call on the page *)



(** X22.  The envelopes of [stagehand_navigate] and [stagehand_observe].
    A navigation that succeeds answers with two text items, "Navigated to: "
    with the URL and the link to the live session with the session id; the
    URL and the id are written as "undefined" when they are missing, and
    the link is given whatever the environment is.  An observation that
    succeeds answers with "Observations: " and the JSON text of what the
    page returned, without indentation.  When the call throws, the answer
    is "Failed to navigate: " or "Failed to observe: " with the message,
    followed by the operation log, isError true. *)
Theorem navigate_and_observe_envelopes :
  forall (W : World) (args : ToolArgs) (h : handle) (s : State),
    (page_goto W h (url args) = Returns tt ->
     fst (handleToolCall W (lit "stagehand_navigate") args h s)
     = Ok (mkResult
             [ Text (lit "Navigated to: " ++ tpl (url args));
               Text (lit "View the live session here: https://browserbase.com/sessions/"
                     ++ tpl (sessionID W h)) ]
             false))
    /\ (forall err,
           page_goto W h (url args) = Throws err ->
           fst (handleToolCall W (lit "stagehand_navigate") args h s)
           = Ok (mkResult [ Text (lit "Failed to navigate: " ++ errorMsg err);
                            Text (operationLogsText s) ] true))
    /\ (forall observations,
           page_observe W h (instruction args) = Returns observations ->
           fst (handleToolCall W (lit "stagehand_observe") args h s)
           = Ok (mkResult [ Text (lit "Observations: " ++ stringify observations 0) ] false))
    /\ (forall err,
           page_observe W h (instruction args) = Throws err ->
           fst (handleToolCall W (lit "stagehand_observe") args h s)
           = Ok (mkResult [ Text (lit "Failed to observe: " ++ errorMsg err);
                            Text (operationLogsText s) ] true)).
Proof.
  intros W args h s. conjuncts.
  - intro H.
    change (handleToolCall W (lit "stagehand_navigate") args h s)
      with (try_catch
              (call (EvGoto h) (page_goto W h (url args)) ;;
               ret (mkResult
                      [ Text (lit "Navigated to: " ++ tpl (url args));
                        Text (lit "View the live session here: https://browserbase.com/sessions/"
                              ++ tpl (sessionID W h)) ]
                      false))
              (failure (lit "Failed to navigate: ")) s).
    run_monad. rewrite H. reflexivity.
  - intros err H.
    change (handleToolCall W (lit "stagehand_navigate") args h s)
      with (try_catch
              (call (EvGoto h) (page_goto W h (url args)) ;;
               ret (mkResult
                      [ Text (lit "Navigated to: " ++ tpl (url args));
                        Text (lit "View the live session here: https://browserbase.com/sessions/"
                              ++ tpl (sessionID W h)) ]
                      false))
              (failure (lit "Failed to navigate: ")) s).
    run_monad. rewrite H. reflexivity.
  - intros observations H.
    change (handleToolCall W (lit "stagehand_observe") args h s)
      with (try_catch
              (observations <- call (EvObserve h) (page_observe W h (instruction args)) ;;
               ret (mkResult [ Text (lit "Observations: " ++ stringify observations 0) ] false))
              (failure (lit "Failed to observe: ")) s).
    run_monad. rewrite H. reflexivity.
  - intros err H.
    change (handleToolCall W (lit "stagehand_observe") args h s)
      with (try_catch
              (observations <- call (EvObserve h) (page_observe W h (instruction args)) ;;
               ret (mkResult [ Text (lit "Observations: " ++ stringify observations 0) ] false))
              (failure (lit "Failed to observe: ")) s).
    run_monad. rewrite H. reflexivity.
Qed.

Lemma navigate_and_observe_envelopes_witness :
  fst (handleToolCall (calmWorld hostedEnv []) (lit "stagehand_navigate") noArgs 0 liveState)
  = Ok (mkResult
          [ Text (lit "Navigated to: undefined");
            Text (lit "View the live session here: https://browserbase.com/sessions/sess_1") ]
          false)
  /\ fst (handleToolCall (calmWorld hostedEnv []) (lit "stagehand_observe") noArgs 0 liveState)
     = Ok (mkResult [ Text (lit "Observations: []") ] false).
Proof.
  split.
  - apply (proj1 (navigate_and_observe_envelopes (calmWorld hostedEnv []) noArgs 0 liveState)).
    reflexivity.
  - apply (proj1 (proj2 (proj2 (navigate_and_observe_envelopes (calmWorld hostedEnv []) noArgs
                                  0 liveState)))
             (JArr [])).
    reflexivity.
Defined.

(** ** The configuration *)

(** X23.  The configuration that the module builds from the environment is
    coherent.  The environment is BROWSERBASE exactly when the parameters
    of a hosted session are given, and then the API key is not empty and
    the project of the parameters is the project of the configuration, not
    empty; a context, when given, has an id that is not empty.  Launch
    options for a local browser, when given, hold a CDP URL that is not
    empty, so that a LOCAL configuration is refused by [ensureStagehand]
    exactly when it has no launch options.  The model is the OpenRouter
    client whenever [OPENROUTER_API_KEY] is set and not empty, whatever the
    OpenAI variables are; otherwise it is an OpenAI model whose name is
    [OPENAI_MODEL_ID], or "gpt-4o-mini" when that is unset or empty, and so
    never empty. *)
Theorem stagehandConfig_coherent :
  forall (W : World),
    (env (stagehandConfig W) = BROWSERBASE
     <-> browserbaseSessionCreateParams (stagehandConfig W) <> None)
    /\ (forall p,
           browserbaseSessionCreateParams (stagehandConfig W) = Some p ->
           truthy (apiKey (stagehandConfig W)) = true
           /\ projectId (stagehandConfig W) = Some (scp_projectId p)
           /\ scp_projectId p <> []
           /\ forall id, scp_contextId p = Some id -> id <> [])
    /\ (forall o,
           localBrowserLaunchOptions (stagehandConfig W) = Some o ->
           truthy (cdpUrl o) = true)
    /\ (env (stagehandConfig W) = LOCAL ->
        (localWithoutCdpUrl (stagehandConfig W) = true
         <-> localBrowserLaunchOptions (stagehandConfig W) = None))
    /\ (truthy (OPENROUTER_API_KEY (processEnv W)) = true ->
        model (stagehandConfig W) = OpenRouter (llmClient_json W))
    /\ (truthy (OPENROUTER_API_KEY (processEnv W)) = false ->
        exists modelName,
          model (stagehandConfig W) = OpenAi modelName (OPENAI_API_KEY (processEnv W))
          /\ modelName <> []
          /\ (truthy (OPENAI_MODEL_ID (processEnv W)) = false ->
              modelName = lit "gpt-4o-mini")
          /\ (truthy (OPENAI_MODEL_ID (processEnv W)) = true ->
              OPENAI_MODEL_ID (processEnv W) = Some modelName)).
Proof.
  intro W. unfold stagehandConfig, localWithoutCdpUrl. cbn.
  destruct (processEnv W) as [key project context cdp orKey oaModel oaKey port]. cbn.
  conjuncts.
  - destruct (truthy key && truthy project); split; intro H;
      first [ discriminate H | reflexivity | exfalso; apply H; reflexivity | discriminate ].
  - intros p Hp.
    destruct (truthy key) eqn:Hkey; cbn in Hp; [|discriminate Hp].
    destruct project as [[|c t]|]; cbn in Hp; try discriminate Hp.
    injection Hp as <-. cbn. conjuncts; try reflexivity; try discriminate.
    intros id Hid. destruct context as [[|c' t']|]; cbn in Hid; try discriminate Hid.
    injection Hid as <-. discriminate.
  - intros o Ho. destruct (truthy cdp) eqn:Hcdp; [|discriminate Ho].
    injection Ho as <-. exact Hcdp.
  - intro Henv. destruct (truthy key && truthy project); cbn in Henv |- *;
      [discriminate Henv|].
    destruct (truthy cdp) eqn:Hcdp; cbn; [rewrite Hcdp|]; cbn; split; intro H;
      first [ discriminate H | reflexivity ].
  - intros ->. reflexivity.
  - intros ->. destruct oaModel as [[|c t]|]; cbn; eexists;
      (split; [reflexivity|]); conjuncts;
      first [ discriminate | reflexivity | intro H; discriminate H | idtac ].
Qed.

Lemma stagehandConfig_coherent_witness :
  projectId (stagehandConfig (calmWorld hostedEnv [])) = Some (lit "proj_1")
  /\ model (stagehandConfig (calmWorld hostedEnv []))
     = OpenAi (lit "gpt-4o-mini") (Some (lit "sk-openai")).
Proof.
  split.
  - exact (proj1 (proj2 (proj1 (proj2 (stagehandConfig_coherent (calmWorld hostedEnv [])))
                           (mkSessionCreateParams (lit "proj_1") None) eq_refl))).
  - destruct (proj2 (proj2 (proj2 (proj2 (proj2
               (stagehandConfig_coherent (calmWorld hostedEnv [])))))) eq_refl)
      as [m [Hm [_ [Hdefault _]]]].
    rewrite Hm. rewrite (Hdefault eq_refl). reflexivity.
Defined.
